(** * Energy ingestion engine: dual-path persistence and windowed analytics

    A shallow embedding of the ingestion service (hot upsert + cold insert
    inside one transaction), of the ingestion controller with its DTO
    validators, and of the analytics service (24-hour window aggregate and
    health classification), followed by the properties of the
    specification that were checked against them.

    Conventions of the embedding:
    - a finite JavaScript [number] is written as the decimal that
      JavaScript prints for it, an exact rational ([Q]); arithmetic on
      numbers goes through the nearest binary64 value ([Double]);
    - a value written to a [NUMERIC(p, s)] column is rounded to [s] decimal
      places by the database;
    - a [Date] is its epoch-millisecond value, [None] for [Invalid Date];
    - the database is the pair of current-status tables (finite maps keyed
      by the primary key) and the pair of history tables (lists in insertion
      order), with the history sequences kept outside the transaction;
    - the driver may refuse any call (a lost connection, a value that does
      not fit its column, an invalid date): the refusals are a schedule of
      the world, not a function of the data;
    - logger calls have no effect on the stores and are left out. *)

From Stdlib Require Import QArith Qround Qabs ZArith Lia Lqa.
From stdpp Require Import gmap strings list.

Local Open Scope Z_scope.

(** ** JavaScript values that a request body can carry *)

Inductive JsValue :=
| JsUndefined
| JsNull
| JsBoolean (b : bool)
| JsNumber (q : Q)
| JsNaN
| JsInfinity (negative : bool)
| JsString (s : string).

(** [new Date(...)]: epoch milliseconds, or [None] for [Invalid Date]. *)
Definition JsDate := option Z.

(** What the service takes from the platform: the ISO 8601 recogniser of
    the validation library and the date parser of the JavaScript engine. *)
Class Platform := {
  isISO8601 : string → bool;
  Date_parse : string → JsDate
}.

(** ** DTOs (src/dtos)

    A DTO record is a body whose properties have their declared types,
    the numbers being finite. *)

Module MeterTelemetryDto.
Record t := mk {
  meterId : string;
  kwhConsumedAc : Q;
  voltage : Q;
  timestamp : string
}.
End MeterTelemetryDto.

Module VehicleTelemetryDto.
Record t := mk {
  vehicleId : string;
  soc : Q;
  kwhDeliveredDc : Q;
  batteryTemp : Q;
  timestamp : string
}.
End VehicleTelemetryDto.

Module VehiclePerformanceAnalyticsDto.
Record t := mk {
  vehicleId : string;
  periodStart : Z;
  periodEnd : Z;
  totalEnergyConsumedAc : Q;
  totalEnergyDeliveredDc : Q;
  efficiencyRatio : Q;
  avgBatteryTemp : Q;
  dataPointsAnalyzed : Z;
  healthStatus : string
}.
End VehiclePerformanceAnalyticsDto.

(** ** Entities (src/entities) *)

Module MeterCurrentStatus.
Record t := mk {
  meterId : string;
  kwhConsumedAc : Q;
  voltage : Q;
  lastUpdated : JsDate;
  createdAt : Z
}.
End MeterCurrentStatus.

Module VehicleCurrentStatus.
Record t := mk {
  vehicleId : string;
  soc : Q;
  kwhDeliveredDc : Q;
  batteryTemp : Q;
  lastUpdated : JsDate;
  createdAt : Z
}.
End VehicleCurrentStatus.

Module MeterTelemetryHistory.
Record t := mk {
  id : Z;
  meterId : string;
  kwhConsumedAc : Q;
  voltage : Q;
  timestamp : JsDate;
  ingestedAt : Z
}.
End MeterTelemetryHistory.

Module VehicleTelemetryHistory.
Record t := mk {
  id : Z;
  vehicleId : string;
  soc : Q;
  kwhDeliveredDc : Q;
  batteryTemp : Q;
  timestamp : JsDate;
  ingestedAt : Z
}.
End VehicleTelemetryHistory.

(** What the service hands to [manager.upsert] and [manager.insert]: the
    object literals of the source, before the database fills in the
    generated columns. *)

Module MeterStatusValues.
Record t := mk {
  meterId : string; kwhConsumedAc : Q; voltage : Q; lastUpdated : JsDate
}.
End MeterStatusValues.

Module VehicleStatusValues.
Record t := mk {
  vehicleId : string; soc : Q; kwhDeliveredDc : Q; batteryTemp : Q;
  lastUpdated : JsDate
}.
End VehicleStatusValues.

Module MeterHistoryValues.
Record t := mk {
  meterId : string; kwhConsumedAc : Q; voltage : Q; timestamp : JsDate
}.
End MeterHistoryValues.

Module VehicleHistoryValues.
Record t := mk {
  vehicleId : string; soc : Q; kwhDeliveredDc : Q; batteryTemp : Q;
  timestamp : JsDate
}.
End VehicleHistoryValues.

(** ** The database *)

Record Tables := mkTables {
  meter_current_status : gmap string MeterCurrentStatus.t;
  vehicle_current_status : gmap string VehicleCurrentStatus.t;
  meter_telemetry_history : list MeterTelemetryHistory.t;
  vehicle_telemetry_history : list VehicleTelemetryHistory.t
}.

Definition emptyTables : Tables := mkTables ∅ ∅ [] [].

(** Calls that reach the driver through a query runner. *)
Inductive DriverCall :=
| Connect
| StartTransaction
| UpsertMeterStatus
| UpsertVehicleStatus
| InsertMeterHistory
| InsertVehicleHistory
| CommitTransaction
| RollbackTransaction
| Release.

(** What a statement of a transaction writes: an upsert with the database
    time of the statement, or history rows with their generated columns. *)
Inductive Write :=
| UpsertMeter (v : MeterStatusValues.t) (now : Z)
| UpsertVehicle (v : VehicleStatusValues.t) (now : Z)
| AppendMeter (rows : list MeterTelemetryHistory.t)
| AppendVehicle (rows : list VehicleTelemetryHistory.t).

(** The world an ingest call runs in.  [db] is the committed state, the one
    every other reader sees; [tx] is the transaction open on the pooled
    connection, as the writes it has made so far and not yet committed
    ([None] when the connection is outside a transaction); the two history
    sequences are not transactional (a value drawn in a transaction that
    rolls back is lost); [trace] lists the driver calls made so far;
    [faults n] tells whether the driver refuses the [n]-th call and
    [clock n] is the database time at that call.

    Calls made one after the other get the same connection of the pool:
    the pool hands out the connection released last. *)
Record World := mkWorld {
  db : Tables;
  tx : option (list Write);
  meter_history_id_seq : Z;
  vehicle_history_id_seq : Z;
  trace : list DriverCall;
  faults : nat → bool;
  clock : nat → Z
}.

Definition set_db (t : Tables) (w : World) : World :=
  mkWorld t (tx w) (meter_history_id_seq w) (vehicle_history_id_seq w)
          (trace w) (faults w) (clock w).

Definition set_tx (o : option (list Write)) (w : World) : World :=
  mkWorld (db w) o (meter_history_id_seq w) (vehicle_history_id_seq w)
          (trace w) (faults w) (clock w).

Definition set_meter_seq (n : Z) (w : World) : World :=
  mkWorld (db w) (tx w) n (vehicle_history_id_seq w)
          (trace w) (faults w) (clock w).

Definition set_vehicle_seq (n : Z) (w : World) : World :=
  mkWorld (db w) (tx w) (meter_history_id_seq w) n
          (trace w) (faults w) (clock w).

Definition log_call (c : DriverCall) (w : World) : World :=
  mkWorld (db w) (tx w) (meter_history_id_seq w) (vehicle_history_id_seq w)
          (trace w ++ [c]) (faults w) (clock w).

(** ** Asynchronous computations that may throw *)

Inductive Exception :=
| ValidationError (properties : list string)
| PersistenceError (call : DriverCall)
| NotFoundException (message : string).

Inductive Outcome (A : Type) :=
| Returned (a : A)
| Thrown (e : Exception).
Arguments Returned {A} a.
Arguments Thrown {A} e.

Definition Async (A : Type) : Type := World → Outcome A * World.

Definition ret {A} (a : A) : Async A := fun w => (Returned a, w).

Definition throw {A} (e : Exception) : Async A := fun w => (Thrown e, w).

Definition bind {A B} (m : Async A) (k : A → Async B) : Async B :=
  fun w =>
    match m w with
    | (Returned a, w1) => k a w1
    | (Thrown e, w1) => (Thrown e, w1)
    end.

#[global] Instance Async_ret : MRet Async := @ret.
#[global] Instance Async_bind : MBind Async := λ A B k m, bind m k.

(** [try { body } catch (error) { handler error } finally { final }]: the
    handler runs on a throw of the body, [final] runs on every path, and a
    throw of [final] replaces the outcome. *)
Definition tryCatchFinally {A} (body : Async A) (handler : Exception → Async A)
    (final : Async unit) : Async A :=
  fun w =>
    let '(r, w1) :=
      match body w with
      | (Returned a, w1) => (Returned a, w1)
      | (Thrown e, w1) => handler e w1
      end in
    match final w1 with
    | (Returned _, w2) => (r, w2)
    | (Thrown e, w2) => (Thrown e, w2)
    end.

(** [for (const item of data) { await f item }] *)
Fixpoint forOf {A} (data : list A) (f : A → Async unit) : Async unit :=
  match data with
  | [] => ret tt
  | item :: rest => f item ;; forOf rest f
  end.

(** ** Values in [NUMERIC(precision, scale)] columns *)

Module Numeric.

(** The nearest integer, a tie going away from zero. *)
Definition roundAway (x : Q) : Z :=
  if Qle_bool 0 x then Qfloor (x + (1 # 2)) else - Qfloor (- x + (1 # 2)).

(** What a column of the given scale keeps of a value written to it.  (A
    value too large for the precision of the column is refused by the
    driver.) *)
Definition column (scale : Z) (x : Q) : Q :=
  (inject_Z (roundAway (x * inject_Z (10 ^ scale))) / inject_Z (10 ^ scale))%Q.

End Numeric.

(** ** Rows and tables: replace-or-insert and append *)

Module Store.

(** The columns of [meter_current_status] and [meter_telemetry_history]:
    [kwh_consumed_ac] is [decimal(10, 4)], [voltage] is [decimal(8, 2)]. *)
Definition meterStatusColumns (v : MeterStatusValues.t)
    : MeterStatusValues.t :=
  MeterStatusValues.mk (MeterStatusValues.meterId v)
    (Numeric.column 4 (MeterStatusValues.kwhConsumedAc v))
    (Numeric.column 2 (MeterStatusValues.voltage v))
    (MeterStatusValues.lastUpdated v).

Definition meterHistoryColumns (v : MeterHistoryValues.t)
    : MeterHistoryValues.t :=
  MeterHistoryValues.mk (MeterHistoryValues.meterId v)
    (Numeric.column 4 (MeterHistoryValues.kwhConsumedAc v))
    (Numeric.column 2 (MeterHistoryValues.voltage v))
    (MeterHistoryValues.timestamp v).

(** The columns of [vehicle_current_status] and
    [vehicle_telemetry_history]: [soc] and [battery_temp] are
    [decimal(5, 2)], [kwh_delivered_dc] is [decimal(10, 4)]. *)
Definition vehicleStatusColumns (v : VehicleStatusValues.t)
    : VehicleStatusValues.t :=
  VehicleStatusValues.mk (VehicleStatusValues.vehicleId v)
    (Numeric.column 2 (VehicleStatusValues.soc v))
    (Numeric.column 4 (VehicleStatusValues.kwhDeliveredDc v))
    (Numeric.column 2 (VehicleStatusValues.batteryTemp v))
    (VehicleStatusValues.lastUpdated v).

Definition vehicleHistoryColumns (v : VehicleHistoryValues.t)
    : VehicleHistoryValues.t :=
  VehicleHistoryValues.mk (VehicleHistoryValues.vehicleId v)
    (Numeric.column 2 (VehicleHistoryValues.soc v))
    (Numeric.column 4 (VehicleHistoryValues.kwhDeliveredDc v))
    (Numeric.column 2 (VehicleHistoryValues.batteryTemp v))
    (VehicleHistoryValues.timestamp v).

(** [INSERT ... ON CONFLICT (meter_id) DO UPDATE]: every given column is
    overwritten, [created_at] is set on first insert only. *)
Definition upsertMeterRow (v : MeterStatusValues.t) (now : Z) (t : Tables)
    : Tables :=
  let key := MeterStatusValues.meterId v in
  let stored := meterStatusColumns v in
  let created :=
    match meter_current_status t !! key with
    | Some old => MeterCurrentStatus.createdAt old
    | None => now
    end in
  mkTables
    (<[key := MeterCurrentStatus.mk key
                (MeterStatusValues.kwhConsumedAc stored)
                (MeterStatusValues.voltage stored)
                (MeterStatusValues.lastUpdated stored) created]>
       (meter_current_status t))
    (vehicle_current_status t)
    (meter_telemetry_history t)
    (vehicle_telemetry_history t).

Definition upsertVehicleRow (v : VehicleStatusValues.t) (now : Z)
    (t : Tables) : Tables :=
  let key := VehicleStatusValues.vehicleId v in
  let stored := vehicleStatusColumns v in
  let created :=
    match vehicle_current_status t !! key with
    | Some old => VehicleCurrentStatus.createdAt old
    | None => now
    end in
  mkTables
    (meter_current_status t)
    (<[key := VehicleCurrentStatus.mk key
                (VehicleStatusValues.soc stored)
                (VehicleStatusValues.kwhDeliveredDc stored)
                (VehicleStatusValues.batteryTemp stored)
                (VehicleStatusValues.lastUpdated stored) created]>
       (vehicle_current_status t))
    (meter_telemetry_history t)
    (vehicle_telemetry_history t).

(** History rows get the next values of the sequence, in order. *)
Definition meterHistoryRows (vs : list MeterHistoryValues.t) (seq now : Z)
    : list MeterTelemetryHistory.t :=
  imap (fun i v =>
          let stored := meterHistoryColumns v in
          MeterTelemetryHistory.mk (seq + 1 + Z.of_nat i)
            (MeterHistoryValues.meterId stored)
            (MeterHistoryValues.kwhConsumedAc stored)
            (MeterHistoryValues.voltage stored)
            (MeterHistoryValues.timestamp stored) now) vs.

Definition vehicleHistoryRows (vs : list VehicleHistoryValues.t)
    (seq now : Z) : list VehicleTelemetryHistory.t :=
  imap (fun i v =>
          let stored := vehicleHistoryColumns v in
          VehicleTelemetryHistory.mk (seq + 1 + Z.of_nat i)
            (VehicleHistoryValues.vehicleId stored)
            (VehicleHistoryValues.soc stored)
            (VehicleHistoryValues.kwhDeliveredDc stored)
            (VehicleHistoryValues.batteryTemp stored)
            (VehicleHistoryValues.timestamp stored) now) vs.

Definition appendMeterHistory (rows : list MeterTelemetryHistory.t)
    (t : Tables) : Tables :=
  mkTables (meter_current_status t) (vehicle_current_status t)
           (meter_telemetry_history t ++ rows)
           (vehicle_telemetry_history t).

Definition appendVehicleHistory (rows : list VehicleTelemetryHistory.t)
    (t : Tables) : Tables :=
  mkTables (meter_current_status t) (vehicle_current_status t)
           (meter_telemetry_history t)
           (vehicle_telemetry_history t ++ rows).

Definition applyWrite (write : Write) (t : Tables) : Tables :=
  match write with
  | UpsertMeter v now => upsertMeterRow v now t
  | UpsertVehicle v now => upsertVehicleRow v now t
  | AppendMeter rows => appendMeterHistory rows t
  | AppendVehicle rows => appendVehicleHistory rows t
  end.

(** The writes of a transaction, applied in order. *)
Definition applyAll (writes : list Write) (t : Tables) : Tables :=
  foldl (fun t write => applyWrite write t) t writes.

End Store.

(** ** The query runner (the transactional storage primitive) *)

Module QueryRunner.

(** One call to the driver: it is recorded in the trace, fails when the
    driver refuses it, and otherwise takes effect at the database time of
    the call. *)
Definition call (c : DriverCall) (effect : Z → World → option World)
    : Async unit :=
  fun w =>
    let n := length (trace w) in
    let w1 := log_call c w in
    if faults w n then (Thrown (PersistenceError c), w1)
    else match effect (clock w n) w1 with
         | Some w2 => (Returned tt, w2)
         | None => (Thrown (PersistenceError c), w1)
         end.

Definition connect : Async unit :=
  call Connect (fun _ w => Some w).

(** [START TRANSACTION] opens a transaction on the connection.  On a
    connection that came back from the pool with a transaction still open
    the database only warns, and that transaction goes on. *)
Definition startTransaction : Async unit :=
  call StartTransaction (fun _ w =>
    match tx w with
    | Some _ => Some w
    | None => Some (set_tx (Some []) w)
    end).

Definition commitTransaction : Async unit :=
  call CommitTransaction (fun _ w =>
    match tx w with
    | Some writes => Some (set_tx None (set_db (Store.applyAll writes (db w)) w))
    | None => None
    end).

Definition rollbackTransaction : Async unit :=
  call RollbackTransaction (fun _ w =>
    match tx w with
    | Some _ => Some (set_tx None w)
    | None => None
    end).

(** [release] hands the connection back to the pool as it is; it sends
    nothing to the database, so it has no failure of its own, and a
    transaction still open on the connection stays open. *)
Definition release : Async unit :=
  fun w => (Returned tt, log_call Release w).

(** A statement writes in the open transaction, or directly to the
    committed state when there is none. *)
Definition write (wr : Write) (w : World) : World :=
  match tx w with
  | Some writes => set_tx (Some (writes ++ [wr])) w
  | None => set_db (Store.applyWrite wr (db w)) w
  end.

End QueryRunner.

(** ** [queryRunner.manager]: the statements *)

Module Manager.

Definition upsertMeterCurrentStatus (v : MeterStatusValues.t)
    : Async unit :=
  QueryRunner.call UpsertMeterStatus (fun now w =>
    Some (QueryRunner.write (UpsertMeter v now) w)).

Definition upsertVehicleCurrentStatus (v : VehicleStatusValues.t)
    : Async unit :=
  QueryRunner.call UpsertVehicleStatus (fun now w =>
    Some (QueryRunner.write (UpsertVehicle v now) w)).

Definition insertMeterTelemetryHistory (vs : list MeterHistoryValues.t)
    : Async unit :=
  QueryRunner.call InsertMeterHistory (fun now w =>
    let seq := meter_history_id_seq w in
    Some (set_meter_seq (seq + Z.of_nat (length vs))
            (QueryRunner.write
               (AppendMeter (Store.meterHistoryRows vs seq now)) w))).

Definition insertVehicleTelemetryHistory (vs : list VehicleHistoryValues.t)
    : Async unit :=
  QueryRunner.call InsertVehicleHistory (fun now w =>
    let seq := vehicle_history_id_seq w in
    Some (set_vehicle_seq (seq + Z.of_nat (length vs))
            (QueryRunner.write
               (AppendVehicle (Store.vehicleHistoryRows vs seq now)) w))).

End Manager.

(** ** IngestionService (src/services/ingestion.service.ts) *)

Module IngestionService.
Section WithPlatform.
Context `{Platform}.

Definition meterStatusValues (data : MeterTelemetryDto.t)
    : MeterStatusValues.t :=
  {| MeterStatusValues.meterId := MeterTelemetryDto.meterId data;
     MeterStatusValues.kwhConsumedAc := MeterTelemetryDto.kwhConsumedAc data;
     MeterStatusValues.voltage := MeterTelemetryDto.voltage data;
     MeterStatusValues.lastUpdated :=
       Date_parse (MeterTelemetryDto.timestamp data) |}.

Definition meterHistoryValues (data : MeterTelemetryDto.t)
    : MeterHistoryValues.t :=
  {| MeterHistoryValues.meterId := MeterTelemetryDto.meterId data;
     MeterHistoryValues.kwhConsumedAc := MeterTelemetryDto.kwhConsumedAc data;
     MeterHistoryValues.voltage := MeterTelemetryDto.voltage data;
     MeterHistoryValues.timestamp :=
       Date_parse (MeterTelemetryDto.timestamp data) |}.

Definition vehicleStatusValues (data : VehicleTelemetryDto.t)
    : VehicleStatusValues.t :=
  {| VehicleStatusValues.vehicleId := VehicleTelemetryDto.vehicleId data;
     VehicleStatusValues.soc := VehicleTelemetryDto.soc data;
     VehicleStatusValues.kwhDeliveredDc :=
       VehicleTelemetryDto.kwhDeliveredDc data;
     VehicleStatusValues.batteryTemp := VehicleTelemetryDto.batteryTemp data;
     VehicleStatusValues.lastUpdated :=
       Date_parse (VehicleTelemetryDto.timestamp data) |}.

Definition vehicleHistoryValues (data : VehicleTelemetryDto.t)
    : VehicleHistoryValues.t :=
  {| VehicleHistoryValues.vehicleId := VehicleTelemetryDto.vehicleId data;
     VehicleHistoryValues.soc := VehicleTelemetryDto.soc data;
     VehicleHistoryValues.kwhDeliveredDc :=
       VehicleTelemetryDto.kwhDeliveredDc data;
     VehicleHistoryValues.batteryTemp := VehicleTelemetryDto.batteryTemp data;
     VehicleHistoryValues.timestamp :=
       Date_parse (VehicleTelemetryDto.timestamp data) |}.

Definition ingestMeterTelemetry (data : MeterTelemetryDto.t) : Async unit :=
  QueryRunner.connect ;;
  QueryRunner.startTransaction ;;
  tryCatchFinally
    (Manager.upsertMeterCurrentStatus (meterStatusValues data) ;;
     Manager.insertMeterTelemetryHistory [meterHistoryValues data] ;;
     QueryRunner.commitTransaction)
    (fun error => QueryRunner.rollbackTransaction ;; throw error)
    QueryRunner.release.

Definition ingestVehicleTelemetry (data : VehicleTelemetryDto.t)
    : Async unit :=
  QueryRunner.connect ;;
  QueryRunner.startTransaction ;;
  tryCatchFinally
    (Manager.upsertVehicleCurrentStatus (vehicleStatusValues data) ;;
     Manager.insertVehicleTelemetryHistory [vehicleHistoryValues data] ;;
     QueryRunner.commitTransaction)
    (fun error => QueryRunner.rollbackTransaction ;; throw error)
    QueryRunner.release.

Definition ingestMeterBatch (data : list MeterTelemetryDto.t) : Async unit :=
  if (length data =? 0)%nat then ret tt
  else
    QueryRunner.connect ;;
    QueryRunner.startTransaction ;;
    tryCatchFinally
      (forOf data (fun item =>
         Manager.upsertMeterCurrentStatus (meterStatusValues item)) ;;
       let historyData := map meterHistoryValues data in
       Manager.insertMeterTelemetryHistory historyData ;;
       QueryRunner.commitTransaction)
      (fun error => QueryRunner.rollbackTransaction ;; throw error)
      QueryRunner.release.

Definition ingestVehicleBatch (data : list VehicleTelemetryDto.t)
    : Async unit :=
  if (length data =? 0)%nat then ret tt
  else
    QueryRunner.connect ;;
    QueryRunner.startTransaction ;;
    tryCatchFinally
      (forOf data (fun item =>
         Manager.upsertVehicleCurrentStatus (vehicleStatusValues item)) ;;
       let historyData := map vehicleHistoryValues data in
       Manager.insertVehicleTelemetryHistory historyData ;;
       QueryRunner.commitTransaction)
      (fun error => QueryRunner.rollbackTransaction ;; throw error)
      QueryRunner.release.

End WithPlatform.
End IngestionService.

(** ** DTO validation (the class-validator decorators of src/dtos) *)

Module Validators.
Section WithPlatform.
Context `{Platform}.

Definition IsString (value : JsValue) : bool :=
  match value with JsString _ => true | _ => false end.

(** With the default options [NaN] and the infinities are refused. *)
Definition IsNumber (value : JsValue) : bool :=
  match value with JsNumber _ => true | _ => false end.

(** [typeof value === 'number' && value >= min] *)
Definition Min (min : Q) (value : JsValue) : bool :=
  match value with
  | JsNumber q => Qle_bool min q
  | JsInfinity negative => negb negative
  | _ => false
  end.

(** [typeof value === 'number' && value <= max] *)
Definition Max (max : Q) (value : JsValue) : bool :=
  match value with
  | JsNumber q => Qle_bool q max
  | JsInfinity negative => negative
  | _ => false
  end.

Definition IsDateString (value : JsValue) : bool :=
  match value with JsString s => isISO8601 s | _ => false end.

(** A property is reported when one of its decorators refuses its value. *)
Definition property (name : string) (decorators : list (JsValue → bool))
    (value : JsValue) : list string :=
  if forallb (fun d => d value) decorators then [] else [name].

(** The properties of a [MeterTelemetryDto] that fail validation, in
    declaration order. *)
Definition validateMeterTelemetryDto (data : MeterTelemetryDto.t)
    : list string :=
  property "meterId" [IsString]
    (JsString (MeterTelemetryDto.meterId data)) ++
  property "kwhConsumedAc" [IsNumber; Min 0]
    (JsNumber (MeterTelemetryDto.kwhConsumedAc data)) ++
  property "voltage" [IsNumber; Min 0]
    (JsNumber (MeterTelemetryDto.voltage data)) ++
  property "timestamp" [IsDateString]
    (JsString (MeterTelemetryDto.timestamp data)).

Definition validateVehicleTelemetryDto (data : VehicleTelemetryDto.t)
    : list string :=
  property "vehicleId" [IsString]
    (JsString (VehicleTelemetryDto.vehicleId data)) ++
  property "soc" [IsNumber; Min 0; Max 100]
    (JsNumber (VehicleTelemetryDto.soc data)) ++
  property "kwhDeliveredDc" [IsNumber; Min 0]
    (JsNumber (VehicleTelemetryDto.kwhDeliveredDc data)) ++
  property "batteryTemp" [IsNumber]
    (JsNumber (VehicleTelemetryDto.batteryTemp data)) ++
  property "timestamp" [IsDateString]
    (JsString (VehicleTelemetryDto.timestamp data)).

End WithPlatform.
End Validators.

(** Modelled from the spec: the request pipeline that runs the DTO
    validators in front of a route whose body is declared with a DTO class
    (the bootstrap file that installs it is not among the sources).  A
    record with a violation fails with a [ValidationError] naming the
    offending properties before anything is written. *)
Definition validationPipe {A} (validate : A → list string) (body : A)
    : Async A :=
  match validate body with
  | [] => ret body
  | properties => throw (ValidationError properties)
  end.

(** ** IngestionController (src/controllers/ingestion.controller.ts) *)

Record IngestResponse := mkIngestResponse {
  success : bool;
  message : string;
  count : option nat
}.

Module IngestionController.
Section WithPlatform.
Context `{Platform}.

Definition ingestMeter (data : MeterTelemetryDto.t) : Async IngestResponse :=
  IngestionService.ingestMeterTelemetry data ;;
  ret {| success := true;
         message := "Meter telemetry for " +:+ MeterTelemetryDto.meterId data
                    +:+ " ingested successfully";
         count := None |}.

Definition ingestVehicle (data : VehicleTelemetryDto.t)
    : Async IngestResponse :=
  IngestionService.ingestVehicleTelemetry data ;;
  ret {| success := true;
         message := "Vehicle telemetry for "
                    +:+ VehicleTelemetryDto.vehicleId data
                    +:+ " ingested successfully";
         count := None |}.

Definition ingestMeterBatch (data : list MeterTelemetryDto.t)
    : Async IngestResponse :=
  IngestionService.ingestMeterBatch data ;;
  ret {| success := true;
         message := "Meter telemetry batch ingested successfully";
         count := Some (length data) |}.

Definition ingestVehicleBatch (data : list VehicleTelemetryDto.t)
    : Async IngestResponse :=
  IngestionService.ingestVehicleBatch data ;;
  ret {| success := true;
         message := "Vehicle telemetry batch ingested successfully";
         count := Some (length data) |}.

End WithPlatform.
End IngestionController.

(** ** The four ingest operations as a caller reaches them *)

Inductive IngestRequest :=
| PostMeter (body : MeterTelemetryDto.t)
| PostVehicle (body : VehicleTelemetryDto.t)
| PostMeterBatch (body : list MeterTelemetryDto.t)
| PostVehicleBatch (body : list VehicleTelemetryDto.t).

Section Ingest.
Context `{Platform}.

(** The single-record routes declare their body with the DTO class, so
    the pipeline validates it.  The batch routes declare theirs as an array
    ([MeterTelemetryDto[]], [VehicleTelemetryDto[]]): the element class is
    not known at run time and the elements reach the controller as they
    are sent. *)
Definition ingest (request : IngestRequest) : Async IngestResponse :=
  match request with
  | PostMeter body =>
      data ← validationPipe Validators.validateMeterTelemetryDto body;
      IngestionController.ingestMeter data
  | PostVehicle body =>
      data ← validationPipe Validators.validateVehicleTelemetryDto body;
      IngestionController.ingestVehicle data
  | PostMeterBatch body => IngestionController.ingestMeterBatch body
  | PostVehicleBatch body => IngestionController.ingestVehicleBatch body
  end.

End Ingest.

(** ** Binary64 numbers *)

Module Double.

(** [n / d] divided by [base ^ e], as a fraction of integers. *)
Definition scaled (base n d e : Z) : Z * Z :=
  if 0 <=? e then (n, d * base ^ e) else (n * base ^ (- e), d).

(** [m * base ^ e] *)
Definition times (base m e : Z) : Q :=
  if 0 <=? e then inject_Z (m * base ^ e)
  else (inject_Z m / inject_Z (base ^ (- e)))%Q.

(** The integer nearest to [N / D], a tie going to the even one. *)
Definition roundHalfEven (N D : Z) : Z :=
  let q := N / D in
  let r := N mod D in
  if 2 * r <? D then q
  else if D <? 2 * r then q + 1
  else if Z.even q then q else q + 1.

(** The 53-bit significand of [n / d] at the exponent [e], when [e] is
    the exponent of [n / d], that is [2^52 <= (n / d) / 2^e < 2^53]. *)
Definition significand (n d e : Z) : option Z :=
  let '(N, D) := scaled 2 n d e in
  if (2 ^ 52 * D <=? N) && (N <? 2 ^ 53 * D)
  then Some (roundHalfEven N D) else None.

(** The binary64 number nearest to [n / d], for positive [n] and [d].
    The exponent is [log2 n - log2 d - 52] or one less (one of the two
    always fits).  The range of the exponent is not bounded: the numbers
    of the service are far from the largest and the smallest binary64
    numbers. *)
Definition nearest (n d : Z) : Q :=
  let e := Z.log2 n - Z.log2 d - 52 in
  match significand n d e with
  | Some m => times 2 m e
  | None =>
      match significand n d (e - 1) with
      | Some m => times 2 m (e - 1)
      | None => (inject_Z n / inject_Z d)%Q
      end
  end.

(** The binary64 number that a decimal (or any rational) denotes: the
    nearest one, a tie going to the even significand. *)
Definition toDouble (x : Q) : Q :=
  let x := Qred x in
  Qred match Qnum x with
       | 0 => 0%Q
       | Z.pos n => nearest (Z.pos n) (Z.pos (Qden x))
       | Z.neg n => (- nearest (Z.pos n) (Z.pos (Qden x)))%Q
       end.

(** The multiple of [10 ^ j] that denotes the positive binary64 number
    [x], if there is one: the multiple just below [x] or the one just
    above, and the nearer of the two when both do. *)
Definition candidate (x : Q) (j : Z) : option Q :=
  let '(N, D) := scaled 10 (Qnum x) (Z.pos (Qden x)) j in
  let lo := N / D in
  let r := N mod D in
  let below := Qred (times 10 lo j) in
  let above := Qred (times 10 (lo + 1) j) in
  let fits v := Qeq_bool (toDouble v) x in
  let upper :=
    if 2 * r <? D then false else if D <? 2 * r then true else Z.odd lo in
  match fits below, fits above with
  | true, true => Some (if upper then above else below)
  | true, false => Some below
  | false, true => Some above
  | false, false => None
  end.

(** The search goes down from a power of ten above [x]; the first hit has
    the fewest significant digits. *)
Fixpoint search (x : Q) (j : Z) (fuel : nat) : Q :=
  match fuel with
  | O => x
  | S fuel =>
      match candidate x j with
      | Some v => v
      | None => search x (j - 1) fuel
      end
  end.

Definition shortestPos (x : Q) : Q :=
  let bits := Z.log2 (Qnum x) - Z.log2 (Z.pos (Qden x)) in
  search x ((bits + 1) * 30103 / 100000 + 2) 24.

(** [Number::toString], read back as a rational: the decimal with the
    fewest significant digits that denotes the binary64 number [x]. *)
Definition shortest (x : Q) : Q :=
  let x := Qred x in
  match Qnum x with
  | 0 => 0%Q
  | Z.pos _ => shortestPos x
  | Z.neg _ => Qred (- shortestPos (Qred (- x)))%Q
  end.

(** A number of the program is written as the decimal that JavaScript
    prints for it.  The number that a decimal literal or a numeric
    string denotes, and the two operations of the service: *)
Definition ofDecimal (x : Q) : Q := shortest (toDouble x).

Definition mul (a b : Q) : Q :=
  shortest (toDouble (toDouble a * toDouble b)).

Definition div (a b : Q) : Q :=
  shortest (toDouble (toDouble a / toDouble b)).

End Double.

(** ** AnalyticsService (src/services/analytics.service.ts) *)

Module AnalyticsService.

(** [timestamp >= :start AND timestamp <= :end] *)
Definition inWindow (start end_ : Z) (timestamp : JsDate) : bool :=
  match timestamp with
  | Some t => (start <=? t) && (t <=? end_)
  | None => false
  end.

Definition sumQ (values : list Q) : Q := foldr Qplus 0%Q values.

(** SQL aggregates: [SUM] and [AVG] are NULL over no rows.  (The
    database returns the quotient of [AVG] to sixteen significant digits
    or more; it is kept exact here.) *)
Definition SUM (values : list Q) : option Q :=
  match values with
  | [] => None
  | _ => Some (sumQ values)
  end.

Definition AVG (values : list Q) : option Q :=
  match values with
  | [] => None
  | _ => Some (sumQ values / inject_Z (Z.of_nat (length values)))%Q
  end.

Record VehicleRaw := mkVehicleRaw {
  totalDc : option Q;
  avgTemp : option Q;
  count : nat
}.

Definition vehicleRows (vehicleId : string) (start end_ : Z) (t : Tables)
    : list VehicleTelemetryHistory.t :=
  filter (fun v =>
            VehicleTelemetryHistory.vehicleId v = vehicleId ∧
            inWindow start end_ (VehicleTelemetryHistory.timestamp v) = true)
         (vehicle_telemetry_history t).

Definition meterRows (meterId : string) (start end_ : Z) (t : Tables)
    : list MeterTelemetryHistory.t :=
  filter (fun m =>
            MeterTelemetryHistory.meterId m = meterId ∧
            inWindow start end_ (MeterTelemetryHistory.timestamp m) = true)
         (meter_telemetry_history t).

Definition vehicleQuery (vehicleId : string) (start end_ : Z) (t : Tables)
    : VehicleRaw :=
  let rows := vehicleRows vehicleId start end_ t in
  {| totalDc := SUM (map VehicleTelemetryHistory.kwhDeliveredDc rows);
     avgTemp := AVG (map VehicleTelemetryHistory.batteryTemp rows);
     count := length rows |}.

Definition meterQuery (meterId : string) (start end_ : Z) (t : Tables)
    : option Q :=
  SUM (map MeterTelemetryHistory.kwhConsumedAc
         (meterRows meterId start end_ t)).

(** [parseFloat(x) || 0]: the aggregate comes back as a numeric string,
    which denotes a number; NULL parses to [NaN], and [NaN] and [0] are
    both falsy. *)
Definition parseFloat_or_0 (x : option Q) : Q :=
  match x with
  | Some q =>
      let number := Double.ofDecimal q in
      if Qeq_bool number 0 then 0%Q else number
  | None => 0%Q
  end.

(** [Math.round]: the integer nearest to the number, a tie going up. *)
Definition Math_round (x : Q) : Z := Qfloor (Double.toDouble x + (1 # 2))%Q.

Definition calculateHealthStatus (efficiency : Q) (dataPoints : Z)
    : string :=
  if dataPoints <? 10 then "INSUFFICIENT_DATA"
  else if Qle_bool 0.9 efficiency then "EXCELLENT"
  else if Qle_bool 0.85 efficiency then "NORMAL"
  else if Qle_bool 0.75 efficiency then "WARNING"
  else "CRITICAL".

Definition getVehiclePerformance (now : Z) (vehicleId : string) (t : Tables)
    : Outcome VehiclePerformanceAnalyticsDto.t :=
  let oneDayAgo := now - 24 * 60 * 60 * 1000 in
  let vehicleData := vehicleQuery vehicleId oneDayAgo now t in
  if (count vehicleData =? 0)%nat then
    Thrown (NotFoundException
              ("No data found for vehicle " +:+ vehicleId
               +:+ " in the last 24 hours"))
  else
    let meterId := vehicleId in
    let meterData := meterQuery meterId oneDayAgo now t in
    let totalEnergyDeliveredDc := parseFloat_or_0 (totalDc vehicleData) in
    let totalEnergyConsumedAc := parseFloat_or_0 meterData in
    let avgBatteryTemp := parseFloat_or_0 (avgTemp vehicleData) in
    let dataPointsAnalyzed := Z.of_nat (count vehicleData) in
    let efficiencyRatio :=
      if Qlt_le_dec 0 totalEnergyConsumedAc
      then Double.div totalEnergyDeliveredDc totalEnergyConsumedAc
      else 0%Q in
    let healthStatus :=
      calculateHealthStatus efficiencyRatio dataPointsAnalyzed in
    Returned
      {| VehiclePerformanceAnalyticsDto.vehicleId := vehicleId;
         VehiclePerformanceAnalyticsDto.periodStart := oneDayAgo;
         VehiclePerformanceAnalyticsDto.periodEnd := now;
         VehiclePerformanceAnalyticsDto.totalEnergyConsumedAc :=
           totalEnergyConsumedAc;
         VehiclePerformanceAnalyticsDto.totalEnergyDeliveredDc :=
           totalEnergyDeliveredDc;
         VehiclePerformanceAnalyticsDto.efficiencyRatio :=
           Double.div
             (inject_Z (Math_round (Double.mul efficiencyRatio 10000)))
             10000;
         VehiclePerformanceAnalyticsDto.avgBatteryTemp :=
           Double.div
             (inject_Z (Math_round (Double.mul avgBatteryTemp 100))) 100;
         VehiclePerformanceAnalyticsDto.dataPointsAnalyzed :=
           dataPointsAnalyzed;
         VehiclePerformanceAnalyticsDto.healthStatus := healthStatus |}.

End AnalyticsService.

(** * Observations and specification-level notions *)

(** What a caller observes of the stores. *)

Definition meterCurrentState (w : World) (meterId : string)
    : option MeterCurrentStatus.t :=
  meter_current_status (db w) !! meterId.

Definition vehicleCurrentState (w : World) (vehicleId : string)
    : option VehicleCurrentStatus.t :=
  vehicle_current_status (db w) !! vehicleId.

Definition meterHistoryCount (w : World) (meterId : string) : nat :=
  length (filter (fun h => MeterTelemetryHistory.meterId h = meterId)
                 (meter_telemetry_history (db w))).

Definition vehicleHistoryCount (w : World) (vehicleId : string) : nat :=
  length (filter (fun h => VehicleTelemetryHistory.vehicleId h = vehicleId)
                 (vehicle_telemetry_history (db w))).

(** A history entry counts for a device and a window when it carries that
    device identifier and a timestamp between the two ends, both included. *)
Definition vehicleReadingIn (vehicleId : string) (start end_ : Z)
    (h : VehicleTelemetryHistory.t) : Prop :=
  VehicleTelemetryHistory.vehicleId h = vehicleId ∧
  ∃ ts, VehicleTelemetryHistory.timestamp h = Some ts ∧ start ≤ ts ≤ end_.

Definition meterReadingIn (meterId : string) (start end_ : Z)
    (m : MeterTelemetryHistory.t) : Prop :=
  MeterTelemetryHistory.meterId m = meterId ∧
  ∃ ts, MeterTelemetryHistory.timestamp m = Some ts ∧ start ≤ ts ≤ end_.

#[global] Instance vehicleReadingIn_dec vehicleId start end_ h :
  Decision (vehicleReadingIn vehicleId start end_ h).
Proof.
  unfold vehicleReadingIn.
  destruct (VehicleTelemetryHistory.timestamp h) as [ts|].
  - destruct (decide (VehicleTelemetryHistory.vehicleId h = vehicleId ∧
                      start ≤ ts ≤ end_)) as [Hyes|Hno].
    + left. split; [tauto|]. exists ts. tauto.
    + right. intros (Hid & ts' & [= <-] & Hts). tauto.
  - right. by intros (_ & ts & ? & _).
Defined.

#[global] Instance meterReadingIn_dec meterId start end_ m :
  Decision (meterReadingIn meterId start end_ m).
Proof.
  unfold meterReadingIn.
  destruct (MeterTelemetryHistory.timestamp m) as [ts|].
  - destruct (decide (MeterTelemetryHistory.meterId m = meterId ∧
                      start ≤ ts ≤ end_)) as [Hyes|Hno].
    + left. split; [tauto|]. exists ts. tauto.
    + right. intros (Hid & ts' & [= <-] & Hts). tauto.
  - right. by intros (_ & ts & ? & _).
Defined.

(** [r] is [x] rounded to [places] decimal places: a multiple of
    [10^-places] at distance at most half a unit from [x]. *)
Definition rounded_to (places : Z) (x r : Q) : Prop :=
  (∃ k : Z, r == inject_Z k / inject_Z (10 ^ places))%Q ∧
  (Qabs (r - x) <= 1 / inject_Z (2 * 10 ^ places))%Q.

(** The unit roundoff of binary64 arithmetic, [2^-53]. *)
Definition roundoff : Q := 1 # 9007199254740992.

(** [x] is [y] up to the relative error [e]. *)
Definition near (e x y : Q) : Prop :=
  ∃ t, (x == y * t ∧ 1 - e <= t ∧ t <= 1 + e)%Q.

(** [r] is [x] rounded to [places] decimal places as binary64 arithmetic
    does it: a multiple of [10^-places] at distance at most half a unit
    from [x], up to the rounding error of the arithmetic ([2^-49] of
    [x]). *)
Definition rounded_nearly (places : Z) (x r : Q) : Prop :=
  (∃ k : Z, r == inject_Z k / inject_Z (10 ^ places))%Q ∧
  (Qabs (r - x) <=
     1 / inject_Z (2 * 10 ^ places) + Qabs x * (1 # 562949953421312))%Q.

Definition notFoundMessage (vehicleId : string) : string :=
  "No data found for vehicle " +:+ vehicleId +:+ " in the last 24 hours".

(** The observation instants of the scenario: [T, T+1min, ..., T+9min]. *)
Definition scenarioInstants (T : Z) : list JsDate :=
  map (fun i => Some (T + 60000 * Z.of_nat i)) (seq 0 10).

(** The writes of the transaction open on the connection, if any. *)
Definition pending (w : World) : list Write := default [] (tx w).

(** A statement of an open transaction leaves the committed state alone
    and the transaction open, whether it succeeds or not. *)
Definition keepsCommitted {A} (m : Async A) : Prop :=
  ∀ w r w', m w = (r, w') → is_Some (tx w) →
    db w' = db w ∧ is_Some (tx w').

(** The body of a transaction either throws with the committed state
    untouched, or returns. *)
Definition commitsOrKeeps (m : Async unit) : Prop :=
  ∀ w e w', m w = (Thrown e, w') → is_Some (tx w) → db w' = db w.

(** The shape shared by the four service methods. *)
Definition transaction (body : Async unit) : Async unit :=
  QueryRunner.connect ;;
  QueryRunner.startTransaction ;;
  tryCatchFinally body
    (fun error => QueryRunner.rollbackTransaction ;; throw error)
    QueryRunner.release.

(** A Current-State row holds a record exactly: same identifier, same
    field values, and the record's own observation instant as
    [lastUpdated]. *)
Definition meterRowHolds `{Platform} (data : MeterTelemetryDto.t)
    (row : MeterCurrentStatus.t) : Prop :=
  MeterCurrentStatus.meterId row = MeterTelemetryDto.meterId data ∧
  MeterCurrentStatus.kwhConsumedAc row =
    MeterTelemetryDto.kwhConsumedAc data ∧
  MeterCurrentStatus.voltage row = MeterTelemetryDto.voltage data ∧
  MeterCurrentStatus.lastUpdated row =
    Date_parse (MeterTelemetryDto.timestamp data).

Definition vehicleRowHolds `{Platform} (data : VehicleTelemetryDto.t)
    (row : VehicleCurrentStatus.t) : Prop :=
  VehicleCurrentStatus.vehicleId row = VehicleTelemetryDto.vehicleId data ∧
  VehicleCurrentStatus.soc row = VehicleTelemetryDto.soc data ∧
  VehicleCurrentStatus.kwhDeliveredDc row =
    VehicleTelemetryDto.kwhDeliveredDc data ∧
  VehicleCurrentStatus.batteryTemp row =
    VehicleTelemetryDto.batteryTemp data ∧
  VehicleCurrentStatus.lastUpdated row =
    Date_parse (VehicleTelemetryDto.timestamp data).

(** A Current-State row stores a record: the record's identifier, its
    numbers as the columns keep them (two decimal places for [voltage],
    [soc] and [batteryTemp], four for the energies), and the record's own
    observation instant as [lastUpdated]. *)
Definition meterRowStores `{Platform} (data : MeterTelemetryDto.t)
    (row : MeterCurrentStatus.t) : Prop :=
  MeterCurrentStatus.meterId row = MeterTelemetryDto.meterId data ∧
  MeterCurrentStatus.kwhConsumedAc row =
    Numeric.column 4 (MeterTelemetryDto.kwhConsumedAc data) ∧
  MeterCurrentStatus.voltage row =
    Numeric.column 2 (MeterTelemetryDto.voltage data) ∧
  MeterCurrentStatus.lastUpdated row =
    Date_parse (MeterTelemetryDto.timestamp data).

Definition vehicleRowStores `{Platform} (data : VehicleTelemetryDto.t)
    (row : VehicleCurrentStatus.t) : Prop :=
  VehicleCurrentStatus.vehicleId row = VehicleTelemetryDto.vehicleId data ∧
  VehicleCurrentStatus.soc row =
    Numeric.column 2 (VehicleTelemetryDto.soc data) ∧
  VehicleCurrentStatus.kwhDeliveredDc row =
    Numeric.column 4 (VehicleTelemetryDto.kwhDeliveredDc data) ∧
  VehicleCurrentStatus.batteryTemp row =
    Numeric.column 2 (VehicleTelemetryDto.batteryTemp data) ∧
  VehicleCurrentStatus.lastUpdated row =
    Date_parse (VehicleTelemetryDto.timestamp data).

(** The service method behind a request, called without the route and its
    validation in front. *)
Definition callService `{Platform} (request : IngestRequest) : Async unit :=
  match request with
  | PostMeter data => IngestionService.ingestMeterTelemetry data
  | PostVehicle data => IngestionService.ingestVehicleTelemetry data
  | PostMeterBatch data => IngestionService.ingestMeterBatch data
  | PostVehicleBatch data => IngestionService.ingestVehicleBatch data
  end.

(** An ingest operation, reached through its route or called directly,
    fails with [e] (resp. succeeds) and leaves the world [w']. *)
Definition ingestFails `{Platform} (request : IngestRequest) (w : World)
    (e : Exception) (w' : World) : Prop :=
  ingest request w = (Thrown e, w') ∨ callService request w = (Thrown e, w').

Definition ingestSucceeds `{Platform} (request : IngestRequest)
    (w w' : World) : Prop :=
  (∃ response, ingest request w = (Returned response, w')) ∨
  callService request w = (Returned tt, w').

(** Two history entries are duplicates when they carry the same record
    under two different surrogate identifiers. *)
Definition duplicateMeterEntries (h1 h2 : MeterTelemetryHistory.t) : Prop :=
  MeterTelemetryHistory.id h1 ≠ MeterTelemetryHistory.id h2 ∧
  MeterTelemetryHistory.meterId h1 = MeterTelemetryHistory.meterId h2 ∧
  MeterTelemetryHistory.kwhConsumedAc h1 =
    MeterTelemetryHistory.kwhConsumedAc h2 ∧
  MeterTelemetryHistory.voltage h1 = MeterTelemetryHistory.voltage h2 ∧
  MeterTelemetryHistory.timestamp h1 = MeterTelemetryHistory.timestamp h2.

Definition duplicateVehicleEntries (h1 h2 : VehicleTelemetryHistory.t)
    : Prop :=
  VehicleTelemetryHistory.id h1 ≠ VehicleTelemetryHistory.id h2 ∧
  VehicleTelemetryHistory.vehicleId h1 = VehicleTelemetryHistory.vehicleId h2 ∧
  VehicleTelemetryHistory.soc h1 = VehicleTelemetryHistory.soc h2 ∧
  VehicleTelemetryHistory.kwhDeliveredDc h1 =
    VehicleTelemetryHistory.kwhDeliveredDc h2 ∧
  VehicleTelemetryHistory.batteryTemp h1 =
    VehicleTelemetryHistory.batteryTemp h2 ∧
  VehicleTelemetryHistory.timestamp h1 = VehicleTelemetryHistory.timestamp h2.

(** The violations that the DTO decorators catch, by offending field. *)
Definition meterViolation `{Platform} (data : MeterTelemetryDto.t)
    (field : string) : Prop :=
  (field = "kwhConsumedAc" ∧ (MeterTelemetryDto.kwhConsumedAc data < 0)%Q) ∨
  (field = "voltage" ∧ (MeterTelemetryDto.voltage data < 0)%Q) ∨
  (field = "timestamp" ∧ isISO8601 (MeterTelemetryDto.timestamp data) = false).

Definition vehicleViolation `{Platform} (data : VehicleTelemetryDto.t)
    (field : string) : Prop :=
  (field = "soc" ∧ ((VehicleTelemetryDto.soc data < 0)%Q ∨
                    (100 < VehicleTelemetryDto.soc data)%Q)) ∨
  (field = "kwhDeliveredDc" ∧
     (VehicleTelemetryDto.kwhDeliveredDc data < 0)%Q) ∨
  (field = "timestamp" ∧
     isISO8601 (VehicleTelemetryDto.timestamp data) = false).

(** ** Sequences of calls, committed effects, driver traces *)

(** The records a request carries, by device class. *)
Definition meterRecords (request : IngestRequest) : list MeterTelemetryDto.t :=
  match request with
  | PostMeter data => [data]
  | PostMeterBatch data => data
  | _ => []
  end.

Definition vehicleRecords (request : IngestRequest)
    : list VehicleTelemetryDto.t :=
  match request with
  | PostVehicle data => [data]
  | PostVehicleBatch data => data
  | _ => []
  end.

(** A sequence of service calls, one after the other on the same world,
    whatever each one's outcome; the result lists the calls that returned. *)
Fixpoint callEach `{Platform} (requests : list IngestRequest) (w : World)
    : list IngestRequest * World :=
  match requests with
  | [] => ([], w)
  | request :: rest =>
      match callService request w with
      | (Returned _, w1) =>
          let '(accepted, w2) := callEach rest w1 in (request :: accepted, w2)
      | (Thrown _, w1) => callEach rest w1
      end
  end.

(** The Current-State row that an upsert of [data] writes, given the
    creation time the row ends with. *)
Definition meterRowOf `{Platform} (data : MeterTelemetryDto.t) (created : Z)
    : MeterCurrentStatus.t :=
  MeterCurrentStatus.mk (MeterTelemetryDto.meterId data)
    (Numeric.column 4 (MeterTelemetryDto.kwhConsumedAc data))
    (Numeric.column 2 (MeterTelemetryDto.voltage data))
    (Date_parse (MeterTelemetryDto.timestamp data)) created.

Definition vehicleRowOf `{Platform} (data : VehicleTelemetryDto.t)
    (created : Z) : VehicleCurrentStatus.t :=
  VehicleCurrentStatus.mk (VehicleTelemetryDto.vehicleId data)
    (Numeric.column 2 (VehicleTelemetryDto.soc data))
    (Numeric.column 4 (VehicleTelemetryDto.kwhDeliveredDc data))
    (Numeric.column 2 (VehicleTelemetryDto.batteryTemp data))
    (Date_parse (VehicleTelemetryDto.timestamp data)) created.

(** The effect of a list of upserts, each at its own database time, on a
    current-status table. *)
Definition upsertMeterMap `{Platform} (items : list (MeterTelemetryDto.t * Z))
    (m : gmap string MeterCurrentStatus.t) : gmap string MeterCurrentStatus.t :=
  foldl (fun m item =>
           let key := MeterTelemetryDto.meterId item.1 in
           <[key := meterRowOf item.1
                      match m !! key with
                      | Some old => MeterCurrentStatus.createdAt old
                      | None => item.2
                      end]> m)
        m items.

Definition upsertVehicleMap `{Platform}
    (items : list (VehicleTelemetryDto.t * Z))
    (m : gmap string VehicleCurrentStatus.t)
    : gmap string VehicleCurrentStatus.t :=
  foldl (fun m item =>
           let key := VehicleTelemetryDto.vehicleId item.1 in
           <[key := vehicleRowOf item.1
                      match m !! key with
                      | Some old => VehicleCurrentStatus.createdAt old
                      | None => item.2
                      end]> m)
        m items.

(** The record that a history entry carries. *)
Definition meterEntryValues (h : MeterTelemetryHistory.t)
    : MeterHistoryValues.t :=
  MeterHistoryValues.mk (MeterTelemetryHistory.meterId h)
    (MeterTelemetryHistory.kwhConsumedAc h) (MeterTelemetryHistory.voltage h)
    (MeterTelemetryHistory.timestamp h).

Definition vehicleEntryValues (h : VehicleTelemetryHistory.t)
    : VehicleHistoryValues.t :=
  VehicleHistoryValues.mk (VehicleTelemetryHistory.vehicleId h)
    (VehicleTelemetryHistory.soc h) (VehicleTelemetryHistory.kwhDeliveredDc h)
    (VehicleTelemetryHistory.batteryTemp h)
    (VehicleTelemetryHistory.timestamp h).

(** The record as its history entry carries it: the numbers as the
    columns keep them (two decimal places for [voltage], [soc] and
    [batteryTemp], four for the energies) and the record's own
    observation instant. *)
Definition storedMeter `{Platform} (data : MeterTelemetryDto.t)
    : MeterHistoryValues.t :=
  MeterHistoryValues.mk (MeterTelemetryDto.meterId data)
    (Numeric.column 4 (MeterTelemetryDto.kwhConsumedAc data))
    (Numeric.column 2 (MeterTelemetryDto.voltage data))
    (Date_parse (MeterTelemetryDto.timestamp data)).

Definition storedVehicle `{Platform} (data : VehicleTelemetryDto.t)
    : VehicleHistoryValues.t :=
  VehicleHistoryValues.mk (VehicleTelemetryDto.vehicleId data)
    (Numeric.column 2 (VehicleTelemetryDto.soc data))
    (Numeric.column 4 (VehicleTelemetryDto.kwhDeliveredDc data))
    (Numeric.column 2 (VehicleTelemetryDto.batteryTemp data))
    (Date_parse (VehicleTelemetryDto.timestamp data)).

(** What a list of accepted records leaves in the committed tables: the
    upserts in order on the two current-status tables, the entries in order
    at the end of the two history tables. *)
Definition committedBy `{Platform} (meters : list MeterTelemetryDto.t)
    (vehicles : list VehicleTelemetryDto.t) (t t' : Tables) : Prop :=
  (∃ items, map fst items = meters ∧
     meter_current_status t' = upsertMeterMap items (meter_current_status t)) ∧
  (∃ items, map fst items = vehicles ∧
     vehicle_current_status t' =
       upsertVehicleMap items (vehicle_current_status t)) ∧
  (∃ entries, meter_telemetry_history t' = meter_telemetry_history t ++ entries ∧
     map meterEntryValues entries = map storedMeter meters) ∧
  (∃ entries,
     vehicle_telemetry_history t' = vehicle_telemetry_history t ++ entries ∧
     map vehicleEntryValues entries = map storedVehicle vehicles).

(** The statements a service method sends inside its transaction. *)
Definition statementsOf (request : IngestRequest) : list DriverCall :=
  match request with
  | PostMeter _ => [UpsertMeterStatus; InsertMeterHistory]
  | PostVehicle _ => [UpsertVehicleStatus; InsertVehicleHistory]
  | PostMeterBatch data =>
      replicate (length data) UpsertMeterStatus ++ [InsertMeterHistory]
  | PostVehicleBatch data =>
      replicate (length data) UpsertVehicleStatus ++ [InsertVehicleHistory]
  end.

(** Every request but an empty batch gets a query runner. *)
Definition opensTransaction (request : IngestRequest) : bool :=
  match request with
  | PostMeterBatch [] | PostVehicleBatch [] => false
  | _ => true
  end.

(** The writes that the statements of a service method make: one upsert
    per record, in order, then the history rows of all the records. *)
Definition meterWrites `{Platform} (records : list MeterTelemetryDto.t)
    (writes : list Write) : Prop :=
  ∃ items rows,
    map fst items = records ∧
    writes =
      map (fun item =>
             UpsertMeter (IngestionService.meterStatusValues item.1) item.2)
          items ++ [AppendMeter rows] ∧
    map meterEntryValues rows = map storedMeter records.

Definition vehicleWrites `{Platform} (records : list VehicleTelemetryDto.t)
    (writes : list Write) : Prop :=
  ∃ items rows,
    map fst items = records ∧
    writes =
      map (fun item =>
             UpsertVehicle (IngestionService.vehicleStatusValues item.1)
                           item.2)
          items ++ [AppendVehicle rows] ∧
    map vehicleEntryValues rows = map storedVehicle records.

Definition writesOf `{Platform} (request : IngestRequest)
    (writes : list Write) : Prop :=
  match request with
  | PostMeter data => meterWrites [data] writes
  | PostVehicle data => vehicleWrites [data] writes
  | PostMeterBatch data => meterWrites data writes
  | PostVehicleBatch data => vehicleWrites data writes
  end.

(** A block of statements of an open transaction sends the calls [calls] in
    order and stops at the first one that the driver refuses, throwing its
    error; the committed state is left alone, and the writes of the
    statements that ran are added to the transaction. *)
Definition runsStatements (m : Async unit) (calls : list DriverCall)
    (made : list Write → Prop) : Prop :=
  ∀ w p r w', m w = (r, w') → tx w = Some p →
    faults w' = faults w ∧ db w' = db w ∧
    ∃ sent writes, trace w' = trace w ++ sent ∧ tx w' = Some (p ++ writes) ∧
      match r with
      | Returned _ => sent = calls ∧ made writes
      | Thrown e =>
          ∃ k c, sent = take (S k) calls ∧ calls !! k = Some c ∧
                 e = PersistenceError c ∧
                 faults w (length (trace w) + k) = true
      end.

(** The same for a block that ends with the commit: when the block returns
    the transaction is closed and all its writes are in the committed
    state; when it throws the transaction is still open and the committed
    state as before. *)
Definition runsBody (m : Async unit) (calls : list DriverCall)
    (made : list Write → Prop) : Prop :=
  ∀ w p r w', m w = (r, w') → tx w = Some p →
    faults w' = faults w ∧
    ∃ sent, trace w' = trace w ++ sent ∧
      match r with
      | Returned _ =>
          sent = calls ∧ tx w' = None ∧
          ∃ writes, made writes ∧ db w' = Store.applyAll (p ++ writes) (db w)
      | Thrown e =>
          db w' = db w ∧ (∃ writes, tx w' = Some (p ++ writes)) ∧
          ∃ k c, sent = take (S k) calls ∧ calls !! k = Some c ∧
                 e = PersistenceError c ∧
                 faults w (length (trace w) + k) = true
      end.

(** No rollback sent between two worlds was refused. *)
Definition rollbacksSucceed (w w' : World) : Prop :=
  ∀ n, (length (trace w) ≤ n)%nat →
       trace w' !! n = Some RollbackTransaction → faults w n = false.

(** A date is an instant between two ends, both included. *)
Definition instantWithin (start end_ : Z) (date : JsDate) : Prop :=
  match date with
  | Some ts => start ≤ ts ∧ ts ≤ end_
  | None => False
  end.

#[global] Instance instantWithin_dec start end_ date :
  Decision (instantWithin start end_ date).
Proof. destruct date; cbn; apply _. Defined.

(** The accepted vehicle records of a device whose timestamp is an instant
    of the day before [now]. *)
Definition acceptedInWindow `{Platform} (now : Z) (vehicleId : string)
    (records : list VehicleTelemetryDto.t) : list VehicleTelemetryDto.t :=
  filter (fun d =>
            VehicleTelemetryDto.vehicleId d = vehicleId ∧
            instantWithin (now - 86400000) now
              (Date_parse (VehicleTelemetryDto.timestamp d)))
         records.

(** The columns of a Current-State row that the service writes. *)
Definition meterStatusOf (row : MeterCurrentStatus.t) : MeterStatusValues.t :=
  MeterStatusValues.mk (MeterCurrentStatus.meterId row)
    (MeterCurrentStatus.kwhConsumedAc row) (MeterCurrentStatus.voltage row)
    (MeterCurrentStatus.lastUpdated row).

Definition vehicleStatusOf (row : VehicleCurrentStatus.t)
    : VehicleStatusValues.t :=
  VehicleStatusValues.mk (VehicleCurrentStatus.vehicleId row)
    (VehicleCurrentStatus.soc row) (VehicleCurrentStatus.kwhDeliveredDc row)
    (VehicleCurrentStatus.batteryTemp row)
    (VehicleCurrentStatus.lastUpdated row).

(** ** Fixtures: a concrete platform, worlds and records *)

(** 2024-02-08T10:30:00Z in epoch milliseconds. *)
Definition scenarioT : Z := 1707388200000.

Definition scenarioTimestamp (minute : nat) : string :=
  "2024-02-08T10:3" +:+ String (Ascii.ascii_of_nat (48 + minute)) ":00Z".

(** The timestamps [10:30:00Z .. 10:39:00Z] of that day and their
    instants. *)
Definition fixtureCalendar : list (string * Z) :=
  map (fun i => (scenarioTimestamp i, scenarioT + 60000 * Z.of_nat i))
      (seq 0 10).

Fixpoint lookupInstant (s : string) (calendar : list (string * Z))
    : option Z :=
  match calendar with
  | [] => None
  | (k, v) :: rest => if String.eqb s k then Some v else lookupInstant s rest
  end.

(** An ISO 8601 week date: the validation library takes it for a date
    string, the date parser of the engine does not read it. *)
Definition weekDate : string := "2024-W06-4".

(** A platform that knows the timestamps of the calendar and the week
    date, and refuses every other string. *)
Definition fixturePlatform : Platform :=
  {| isISO8601 := fun s =>
       if String.eqb s weekDate then true
       else match lookupInstant s fixtureCalendar with
            | Some _ => true
            | None => false
            end;
     Date_parse := fun s => lookupInstant s fixtureCalendar |}.

(** An empty database, no fault, the database clock standing at
    [T + 10min]. *)
Definition fixtureWorld : World :=
  mkWorld emptyTables None 0 0 [] (fun _ => false) (fun _ => 1707388800000).

(** The same world with the driver call number [failing] failing. *)
Definition withFaultAt (failing : nat) (w : World) : World :=
  mkWorld (db w) (tx w) (meter_history_id_seq w) (vehicle_history_id_seq w)
          (trace w) (fun n => Nat.eqb n failing) (clock w).

Definition vehicleRecord (minute : nat) : VehicleTelemetryDto.t :=
  VehicleTelemetryDto.mk "V-1" 85.5 105.2134 32.5 (scenarioTimestamp minute).

Definition meterRecord (minute : nat) : MeterTelemetryDto.t :=
  MeterTelemetryDto.mk "V-1" 125.5432 240.5 (scenarioTimestamp minute).

Definition emptyIdentifierMeter : MeterTelemetryDto.t :=
  MeterTelemetryDto.mk "" 125.5432 240.5 (scenarioTimestamp 0).

Definition negativeVoltageMeter : MeterTelemetryDto.t :=
  MeterTelemetryDto.mk "METER-101" 125.5 (-1) (scenarioTimestamp 0).

Definition overchargedVehicle : VehicleTelemetryDto.t :=
  VehicleTelemetryDto.mk "V-1" 100.5 105.2134 32.5 (scenarioTimestamp 0).

Definition weekDateMeter : MeterTelemetryDto.t :=
  MeterTelemetryDto.mk "METER-7" 125.5 240.5 weekDate.

(** A state of charge with three decimals: the column keeps two. *)
Definition roundedSocVehicle : VehicleTelemetryDto.t :=
  VehicleTelemetryDto.mk "V-9" 50.005 20 25 (scenarioTimestamp 0).

Definition ingestAll (requests : list IngestRequest) (w : World) : World :=
  foldl (fun w request => (@ingest fixturePlatform request w).2) w requests.

(** The end-to-end scenario: ten vehicle and ten meter records for V-1,
    one a minute from [T], ingested one by one. *)
Definition scenarioWorld : World :=
  ingestAll (map (fun i => PostVehicle (vehicleRecord i)) (seq 0 10) ++
             map (fun i => PostMeter (meterRecord i)) (seq 0 10))
            fixtureWorld.

(** One meter record ingested. *)
Definition oneMeterWorld : World :=
  ingestAll [PostMeter (meterRecord 0)] fixtureWorld.

(** One vehicle record ingested and no meter record. *)
Definition oneVehicleWorld : World :=
  ingestAll [PostVehicle (vehicleRecord 0)] fixtureWorld.

(** A batch of two records for V-1 ingested. *)
Definition batchMeterWorld : World :=
  ingestAll [PostMeterBatch [meterRecord 1; meterRecord 2]] fixtureWorld.

(** A batch of two vehicle records for V-1 ingested. *)
Definition batchVehicleWorld : World :=
  ingestAll [PostVehicleBatch [vehicleRecord 1; vehicleRecord 2]]
            fixtureWorld.

(** The same record ingested a second time. *)
Definition twiceMeterWorld : World :=
  ingestAll [PostMeter (meterRecord 0)] oneMeterWorld.

Definition twiceVehicleWorld : World :=
  ingestAll [PostVehicle (vehicleRecord 0)] oneVehicleWorld.

(** The record with three decimals ingested. *)
Definition roundedSocWorld : World :=
  ingestAll [PostVehicle roundedSocVehicle] fixtureWorld.

(** The driver refuses the upsert: the third call. *)
Definition upsertFailsWorld : World := withFaultAt 2 fixtureWorld.

(** A batch that holds a record with a negative voltage, sent to its
    route. *)
Definition negativeVoltageBatchWorld : World :=
  ingestAll [PostMeterBatch [negativeVoltageMeter]] fixtureWorld.

(** A world that holds a row for V-1 and whose tenth driver call fails:
    that call is the second upsert of a batch sent next. *)
Definition faultyWorld : World := withFaultAt 9 oneMeterWorld.

Definition faultyBatch : IngestRequest :=
  PostMeterBatch [meterRecord 1; meterRecord 2].

Definition afterFaultyBatch : World :=
  (@ingest fixturePlatform faultyBatch faultyWorld).2.

Definition fromReturned {A} (default : A) (o : Outcome A) : A :=
  match o with Returned a => a | Thrown _ => default end.

Definition noSummary : VehiclePerformanceAnalyticsDto.t :=
  VehiclePerformanceAnalyticsDto.mk "" 0 0 0 0 0 0 0 "".

(** What [getVehiclePerformance "V-1"] returns on the scenario at
    [now = T + 10min]. *)
Definition scenarioSummary : VehiclePerformanceAnalyticsDto.t :=
  fromReturned noSummary
    (AnalyticsService.getVehiclePerformance (scenarioT + 600000) "V-1"
       (db scenarioWorld)).

(** Readings around the window that ends at [now = T]: one a millisecond
    too old, one exactly at [now - 24h], one of another vehicle, one
    exactly at [now]. *)
Definition staleReading : VehicleTelemetryHistory.t :=
  VehicleTelemetryHistory.mk 1 "V-1" 80 10 30
    (Some (scenarioT - 86400000 - 1)) scenarioT.

Definition readingAtStart : VehicleTelemetryHistory.t :=
  VehicleTelemetryHistory.mk 2 "V-1" 81 11 31
    (Some (scenarioT - 86400000)) scenarioT.

Definition otherVehicleReading : VehicleTelemetryHistory.t :=
  VehicleTelemetryHistory.mk 3 "V-2" 82 12 32 (Some scenarioT) scenarioT.

Definition readingAtEnd : VehicleTelemetryHistory.t :=
  VehicleTelemetryHistory.mk 4 "V-1" 83 13 33 (Some scenarioT) scenarioT.

Definition boundaryTables : Tables :=
  mkTables ∅ ∅ []
    [readingAtStart; staleReading; readingAtEnd; otherVehicleReading].

Definition staleTables : Tables := mkTables ∅ ∅ [] [staleReading].

(** ** Fixtures for sequences of calls, traces and summaries *)

Definition otherMeterRecord : MeterTelemetryDto.t :=
  MeterTelemetryDto.mk "V-2" 10 230 (scenarioTimestamp 2).

Definition otherVehicleRecord : VehicleTelemetryDto.t :=
  VehicleTelemetryDto.mk "V-2" 50 20 25 (scenarioTimestamp 6).

(** Four calls sent to [faultyWorld]: the first, a batch that names V-1
    and V-2, fails at its second upsert; the other three return. *)
Definition sequenceRequests : list IngestRequest :=
  [PostMeterBatch [meterRecord 1; otherMeterRecord];
   PostVehicle (vehicleRecord 3);
   PostMeter (meterRecord 4);
   PostVehicleBatch [vehicleRecord 5; otherVehicleRecord]].

Definition sequenceAccepted : list IngestRequest :=
  [PostVehicle (vehicleRecord 3);
   PostMeter (meterRecord 4);
   PostVehicleBatch [vehicleRecord 5; otherVehicleRecord]].

Definition sequenceEnd : World :=
  (@callEach fixturePlatform sequenceRequests faultyWorld).2.

(** Two calls for V-2 sent to a world that holds one reading of V-1. *)
Definition otherRequests : list IngestRequest :=
  [PostVehicle otherVehicleRecord; PostMeter otherMeterRecord].

Definition otherEnd : World :=
  (@callEach fixturePlatform otherRequests oneVehicleWorld).2.

(** A world whose driver calls number [first] and [second] fail. *)
Definition withFaultsAt (first second : nat) (w : World) : World :=
  mkWorld (db w) (tx w) (meter_history_id_seq w) (vehicle_history_id_seq w)
          (trace w) (fun n => Nat.eqb n first || Nat.eqb n second) (clock w).

(** [startTransaction] fails. *)
Definition startFailsWorld : World := withFaultAt 1 fixtureWorld.

Definition afterStartFails : World :=
  (@callService fixturePlatform (PostMeter (meterRecord 0))
     startFailsWorld).2.

(** The insert fails, and then the rollback. *)
Definition rollbackFailsWorld : World := withFaultsAt 3 4 fixtureWorld.

Definition afterRollbackFails : World :=
  (@callService fixturePlatform (PostVehicle (vehicleRecord 0))
     rollbackFailsWorld).2.

(** The ten vehicle records of the scenario without its meter records. *)
Definition tenVehicleWorld : World :=
  ingestAll (map (fun i => PostVehicle (vehicleRecord i)) (seq 0 10))
            fixtureWorld.

Definition tenVehicleSummary : VehiclePerformanceAnalyticsDto.t :=
  fromReturned noSummary
    (AnalyticsService.getVehiclePerformance (scenarioT + 600000) "V-1"
       (db tenVehicleWorld)).

(** The two records of the batch of [batchMeterWorld] sent one by one. *)
Definition singleRequests : list IngestRequest :=
  [PostMeter (meterRecord 1); PostMeter (meterRecord 2)].

Definition singlesMeterWorld : World :=
  (@callEach fixturePlatform singleRequests fixtureWorld).2.

Definition oneVehicleSummary : VehiclePerformanceAnalyticsDto.t :=
  fromReturned noSummary
    (AnalyticsService.getVehiclePerformance (scenarioT + 600000) "V-1"
       (db oneVehicleWorld)).

(** Ten readings of V-1 that deliver 84.996 kWh for 100 kWh drawn: a
    ratio of 0.84996. *)
Definition nearBoundReading (id : Z) : VehicleTelemetryHistory.t :=
  VehicleTelemetryHistory.mk id "V-1" 80 8.4996 30 (Some scenarioT) scenarioT.

Definition nearBoundMeterReading : MeterTelemetryHistory.t :=
  MeterTelemetryHistory.mk 1 "V-1" 100 240 (Some scenarioT) scenarioT.

Definition nearBoundReadings : list VehicleTelemetryHistory.t :=
  map nearBoundReading [1; 2; 3; 4; 5; 6; 7; 8; 9; 10].

(** No rollback sent between two worlds was refused, as a check on the
    trace. *)
Definition rollbacksSucceedb (w w' : World) : bool :=
  forallb (fun n =>
             match trace w' !! n with
             | Some RollbackTransaction => negb (faults w n)
             | _ => true
             end)
          (seq 0 (length (trace w'))).

(** The insert of a meter record for V-1 fails and then the rollback; the
    next call, a vehicle record, returns. *)
Definition leakRequests : list IngestRequest :=
  [PostMeter (meterRecord 0); PostVehicle (vehicleRecord 1)].

Definition leakStart : World := withFaultsAt 3 4 fixtureWorld.

Definition leakMiddle : World :=
  (@callService fixturePlatform (PostMeter (meterRecord 0)) leakStart).2.

Definition leakEnd : World :=
  (@callService fixturePlatform (PostVehicle (vehicleRecord 1))
     leakMiddle).2.

(** The commit of a meter record for V-1 fails and then the rollback; the
    next call, a batch of two meter records, returns. *)
Definition lateLeakStart : World := withFaultsAt 4 5 fixtureWorld.

Definition lateLeakMiddle : World :=
  (@callService fixturePlatform (PostMeter (meterRecord 0)) lateLeakStart).2.

Definition lateLeakEnd : World :=
  (@callService fixturePlatform
     (PostMeterBatch [meterRecord 1; meterRecord 2]) lateLeakMiddle).2.

(** Readings of V-1 that deliver 34199768.2599 kWh for 52732662.4931 kWh
    drawn, all at [T]: thirty-four readings of 999999.9999 kWh and one of
    199768.2633 kWh against fifty-two of 999999.9999 kWh and one of
    732662.4983 kWh. *)
Definition fullVehicleReading (id : Z) (kwh : Q) : VehicleTelemetryHistory.t :=
  VehicleTelemetryHistory.mk id "V-1" 80 kwh 30 (Some scenarioT) scenarioT.

Definition fullMeterReading (id : Z) (kwh : Q) : MeterTelemetryHistory.t :=
  MeterTelemetryHistory.mk id "V-1" kwh 240 (Some scenarioT) scenarioT.

Definition roundingVehicleReadings : list VehicleTelemetryHistory.t :=
  imap (fun i kwh => fullVehicleReading (Z.of_nat i) kwh)
       (replicate 34 999999.9999%Q ++ [199768.2633%Q]).

Definition roundingMeterReadings : list MeterTelemetryHistory.t :=
  imap (fun i kwh => fullMeterReading (Z.of_nat i) kwh)
       (replicate 52 999999.9999%Q ++ [732662.4983%Q]).

Definition roundingTables : Tables :=
  mkTables ∅ ∅ roundingMeterReadings roundingVehicleReadings.

Definition roundingSummary : VehiclePerformanceAnalyticsDto.t :=
  fromReturned noSummary
    (AnalyticsService.getVehiclePerformance scenarioT "V-1" roundingTables).

(** The readings of the scenario among others: a reading of V-1 a
    millisecond too old, a reading of V-2, a meter reading of V-1 a
    millisecond too old and a meter reading of V-2. *)
Definition staleMeterReading : MeterTelemetryHistory.t :=
  MeterTelemetryHistory.mk 101 "V-1" 9000 240
    (Some (scenarioT - 86400000 - 1)) scenarioT.

Definition otherMeterReading : MeterTelemetryHistory.t :=
  MeterTelemetryHistory.mk 102 "V-2" 7000 240 (Some scenarioT) scenarioT.

Definition mixedTables : Tables :=
  mkTables ∅ ∅
    (staleMeterReading :: meter_telemetry_history (db scenarioWorld) ++
     [otherMeterReading])
    (staleReading :: otherVehicleReading ::
     vehicle_telemetry_history (db scenarioWorld)).

Definition mixedSummary : VehiclePerformanceAnalyticsDto.t :=
  fromReturned noSummary
    (AnalyticsService.getVehiclePerformance (scenarioT + 600000) "V-1"
       mixedTables).

(** The ten readings near the bound among the others. *)
Definition nearBoundTables : Tables :=
  mkTables ∅ ∅
    [staleMeterReading; nearBoundMeterReading; otherMeterReading]
    (staleReading :: otherVehicleReading :: nearBoundReadings).

(** Ten readings of V-1 at [T] that deliver [dc] kWh for [ac] kWh
    drawn. *)
Definition ratioTables (dc ac : Q) : Tables :=
  mkTables ∅ ∅ [fullMeterReading 1 ac]
    (fullVehicleReading 1 dc ::
     map (fun id => fullVehicleReading id 0) [2; 3; 4; 5; 6; 7; 8; 9; 10]).

(** Two readings of V-1 at [T] whose battery temperatures, 1 and 1.01,
    average to 1.005. *)
Definition temperatureTables : Tables :=
  mkTables ∅ ∅ []
    [VehicleTelemetryHistory.mk 1 "V-1" 80 1 1 (Some scenarioT) scenarioT;
     VehicleTelemetryHistory.mk 2 "V-1" 80 1 1.01 (Some scenarioT) scenarioT].

(** ** What a [NUMERIC] column keeps *)

Section NumericColumns.
Local Open Scope Q_scope.

Lemma roundAway_spec (y : Q) :
  let k := inject_Z (Numeric.roundAway y) in
  (0 <= y → y - (1 # 2) < k ∧ k <= y + (1 # 2)) ∧
  (y < 0 → y - (1 # 2) <= k ∧ k < y + (1 # 2)).
Proof.
  unfold Numeric.roundAway.
  destruct (Qle_bool 0 y) eqn:Hsign; cbv zeta.
  - apply Qle_bool_iff in Hsign. split; [intros _|intros Hneg; lra].
    pose proof (Qfloor_le (y + (1 # 2))) as Hle.
    pose proof (Qlt_floor (y + (1 # 2))) as Hlt.
    rewrite inject_Z_plus in Hlt.
    revert Hle Hlt. generalize (inject_Z (Qfloor (y + (1 # 2)))).
    intros k Hle Hlt. change (inject_Z 1) with 1 in Hlt. lra.
  - assert (Hneg : y < 0).
    { apply Qnot_le_lt. intros Hle. apply Qle_bool_iff in Hle. congruence. }
    split; [intros Hpos; lra|intros _].
    pose proof (Qfloor_le (- y + (1 # 2))) as Hle.
    pose proof (Qlt_floor (- y + (1 # 2))) as Hlt.
    rewrite inject_Z_plus in Hlt. rewrite inject_Z_opp.
    revert Hle Hlt. generalize (inject_Z (Qfloor (- y + (1 # 2)))).
    intros k Hle Hlt. change (inject_Z 1) with 1 in Hlt. lra.
Qed.

Lemma Qabs_div_pos (a p : Q) : 0 < p → Qabs (a / p) == Qabs a / p.
Proof.
  intros Hp. unfold Qdiv. rewrite Qabs_Qmult.
  rewrite (Qabs_pos (/ p)); [reflexivity|].
  apply Qlt_le_weak, Qinv_lt_0_compat, Hp.
Qed.

(** X18. A column with [scale] decimal places keeps a value rounded to
    that many places, a tie going away from zero. *)
Theorem column_rounds (scale : Z) (x : Q) :
  (0 ≤ scale)%Z →
  rounded_to scale x (Numeric.column scale x) ∧
  (Qabs (Numeric.column scale x - x) == 1 / inject_Z (2 * 10 ^ scale) →
   Qabs x <= Qabs (Numeric.column scale x)).
Proof.
  intros Hscale.
  assert (Hp : 0 < inject_Z (10 ^ scale)).
  { rewrite <- (Zlt_Qlt 0). apply Z.pow_pos_nonneg; lia. }
  assert (Hhalf : 1 / inject_Z (2 * 10 ^ scale)
                  == (1 # 2) / inject_Z (10 ^ scale)).
  { rewrite inject_Z_mult. change (inject_Z 2) with 2. field. lra. }
  unfold rounded_to, Numeric.column. rewrite Hhalf.
  assert (Hmultiple :
            ∃ k0 : Z,
              inject_Z (Numeric.roundAway (x * inject_Z (10 ^ scale))) /
              inject_Z (10 ^ scale) == inject_Z k0 / inject_Z (10 ^ scale)).
  { by eexists. }
  destruct (roundAway_spec (x * inject_Z (10 ^ scale))) as [Hpos Hneg].
  revert Hmultiple Hpos Hneg Hp.
  generalize (inject_Z (Numeric.roundAway (x * inject_Z (10 ^ scale)))).
  generalize (inject_Z (10 ^ scale)). intros p k Hmultiple Hpos Hneg Hp.
  cbv zeta in Hpos, Hneg.
  assert (Hdiff : k / p - x == (k - x * p) / p) by (field; lra).
  assert (Hx : x == (x * p) / p) by (field; lra).
  assert (Hinv : 0 < / p) by (apply Qinv_lt_0_compat, Hp).
  split; [split|].
  - exact Hmultiple.
  - rewrite Hdiff, Qabs_div_pos by done.
    unfold Qdiv. apply Qmult_le_compat_r; [|lra].
    apply Qabs_Qle_condition.
    destruct (Qlt_le_dec (x * p) 0) as [Hlt|Hle];
      [specialize (Hneg Hlt)|specialize (Hpos Hle)]; lra.
  - rewrite Hdiff, Qabs_div_pos by done. intros Htie.
    assert (Hunit : Qabs (k - x * p) == 1 # 2).
    { apply (Qmult_inj_r _ _ (/ p)); [lra|exact Htie]. }
    rewrite Hx at 1. rewrite !Qabs_div_pos by done.
    unfold Qdiv. apply Qmult_le_compat_r; [|lra].
    revert Hunit.
    destruct (Qlt_le_dec (x * p) 0) as [Hlt|Hle].
    + specialize (Hneg Hlt). intros Hunit.
      rewrite (Qabs_neg (x * p)) by lra.
      assert (Hk : k - x * p <= 0).
      { apply Qnot_lt_le. intros Hgt.
        rewrite Qabs_pos in Hunit by lra. lra. }
      rewrite Qabs_neg in Hunit by done.
      rewrite (Qabs_neg k) by lra. lra.
    + specialize (Hpos Hle). intros Hunit.
      rewrite (Qabs_pos (x * p)) by done.
      assert (Hk : 0 <= k - x * p).
      { apply Qnot_lt_le. intros Hgt.
        rewrite Qabs_neg in Hunit by lra. lra. }
      rewrite Qabs_pos in Hunit by done.
      rewrite (Qabs_pos k) by lra. lra.
Qed.

End NumericColumns.

(** ** Binary64 arithmetic: the rounding error *)

Section Binary64Rounding.
Import Double.
Local Open Scope Q_scope.

Lemma roundHalfEven_spec (N D : Z) :
  (0 < D)%Z → (2 * Z.abs (roundHalfEven N D * D - N) <= D)%Z.
Proof.
  intros HD. unfold roundHalfEven.
  pose proof (Z.div_mod N D ltac:(lia)) as Hdm.
  pose proof (Z.mod_pos_bound N D HD) as Hr.
  destruct (Z.ltb_spec (2 * (N mod D)) D);
    [|destruct (Z.ltb_spec D (2 * (N mod D)));
      [|destruct (Z.even (N / D))]]; nia.
Qed.

Lemma roundHalfEven_Q (N D : Z) :
  (0 < D)%Z →
  Qabs (inject_Z (roundHalfEven N D) - inject_Z N / inject_Z D) <= 1 # 2.
Proof.
  intros HD. pose proof (roundHalfEven_spec N D HD) as Hs.
  set (m := roundHalfEven N D) in *.
  assert (HDq : 0 < inject_Z D) by (rewrite <- (Zlt_Qlt 0); exact HD).
  assert (Heq : inject_Z m - inject_Z N / inject_Z D ==
                inject_Z (m * D - N) / inject_Z D).
  { unfold Z.sub. rewrite inject_Z_plus, inject_Z_mult, inject_Z_opp.
    field. lra. }
  rewrite Heq. clear Heq.
  apply Qabs_Qle_condition. split.
  - apply Qle_shift_div_l; [done|].
    assert (- inject_Z D <= 2 * inject_Z (m * D - N)).
    { rewrite <- inject_Z_opp.
      change 2 with (inject_Z 2). rewrite <- inject_Z_mult.
      rewrite <- Zle_Qle. lia. }
    lra.
  - apply Qle_shift_div_r; [done|].
    assert (2 * inject_Z (m * D - N) <= inject_Z D).
    { change 2 with (inject_Z 2). rewrite <- inject_Z_mult.
      rewrite <- Zle_Qle. lia. }
    lra.
Qed.

(** Scaling by a power of the base is a positive factor. *)
Lemma scaled_factor (b n d e : Z) :
  (0 < b)%Z → (0 < d)%Z →
  ∃ s : Q, 0 < s ∧
    (∀ m, times b m e == inject_Z m * s) ∧
    (0 < (scaled b n d e).2)%Z ∧
    inject_Z n / inject_Z d ==
      inject_Z (scaled b n d e).1 / inject_Z (scaled b n d e).2 * s.
Proof.
  intros Hb Hd. unfold times, scaled.
  assert (Hdq : 0 < inject_Z d) by (rewrite <- (Zlt_Qlt 0); exact Hd).
  destruct (Z.leb_spec 0 e) as [He|He].
  - assert (Hp : (0 < b ^ e)%Z) by (apply Z.pow_pos_nonneg; lia).
    assert (Hpq : 0 < inject_Z (b ^ e)) by (rewrite <- (Zlt_Qlt 0); exact Hp).
    exists (inject_Z (b ^ e)). split; [done|]. split; [|split].
    + intros m. by rewrite inject_Z_mult.
    + cbn. lia.
    + cbn [fst snd]. rewrite inject_Z_mult. field. lra.
  - assert (Hp : (0 < b ^ (- e))%Z) by (apply Z.pow_pos_nonneg; lia).
    assert (Hpq : 0 < inject_Z (b ^ (- e)))
      by (rewrite <- (Zlt_Qlt 0); exact Hp).
    exists (/ inject_Z (b ^ (- e))). split; [by apply Qinv_lt_0_compat|].
    split; [|split].
    + intros m. reflexivity.
    + cbn. lia.
    + cbn [fst snd]. rewrite inject_Z_mult. field. lra.
Qed.

Lemma significand_spec (n d e m : Z) :
  (0 < n)%Z → (0 < d)%Z →
  significand n d e = Some m →
  0 < times 2 m e ∧
  Qabs (times 2 m e - inject_Z n / inject_Z d) <=
    inject_Z n / inject_Z d * roundoff.
Proof.
  intros Hn Hd. unfold significand.
  destruct (scaled_factor 2 n d e ltac:(lia) Hd)
    as (s & Hs & Htimes & HD & Hnd).
  destruct (scaled 2 n d e) as [N D] eqn:Esc. cbn [fst snd] in HD, Hnd.
  destruct (Z.leb_spec (2 ^ 52 * D) N) as [Hlo|]; [|done].
  destruct (Z.ltb_spec N (2 ^ 53 * D)) as [Hhi|]; [|done].
  cbn [andb]. intros [= <-].
  pose proof (roundHalfEven_Q N D HD) as Herr.
  set (m := roundHalfEven N D) in *.
  assert (HDq : 0 < inject_Z D) by (rewrite <- (Zlt_Qlt 0); exact HD).
  assert (Hbig : 4503599627370496 <= inject_Z N / inject_Z D).
  { apply Qle_shift_div_l; [done|].
    change 4503599627370496 with (inject_Z (2 ^ 52)).
    rewrite <- inject_Z_mult, <- Zle_Qle. exact Hlo. }
  rewrite Htimes, Hnd.
  set (x := inject_Z N / inject_Z D) in *.
  apply Qabs_Qle_condition in Herr as [Hl Hu].
  split.
  - apply Qmult_lt_0_compat; [lra|done].
  - assert (Heq : inject_Z m * s - x * s == (inject_Z m - x) * s) by ring.
    rewrite Heq, Qabs_Qmult, (Qabs_pos s) by lra.
    assert (Hx : Qabs (inject_Z m - x) <= x * roundoff).
    { apply Qabs_Qle_condition. unfold roundoff. split; lra. }
    assert (Heq2 : x * s * roundoff == x * roundoff * s) by ring.
    rewrite Heq2. apply Qmult_le_compat_r; [done|lra].
Qed.

Lemma nearest_spec (n d : Z) :
  (0 < n)%Z → (0 < d)%Z →
  0 < nearest n d ∧
  Qabs (nearest n d - inject_Z n / inject_Z d) <=
    inject_Z n / inject_Z d * roundoff.
Proof.
  intros Hn Hd. unfold nearest. cbv zeta.
  destruct (significand n d (Z.log2 n - Z.log2 d - 52)) as [m|] eqn:E1;
    [by eapply significand_spec|].
  destruct (significand n d (Z.log2 n - Z.log2 d - 52 - 1)) as [m|] eqn:E2;
    [by eapply significand_spec|].
  assert (Hq : 0 < inject_Z n / inject_Z d).
  { apply Qlt_shift_div_l; [by rewrite <- (Zlt_Qlt 0)|].
    rewrite Qmult_0_l. by rewrite <- (Zlt_Qlt 0). }
  split; [done|].
  assert (Heq : inject_Z n / inject_Z d - inject_Z n / inject_Z d == 0)
    by ring.
  rewrite Heq. cbn [Qabs Z.abs]. unfold roundoff.
  apply Qmult_le_0_compat; [lra|done].
Qed.

Lemma Qred_num_den (x : Q) :
  x == inject_Z (Qnum (Qred x)) / inject_Z (Z.pos (Qden (Qred x))).
Proof.
  rewrite <- (Qred_correct x) at 1. destruct (Qred x) as [n d].
  cbn [Qnum Qden]. rewrite Qmake_Qdiv. reflexivity.
Qed.

(** The binary64 number nearest to [x] is within [|x| / 2^53] of [x], and
    has the sign of [x]. *)
Lemma toDouble_pos (x : Q) :
  0 < x →
  0 < toDouble x ∧ x * (1 - roundoff) <= toDouble x <= x * (1 + roundoff).
Proof.
  intros Hx. unfold toDouble. rewrite Qred_correct.
  pose proof (Qred_num_den x) as Hnd.
  destruct (Qnum (Qred x)) as [|n|n] eqn:En.
  - exfalso. rewrite Hnd in Hx. unfold Qdiv in Hx.
    rewrite Qmult_0_l in Hx. lra.
  - destruct (nearest_spec (Z.pos n) (Z.pos (Qden (Qred x))))
      as (Hpos & Herr); [done|done|].
    rewrite <- Hnd in Herr.
    apply Qabs_Qle_condition in Herr as [Hl Hu].
    split; [done|]. split; lra.
  - exfalso. rewrite Hnd in Hx.
    assert (inject_Z (Z.neg n) / inject_Z (Z.pos (Qden (Qred x))) < 0).
    { apply Qlt_shift_div_r; [done|]. rewrite Qmult_0_l. done. }
    lra.
Qed.

Lemma toDouble_proper (x y : Q) : x == y → toDouble x = toDouble y.
Proof.
  intros Heq. unfold toDouble. by rewrite (Qred_complete _ _ Heq).
Qed.

Lemma toDouble_0 : toDouble 0 = 0.
Proof. reflexivity. Qed.

Lemma toDouble_opp (x : Q) : toDouble (- x) == - toDouble x.
Proof.
  unfold toDouble. rewrite Qred_opp.
  destruct (Qred x) as [[|n|n] d]; cbn [Qnum Qden Qopp Z.opp];
    rewrite !Qred_correct.
  - reflexivity.
  - reflexivity.
  - by rewrite Qopp_opp.
Qed.

Lemma toDouble_neg (x : Q) :
  x < 0 →
  toDouble x < 0 ∧ x * (1 + roundoff) <= toDouble x <= x * (1 - roundoff).
Proof.
  intros Hx.
  destruct (toDouble_pos (- x)) as (Hpos & Hl & Hu); [lra|].
  rewrite toDouble_opp in Hpos, Hl, Hu.
  split; [lra|]. split; lra.
Qed.

Lemma toDouble_zero_iff (x : Q) : toDouble x == 0 ↔ x == 0.
Proof.
  split.
  - intros Hz. destruct (Q_dec x 0) as [[Hneg|Hpos]|Hzero]; [| |done].
    + apply toDouble_neg in Hneg. lra.
    + apply toDouble_pos in Hpos. lra.
  - intros Hz. by rewrite (toDouble_proper x 0 Hz).
Qed.

Lemma toDouble_error (x : Q) :
  Qabs (toDouble x - x) <= Qabs x * roundoff.
Proof.
  destruct (Q_dec x 0) as [[Hneg|Hpos]|Hzero].
  - destruct (toDouble_neg x Hneg) as (_ & Hl & Hu).
    rewrite (Qabs_neg x) by lra.
    apply Qabs_Qle_condition. split; lra.
  - destruct (toDouble_pos x Hpos) as (_ & Hl & Hu).
    rewrite (Qabs_pos x) by lra.
    apply Qabs_Qle_condition. split; lra.
  - rewrite (toDouble_proper x 0 Hzero), Hzero. done.
Qed.

End Binary64Rounding.

(** ** Binary64 arithmetic: integers, and what is printed *)

Section Binary64Printing.
Import Double.
Local Open Scope Q_scope.

Lemma Qred_inject_Z (k : Z) : Qred (inject_Z k) = inject_Z k.
Proof.
  unfold Qred, inject_Z.
  pose proof (Z.ggcd_gcd k 1) as Hg.
  pose proof (Z.ggcd_correct_divisors k 1) as Hd.
  destruct (Z.ggcd k 1) as [g [aa bb]]. cbn [fst] in Hg.
  rewrite Z.gcd_1_r in Hg. subst g. destruct Hd as [-> Hb].
  assert (bb = 1%Z) as -> by lia. f_equal. lia.
Qed.

Lemma Qred_Qred (x : Q) : Qred (Qred x) = Qred x.
Proof. apply Qred_complete, Qred_correct. Qed.

Lemma roundHalfEven_1 (N : Z) : roundHalfEven N 1 = N.
Proof.
  unfold roundHalfEven. rewrite Z.div_1_r, Z.mod_1_r. reflexivity.
Qed.

(** Integers below [2^53] are binary64 numbers. *)
Lemma toDouble_pos_Z (k : positive) :
  (Z.pos k < 2 ^ 53)%Z → toDouble (inject_Z (Z.pos k)) = inject_Z (Z.pos k).
Proof.
  intros Hk. unfold toDouble. rewrite Qred_inject_Z.
  cbn [inject_Z Qnum Qden].
  rewrite <- (Qred_inject_Z (Z.pos k)). apply Qred_complete.
  unfold nearest. cbv zeta. change (Z.log2 1) with 0%Z.
  assert (Hl : (0 <= Z.log2 (Z.pos k) < 53)%Z).
  { split; [apply Z.log2_nonneg|]. apply Z.log2_lt_pow2; lia. }
  destruct (Z.log2_spec (Z.pos k)) as [Hlo Hhi]; [done|].
  generalize dependent (Z.log2 (Z.pos k)). intros l Hl Hlo Hhi.
  assert (Hp : (0 < 2 ^ (52 - l))%Z) by (apply Z.pow_pos_nonneg; lia).
  assert (H52 : (2 ^ 52 = 2 ^ l * 2 ^ (52 - l))%Z).
  { rewrite <- Z.pow_add_r by lia. f_equal. lia. }
  assert (H53 : (2 ^ 53 = 2 ^ Z.succ l * 2 ^ (52 - l))%Z).
  { rewrite <- Z.pow_add_r by lia. f_equal. lia. }
  assert (Hsig : significand (Z.pos k) 1 (l - 0 - 52) =
                 Some (Z.pos k * 2 ^ (52 - l))%Z).
  { unfold significand, scaled.
    destruct (Z.leb_spec 0 (l - 0 - 52)) as [He|He].
    - assert (l = 52)%Z as -> by lia.
      change (52 - 0 - 52)%Z with 0%Z. change (52 - 52)%Z with 0%Z.
      change (2 ^ 0)%Z with 1%Z. rewrite !Z.mul_1_r, roundHalfEven_1.
      destruct (Z.leb_spec (2 ^ 52) (Z.pos k)); [|lia].
      destruct (Z.ltb_spec (Z.pos k) (2 ^ 53)); [|lia].
      reflexivity.
    - rewrite !Z.mul_1_r, roundHalfEven_1.
      replace (- (l - 0 - 52))%Z with (52 - l)%Z by lia.
      destruct (Z.leb_spec (2 ^ 52) (Z.pos k * 2 ^ (52 - l))); [|nia].
      destruct (Z.ltb_spec (Z.pos k * 2 ^ (52 - l)) (2 ^ 53)); [|nia].
      reflexivity. }
  rewrite Hsig. unfold times.
  destruct (Z.leb_spec 0 (l - 0 - 52)) as [He|He].
  - assert (l = 52)%Z as -> by lia.
    change (52 - 0 - 52)%Z with 0%Z. change (52 - 52)%Z with 0%Z.
    change (2 ^ 0)%Z with 1%Z. by rewrite !Z.mul_1_r.
  - replace (- (l - 0 - 52))%Z with (52 - l)%Z by lia.
    rewrite inject_Z_mult. field.
    assert (0 < inject_Z (2 ^ (52 - l)))
      by (rewrite <- (Zlt_Qlt 0); exact Hp).
    lra.
Qed.

Lemma toDouble_Z (k : Z) :
  (Z.abs k < 2 ^ 53)%Z → toDouble (inject_Z k) == inject_Z k.
Proof.
  destruct k as [|k|k]; intros Hk.
  - reflexivity.
  - by rewrite toDouble_pos_Z.
  - change (inject_Z (Z.neg k)) with (- inject_Z (Z.pos k)).
    rewrite toDouble_opp. by rewrite toDouble_pos_Z.
Qed.

(** What the search returns denotes the number it was given. *)
Lemma candidate_fits (x : Q) (j : Z) (c : Q) :
  candidate x j = Some c → toDouble c == x.
Proof.
  unfold candidate. destruct (scaled 10 _ _ j) as [N D].
  cbv zeta.
  destruct (Qeq_bool (toDouble (Qred (times 10 (N / D) j))) x) eqn:E1;
  destruct (Qeq_bool (toDouble (Qred (times 10 (N / D + 1) j))) x) eqn:E2;
    try done; intros [= <-]; try by apply Qeq_bool_iff.
  destruct (if (2 * (N mod D) <? D)%Z then false
            else if (D <? 2 * (N mod D))%Z then true else Z.odd (N / D));
    by apply Qeq_bool_iff.
Qed.

Lemma candidate_multiple (x : Q) (j : Z) (c : Q) :
  candidate x j = Some c → ∃ a : Z, c == times 10 a j.
Proof.
  unfold candidate. destruct (scaled 10 _ _ j) as [N D].
  cbv zeta.
  destruct (Qeq_bool (toDouble (Qred (times 10 (N / D) j))) x);
  destruct (Qeq_bool (toDouble (Qred (times 10 (N / D + 1) j))) x);
    try done; intros [= <-].
  - destruct (if (2 * (N mod D) <? D)%Z then false
              else if (D <? 2 * (N mod D))%Z then true else Z.odd (N / D));
      eexists; apply Qred_correct.
  - eexists; apply Qred_correct.
  - eexists; apply Qred_correct.
Qed.

Lemma search_fits (x : Q) (fuel : nat) :
  ∀ j, search x j fuel = x ∨ toDouble (search x j fuel) == x.
Proof.
  induction fuel as [|fuel IH]; intros j; cbn [search]; [by left|].
  destruct (candidate x j) as [c|] eqn:E; [|apply IH].
  right. by eapply candidate_fits.
Qed.

Lemma shortest_proper (x y : Q) : x == y → shortest x = shortest y.
Proof.
  intros Heq. unfold shortest. by rewrite (Qred_complete _ _ Heq).
Qed.

Lemma shortest_opp (x : Q) : shortest (- x) == - shortest x.
Proof.
  unfold shortest. rewrite Qred_opp. cbv zeta.
  destruct (Qred x) as [[|n|n] d] eqn:E.
  - reflexivity.
  - assert (Hr : Qred (Z.pos n # d) = Z.pos n # d)
      by (rewrite <- E; apply Qred_Qred).
    change (Qnum (- (Z.pos n # d))) with (Z.neg n).
    change (- - (Z.pos n # d)) with (Z.pos n # d).
    change (Qnum (Z.pos n # d)) with (Z.pos n).
    cbv iota. by rewrite Hr, Qred_correct.
  - assert (Hr : Qred (Z.pos n # d) = Z.pos n # d).
    { change (Z.pos n # d) with (- (Z.neg n # d)).
      rewrite <- E, <- Qred_opp. apply Qred_Qred. }
    change (Qnum (- (Z.neg n # d))) with (Z.pos n).
    change (- (Z.neg n # d)) with (Z.pos n # d).
    change (Qnum (Z.neg n # d)) with (Z.neg n).
    cbv iota. by rewrite Hr, Qred_correct, Qopp_opp.
Qed.

(** The decimal printed for a number denotes it (or is the number
    itself). *)
Lemma shortest_fits (x : Q) :
  shortest x == x ∨ toDouble (shortest x) == x.
Proof.
  assert (Hpos : ∀ y, shortestPos y = y ∨ toDouble (shortestPos y) == y).
  { intros y. apply search_fits. }
  unfold shortest. cbv zeta.
  pose proof (Qred_correct x) as Hx.
  destruct (Qred x) as [[|n|n] d] eqn:E.
  - left. rewrite <- Hx. reflexivity.
  - change (Qnum (Z.pos n # d)) with (Z.pos n). cbv iota.
    destruct (Hpos (Z.pos n # d)) as [->|Hf]; [by left|].
    right. by rewrite Hf.
  - change (Qnum (Z.neg n # d)) with (Z.neg n). cbv iota.
    destruct (Hpos (Qred (- (Z.neg n # d)))) as [->|Hf].
    + left. rewrite !Qred_correct, <- Hx. apply Qopp_opp.
    + right. rewrite <- Hx.
      rewrite (toDouble_proper _ (- shortestPos (Qred (- (Z.neg n # d)))))
        by apply Qred_correct.
      rewrite toDouble_opp, Hf, Qred_correct. apply Qopp_opp.
Qed.

End Binary64Printing.

(** ** Decimals with few digits are printed as they are *)

Section Binary64Decimals.
Import Double.
Local Open Scope Q_scope.

Lemma inject_Z_pos (z : Z) : (0 < z)%Z → 0 < inject_Z z.
Proof. intros Hz. by rewrite <- (Zlt_Qlt 0). Qed.

Lemma pow10_pos (e : Z) : (0 <= e)%Z → (0 < 10 ^ e)%Z.
Proof. intros He. apply Z.pow_pos_nonneg; lia. Qed.

(** A multiple of [10^j], [j >= -4], is a multiple of [10^-4]. *)
Lemma times_10000 (a j : Z) :
  (-4 <= j)%Z → times 10 a j * 10000 == inject_Z (a * 10 ^ (j + 4)).
Proof.
  intros Hj. unfold times. destruct (Z.leb_spec 0 j) as [H0|H0].
  - rewrite Z.pow_add_r by lia. change (10 ^ 4)%Z with 10000%Z.
    rewrite !inject_Z_mult. change (inject_Z 10000) with 10000. ring.
  - pose proof (pow10_pos (- j) ltac:(lia)) as Hp.
    pose proof (inject_Z_pos _ Hp) as Hpq.
    assert (H4 : (10000 = 10 ^ (j + 4) * 10 ^ (- j))%Z).
    { rewrite <- Z.pow_add_r by lia.
      replace (j + 4 + - j)%Z with 4%Z by lia. reflexivity. }
    change 10000 with (inject_Z 10000). rewrite H4 at 1.
    rewrite !inject_Z_mult. field. lra.
Qed.

(** [K / 10^g] as a multiple of [10^j], [j <= -g]. *)
Lemma times_decimal (K g j : Z) :
  (0 <= g)%Z → (j <= - g)%Z →
  times 10 (K * 10 ^ (- g - j)) j == inject_Z K / inject_Z (10 ^ g).
Proof.
  intros Hg Hj. unfold times.
  pose proof (inject_Z_pos _ (pow10_pos g Hg)) as Hgq.
  destruct (Z.leb_spec 0 j) as [H0|H0].
  - assert (j = 0)%Z as -> by lia. assert (g = 0)%Z as -> by lia.
    change (10 ^ (-0 - 0))%Z with 1%Z. change (10 ^ 0)%Z with 1%Z.
    rewrite !Z.mul_1_r. field.
  - pose proof (inject_Z_pos _ (pow10_pos (- j) ltac:(lia))) as Hpq.
    assert (H4 : (10 ^ (- j) = 10 ^ g * 10 ^ (- g - j))%Z).
    { rewrite <- Z.pow_add_r by lia. f_equal. lia. }
    rewrite H4 in *. rewrite !inject_Z_mult in *.
    pose proof (inject_Z_pos _ (pow10_pos (- g - j) ltac:(lia))) as Hq.
    field. split; lra.
Qed.

(** Two multiples of [10^-4] below [10^11] that denote the same number
    are equal. *)
Lemma fits_unique (c v x : Q) (a K : Z) :
  toDouble c == x → toDouble v == x →
  c * 10000 == inject_Z a → v * 10000 == inject_Z K →
  0 < v → v < 100000000000 →
  c == v.
Proof.
  intros Hc Hv Ha HK Hpos Hlt.
  destruct (toDouble_pos v Hpos) as (Hx & Hvl & Hvu).
  rewrite Hv in Hx, Hvl, Hvu.
  assert (Hcpos : 0 < c).
  { destruct (Q_dec c 0) as [[Hneg|Hp]|Hzero]; [|done|].
    - apply toDouble_neg in Hneg. lra.
    - apply toDouble_zero_iff in Hzero. lra. }
  destruct (toDouble_pos c Hcpos) as (_ & Hcl & Hcu).
  rewrite Hc in Hcl, Hcu. unfold roundoff in *.
  assert (Hd : -1 < inject_Z a - inject_Z K < 1) by (split; lra).
  assert (a = K) as ->.
  { destruct Hd as [Hd1 Hd2].
    assert (Hd1' : inject_Z (-1 + K) < inject_Z a)
      by (rewrite inject_Z_plus; change (inject_Z (-1)) with (-1); lra).
    assert (Hd2' : inject_Z a < inject_Z (1 + K))
      by (rewrite inject_Z_plus; change (inject_Z 1) with 1; lra).
    rewrite <- Zlt_Qlt in Hd1', Hd2'. lia. }
  lra.
Qed.

Section Search.
Variables (v : Q) (K g : Z).
Hypothesis Hg : (0 <= g <= 4)%Z.
Hypothesis Hv : v == inject_Z K / inject_Z (10 ^ g).
Hypothesis Hpos : 0 < v.
Hypothesis Hlt : v < 100000000000.

Let x := toDouble v.

Lemma decimal_10000 : v * 10000 == inject_Z (K * 10 ^ (4 - g)).
Proof using Hg Hv.
  replace (4 - g)%Z with (- g + 4)%Z by lia.
  rewrite <- (times_10000 K (- g)) by lia.
  pose proof (times_decimal K g (- g) ltac:(lia) ltac:(lia)) as Ht.
  replace (- g - - g)%Z with 0%Z in Ht by lia.
  change (10 ^ 0)%Z with 1%Z in Ht. rewrite Z.mul_1_r in Ht.
  by rewrite Ht, Hv.
Qed.

Lemma candidate_decimal (j : Z) (c : Q) :
  (-4 <= j)%Z → candidate x j = Some c → c == v.
Proof using Hg Hv Hpos Hlt.
  intros Hj Hcand.
  destruct (candidate_multiple _ _ _ Hcand) as (a & Ha).
  eapply (fits_unique c v x).
  - by eapply candidate_fits.
  - reflexivity.
  - rewrite Ha. by apply times_10000.
  - apply decimal_10000.
  - done.
  - done.
Qed.

Lemma candidate_found (j : Z) :
  (-4 <= j <= - g)%Z → candidate x j ≠ None.
Proof using Hg Hv Hpos Hlt.
  intros Hj.
  set (A := (K * 10 ^ (- g - j))%Z).
  assert (HA : times 10 A j == v).
  { unfold A. rewrite times_decimal by lia. by rewrite Hv. }
  assert (Hfit : ∀ y, y == v → Qeq_bool (toDouble y) x = true).
  { intros y Hy. apply Qeq_bool_iff. unfold x.
    by rewrite (toDouble_proper y v Hy). }
  assert (HAbound : 0 < inject_Z A ∧ inject_Z A < 1000000000000000).
  { pose proof (times_10000 A j ltac:(lia)) as H4. rewrite HA in H4.
    pose proof (pow10_pos (j + 4) ltac:(lia)) as Hp.
    assert (HApos : (0 < A)%Z).
    { assert (H0 : 0 < inject_Z (A * 10 ^ (j + 4))) by lra.
      rewrite <- (Zlt_Qlt 0) in H0. nia. }
    split; [by apply inject_Z_pos|].
    assert (Hle : inject_Z A <= inject_Z (A * 10 ^ (j + 4))).
    { rewrite <- Zle_Qle. nia. }
    lra. }
  unfold candidate.
  destruct (scaled_factor 10 (Qnum x) (Z.pos (Qden x)) j)
    as (s & Hs & Htimes & HD & Hnd); [lia|lia|].
  destruct (scaled 10 (Qnum x) (Z.pos (Qden x)) j) as [N D] eqn:Esc.
  cbn [fst snd] in HD, Hnd. cbv zeta.
  assert (Hx : x == inject_Z N / inject_Z D * s).
  { rewrite <- Hnd. destruct x as [xn xd]. cbn [Qnum Qden].
    apply Qmake_Qdiv. }
  pose proof (inject_Z_pos _ HD) as HDq.
  destruct (toDouble_pos v Hpos) as (_ & Hvl & Hvu). fold x in Hvl, Hvu.
  rewrite Hx, <- HA, Htimes in Hvl, Hvu.
  set (q := inject_Z N / inject_Z D) in *.
  assert (Hql : inject_Z A * (1 - roundoff) <= q).
  { apply (Qmult_le_r _ _ s Hs). lra. }
  assert (Hqu : q <= inject_Z A * (1 + roundoff)).
  { apply (Qmult_le_r _ _ s Hs). lra. }
  destruct HAbound as [HA0 HA1]. unfold roundoff in *.
  assert (Hq : inject_Z A - 1 < q ∧ q < inject_Z A + 1).
  { clear -HA0 HA1 Hql Hqu. revert HA0 HA1 Hql Hqu.
    generalize (inject_Z A). intros a HA0 HA1 Hql Hqu. split; lra. }
  destruct Hq as [Hlo Hhi].
  assert (HqD : q * inject_Z D == inject_Z N) by (unfold q; field; lra).
  apply (Qmult_lt_r _ _ _ HDq) in Hlo, Hhi. rewrite HqD in Hlo, Hhi.
  assert (HloZ : ((A - 1) * D < N)%Z).
  { rewrite Zlt_Qlt, inject_Z_mult. unfold Z.sub.
    rewrite inject_Z_plus. exact Hlo. }
  assert (HhiZ : (N < (A + 1) * D)%Z).
  { rewrite Zlt_Qlt, inject_Z_mult, inject_Z_plus. exact Hhi. }
  pose proof (Z.mul_div_le N D HD) as Hdl.
  pose proof (Z.mul_succ_div_gt N D HD) as Hdu.
  assert (Hcase : (N / D = A ∨ N / D + 1 = A)%Z) by nia.
  destruct Hcase as [Hc|Hc].
  - rewrite Hc. rewrite (Hfit (Qred (times 10 A j)))
      by (by rewrite Qred_correct).
    by destruct (Qeq_bool _ x).
  - rewrite Hc. rewrite (Hfit (Qred (times 10 A j)))
      by (by rewrite Qred_correct).
    by destruct (Qeq_bool _ x).
Qed.

Lemma search_decimal (fuel : nat) :
  ∀ j, (-4 <= j)%Z → (Z.to_nat (j + 4) < fuel)%nat → search x j fuel == v.
Proof using Hg Hv Hpos Hlt.
  induction fuel as [|fuel IH]; intros j Hj Hfuel; [lia|].
  cbn [search]. destruct (candidate x j) as [c|] eqn:E.
  - by eapply candidate_decimal.
  - destruct (Z.le_gt_cases j (- g)) as [Hle|Hgt].
    + by destruct (candidate_found j ltac:(lia)).
    + apply IH; lia.
Qed.

End Search.

End Binary64Decimals.

Section Binary64Printed.
Import Double.
Local Open Scope Q_scope.

Lemma shortest_canonical_pos (x : Q) :
  0 < x → Qred x = x → shortest x = shortestPos x.
Proof.
  intros Hx Hred. unfold shortest. rewrite Hred.
  destruct x as [[|n|n] d]; try done.
Qed.

Lemma toDouble_canonical (v : Q) : Qred (toDouble v) = toDouble v.
Proof. unfold toDouble. apply Qred_Qred. Qed.

(** The power of ten at which the search starts, for a number between
    [2^-14] and [2^37]. *)
Lemma start_bounds (x : Q) :
  (1 # 16384) < x → x < 137438953472 →
  let bits := (Z.log2 (Qnum x) - Z.log2 (Z.pos (Qden x)))%Z in
  (-4 <= (bits + 1) * 30103 / 100000 + 2 <= 19)%Z.
Proof.
  intros Hlo Hhi. destruct x as [n d]. cbn [Qnum Qden].
  unfold Qlt in Hlo, Hhi. cbn [Qnum Qden] in Hlo, Hhi.
  assert (Hn : (0 < n)%Z) by lia.
  destruct (Z.log2_spec n Hn) as [Hn1 Hn2].
  destruct (Z.log2_spec (Z.pos d)) as [Hd1 Hd2]; [done|].
  pose proof (Z.log2_nonneg n) as Hln.
  pose proof (Z.log2_nonneg (Z.pos d)) as Hld.
  set (ln := Z.log2 n) in *. set (ld := Z.log2 (Z.pos d)) in *.
  assert (Hup : (ln < ld + 38)%Z).
  { apply Z.log2_lt_pow2; [done|].
    replace (ld + 38)%Z with (Z.succ ld + 37)%Z by lia.
    rewrite Z.pow_add_r by lia. change (2 ^ 37)%Z with 137438953472%Z.
    nia. }
  assert (Hdown : (ld < ln + 15)%Z).
  { apply Z.log2_lt_pow2; [done|].
    replace (ln + 15)%Z with (Z.succ ln + 14)%Z by lia.
    rewrite Z.pow_add_r by lia. change (2 ^ 14)%Z with 16384%Z.
    nia. }
  cbv zeta. split.
  - assert (-4 <= (ln - ld + 1) * 30103 / 100000)%Z; [|lia].
    apply Z.div_le_lower_bound; lia.
  - assert ((ln - ld + 1) * 30103 / 100000 < 12)%Z; [|lia].
    apply Z.div_lt_upper_bound; lia.
Qed.

(** A decimal with at most four digits after the point, below [10^11] in
    absolute value, denotes a number that is printed as that decimal. *)
Lemma ofDecimal_pos (K g : Z) :
  (0 <= g <= 4)%Z → (0 < K)%Z →
  inject_Z K / inject_Z (10 ^ g) < 100000000000 →
  ofDecimal (inject_Z K / inject_Z (10 ^ g)) ==
    inject_Z K / inject_Z (10 ^ g).
Proof.
  intros Hg HK Hlt. set (v := inject_Z K / inject_Z (10 ^ g)) in *.
  pose proof (inject_Z_pos _ (pow10_pos g ltac:(lia))) as Hgq.
  assert (Hpos : 0 < v).
  { unfold v. apply Qlt_shift_div_l; [done|].
    rewrite Qmult_0_l. by apply inject_Z_pos. }
  assert (Hv : v == inject_Z K / inject_Z (10 ^ g)) by reflexivity.
  pose proof (decimal_10000 v K g Hg Hv) as H4.
  assert (Hmin : 1 <= v * 10000).
  { rewrite H4. change 1 with (inject_Z 1). rewrite <- Zle_Qle.
    pose proof (pow10_pos (4 - g) ltac:(lia)). nia. }
  destruct (toDouble_pos v Hpos) as (Hx & Hxl & Hxu).
  unfold ofDecimal.
  rewrite shortest_canonical_pos; [|done|apply toDouble_canonical].
  unfold shortestPos. cbv zeta.
  destruct (start_bounds (toDouble v)) as [Hj1 Hj2].
  { unfold roundoff in *. lra. }
  { unfold roundoff in *. lra. }
  apply (search_decimal v K g Hg Hv Hpos Hlt); lia.
Qed.

Lemma ofDecimal_opp (v : Q) : ofDecimal (- v) == - ofDecimal v.
Proof.
  unfold ofDecimal.
  rewrite (shortest_proper _ _ (toDouble_opp v)). apply shortest_opp.
Qed.

Lemma ofDecimal_decimal (K g : Z) :
  (0 <= g <= 4)%Z →
  Qabs (inject_Z K / inject_Z (10 ^ g)) < 100000000000 →
  ofDecimal (inject_Z K / inject_Z (10 ^ g)) ==
    inject_Z K / inject_Z (10 ^ g).
Proof.
  intros Hg Hlt.
  pose proof (inject_Z_pos _ (pow10_pos g ltac:(lia))) as Hgq.
  destruct K as [|K|K].
  - unfold ofDecimal.
    rewrite (toDouble_proper _ 0) by (unfold Qdiv; apply Qmult_0_l).
    unfold Qdiv. by rewrite Qmult_0_l.
  - apply ofDecimal_pos; [done|done|].
    apply Qabs_Qlt_condition in Hlt. lra.
  - assert (Heq : inject_Z (Z.neg K) / inject_Z (10 ^ g) ==
                  - (inject_Z (Z.pos K) / inject_Z (10 ^ g))).
    { change (inject_Z (Z.neg K)) with (- inject_Z (Z.pos K)).
      field. lra. }
    unfold ofDecimal at 1. rewrite (toDouble_proper _ _ Heq).
    fold (ofDecimal (- (inject_Z (Z.pos K) / inject_Z (10 ^ g)))).
    rewrite ofDecimal_opp, Heq. apply Qopp_comp.
    apply ofDecimal_pos; [done|done|].
    rewrite Heq, Qabs_opp in Hlt.
    apply Qabs_Qlt_condition in Hlt. lra.
Qed.

(** [k / 10^g] computed in binary64 is printed as [k / 10^g]. *)
Lemma div_decimal (k g : Z) :
  (0 <= g <= 4)%Z → (Z.abs k < 10 ^ 15)%Z →
  Qabs (inject_Z k / inject_Z (10 ^ g)) < 100000000000 →
  div (inject_Z k) (inject_Z (10 ^ g)) == inject_Z k / inject_Z (10 ^ g).
Proof.
  intros Hg Hk Hlt. unfold div.
  assert (H1 : toDouble (inject_Z k) == inject_Z k).
  { apply toDouble_Z. change (2 ^ 53)%Z with 9007199254740992%Z.
    change (10 ^ 15)%Z with 1000000000000000%Z in Hk. lia. }
  assert (H2 : toDouble (inject_Z (10 ^ g)) == inject_Z (10 ^ g)).
  { apply toDouble_Z. pose proof (pow10_pos g ltac:(lia)).
    assert (10 ^ g <= 10 ^ 4)%Z by (apply Z.pow_le_mono_r; lia).
    change (2 ^ 53)%Z with 9007199254740992%Z.
    change (10 ^ 4)%Z with 10000%Z in *. lia. }
  rewrite (toDouble_proper _ (inject_Z k / inject_Z (10 ^ g)))
    by (by rewrite H1, H2).
  by apply ofDecimal_decimal.
Qed.

End Binary64Printed.

(** ** Binary64 arithmetic: relative errors *)

Section RelativeError.
Import Double.
Local Open Scope Q_scope.

Lemma near_refl (e x : Q) : 0 <= e → near e x x.
Proof. intros He. exists 1. split; [ring|]. split; lra. Qed.

Lemma near_eq (e x y : Q) : 0 <= e → x == y → near e x y.
Proof. intros He Heq. exists 1. split; [rewrite Heq; ring|]. split; lra. Qed.

Lemma near_compat (e x y x' y' : Q) :
  x == x' → y == y' → near e x y → near e x' y'.
Proof.
  intros Hx Hy (t & Ht & Hb). exists t. split; [|done].
  by rewrite <- Hx, <- Hy.
Qed.

Lemma near_weaken (e e' x y : Q) : e <= e' → near e x y → near e' x y.
Proof.
  intros He (t & Ht & Hl & Hu). exists t. split; [done|]. split; lra.
Qed.

Lemma Qmult_le_mono (a b c d : Q) :
  0 <= a → a <= b → 0 <= c → c <= d → a * c <= b * d.
Proof.
  intros Ha Hab Hc Hcd.
  apply Qle_trans with (b * c).
  - apply Qmult_le_compat_r; done.
  - rewrite (Qmult_comm b c), (Qmult_comm b d).
    apply Qmult_le_compat_r; [done|lra].
Qed.

Lemma near_trans (e1 e2 e3 x y z : Q) :
  near e1 x y → near e2 y z →
  e1 <= 1 → e2 <= 1 →
  (1 + e1) * (1 + e2) <= 1 + e3 → 1 - e3 <= (1 - e1) * (1 - e2) →
  near e3 x z.
Proof.
  intros (t1 & H1 & Hl1 & Hu1) (t2 & H2 & Hl2 & Hu2) He1 He2 Hup Hdown.
  exists (t2 * t1). split; [rewrite H1, H2; ring|].
  split.
  - apply Qle_trans with ((1 - e1) * (1 - e2)); [done|].
    rewrite (Qmult_comm t2 t1). apply Qmult_le_mono; lra.
  - apply Qle_trans with ((1 + e1) * (1 + e2)); [|done].
    rewrite (Qmult_comm t2 t1). apply Qmult_le_mono; lra.
Qed.

Lemma near_mul (e1 e2 e3 x y x' y' : Q) :
  near e1 x x' → near e2 y y' →
  e1 <= 1 → e2 <= 1 →
  (1 + e1) * (1 + e2) <= 1 + e3 → 1 - e3 <= (1 - e1) * (1 - e2) →
  near e3 (x * y) (x' * y').
Proof.
  intros (t1 & H1 & Hl1 & Hu1) (t2 & H2 & Hl2 & Hu2) He1 He2 Hup Hdown.
  exists (t1 * t2). split; [rewrite H1, H2; ring|].
  split.
  - apply Qle_trans with ((1 - e1) * (1 - e2)); [done|].
    apply Qmult_le_mono; lra.
  - apply Qle_trans with ((1 + e1) * (1 + e2)); [|done].
    apply Qmult_le_mono; lra.
Qed.

Lemma near_div (e1 e2 e3 x y x' y' : Q) :
  near e1 x x' → near e2 y y' → ¬ y' == 0 →
  e1 <= 1 → e2 < 1 → 0 <= e3 → e3 <= 1 →
  1 + e1 <= (1 + e3) * (1 - e2) → (1 - e3) * (1 + e2) <= 1 - e1 →
  near e3 (x / y) (x' / y').
Proof.
  intros (t1 & H1 & Hl1 & Hu1) (t2 & H2 & Hl2 & Hu2) Hy He1 He2 He3 He3'
    Hup Hdown.
  assert (Ht2 : 0 < t2) by lra.
  exists (t1 / t2). split; [rewrite H1, H2; field; split; lra|].
  split.
  - apply Qle_shift_div_l; [done|].
    apply Qle_trans with ((1 - e3) * (1 + e2)); [|lra].
    apply Qmult_le_mono; lra.
  - apply Qle_shift_div_r; [done|].
    apply Qle_trans with ((1 + e3) * (1 - e2)); [lra|].
    apply Qmult_le_mono; lra.
Qed.

Lemma near_abs (e x y : Q) : near e x y → Qabs (x - y) <= e * Qabs y.
Proof.
  intros (t & Ht & Hl & Hu).
  assert (Heq : x - y == y * (t - 1)) by (rewrite Ht; ring).
  rewrite Heq, Qabs_Qmult, Qmult_comm.
  apply Qmult_le_compat_r; [|apply Qabs_nonneg].
  apply Qabs_Qle_condition. split; lra.
Qed.

Lemma near_pos (e x y : Q) : e < 1 → near e x y → (0 < x ↔ 0 < y).
Proof.
  intros He (t & Ht & Hl & Hu). assert (Hpos : 0 < t) by lra.
  rewrite Ht. split.
  - intros Hyt. destruct (Qlt_le_dec 0 y) as [|Hle]; [done|].
    assert (y * t <= 0 * t) by (apply Qmult_le_compat_r; lra). lra.
  - intros Hy. apply Qmult_lt_0_compat; done.
Qed.

Lemma near_sym (e e' x y : Q) :
  near e x y → e < 1 → 0 <= e' →
  1 <= (1 + e') * (1 - e) → (1 - e') * (1 + e) <= 1 →
  near e' y x.
Proof.
  intros (t & Ht & Hl & Hu) He He' Hup Hdown.
  assert (Hpos : 0 < t) by lra.
  exists (/ t). split; [rewrite Ht; field; lra|].
  assert (Hinv : / t == 1 / t) by (field; lra). rewrite Hinv.
  split.
  - apply Qle_shift_div_l; [done|].
    destruct (Qlt_le_dec e' 1) as [Hlt|Hge].
    + apply Qle_trans with ((1 - e') * (1 + e)); [|done].
      apply Qmult_le_mono; lra.
    + apply Qle_trans with (0 * t); [|lra].
      apply Qmult_le_compat_r; lra.
  - apply Qle_shift_div_r; [done|].
    apply Qle_trans with ((1 + e') * (1 - e)); [done|].
    apply Qmult_le_mono; lra.
Qed.

(** The rounding steps. *)
Lemma near_toDouble (x : Q) : near roundoff (toDouble x) x.
Proof.
  destruct (Q_dec x 0) as [[Hneg|Hpos]|Hzero].
  - destruct (toDouble_neg x Hneg) as (_ & Hl & Hu).
    exists (toDouble x / x). split; [field; lra|].
    assert (Heq : toDouble x / x == (- toDouble x) / (- x)) by (field; lra).
    rewrite Heq. split.
    + apply Qle_shift_div_l; lra.
    + apply Qle_shift_div_r; lra.
  - destruct (toDouble_pos x Hpos) as (_ & Hl & Hu).
    exists (toDouble x / x). split; [field; lra|]. split.
    + apply Qle_shift_div_l; lra.
    + apply Qle_shift_div_r; lra.
  - apply near_eq; [done|].
    by rewrite (toDouble_proper x 0 Hzero), Hzero.
Qed.

(** The number that the printed decimal denotes is the number printed. *)
Lemma near_printed (x : Q) : near roundoff (toDouble (shortest x)) x.
Proof.
  destruct (shortest_fits x) as [Heq|Hfit].
  - rewrite (toDouble_proper _ _ Heq). apply near_toDouble.
  - by apply near_eq.
Qed.

(** The printed decimal itself is close to the number. *)
Lemma near_shortest (x : Q) : near (2 * roundoff) (shortest x) x.
Proof.
  destruct (shortest_fits x) as [Heq|Hfit].
  - by apply near_eq.
  - eapply near_compat; [reflexivity|exact Hfit|].
    eapply near_sym; [apply near_toDouble|..]; unfold roundoff;
      by apply Qle_bool_iff || reflexivity.
Qed.

End RelativeError.

(** ** Rounding for display *)

(** A closed comparison of rationals, by evaluation. *)
Ltac closed := by (apply Qle_bool_iff || reflexivity).

Section DisplayRounding.
Import Double AnalyticsService.
Local Open Scope Q_scope.

Lemma Math_round_spec (x : Q) :
  Qabs (inject_Z (Math_round x) - toDouble x) <= 1 # 2.
Proof.
  unfold Math_round.
  pose proof (Qfloor_le (toDouble x + (1 # 2))) as Hl.
  pose proof (Qlt_floor (toDouble x + (1 # 2))) as Hu.
  rewrite inject_Z_plus in Hu. change (inject_Z 1) with 1 in Hu.
  apply Qabs_Qle_condition. split; lra.
Qed.

Lemma parseFloat_or_0_ofDecimal (q : Q) :
  parseFloat_or_0 (Some q) == ofDecimal q.
Proof.
  unfold parseFloat_or_0. cbv zeta.
  destruct (Qeq_bool (ofDecimal q) 0) eqn:E; [|reflexivity].
  apply Qeq_bool_iff in E. by rewrite E.
Qed.

(** A total read back from the database denotes the total, up to two
    roundings. *)
Lemma near_parseFloat (q : Q) :
  near (3 * roundoff) (toDouble (parseFloat_or_0 (Some q))) q.
Proof.
  rewrite (toDouble_proper _ _ (parseFloat_or_0_ofDecimal q)).
  unfold ofDecimal.
  eapply near_trans; [apply near_printed|apply near_toDouble|..];
    unfold roundoff; closed.
Qed.

Lemma parseFloat_pos (q : Q) : 0 < parseFloat_or_0 (Some q) ↔ 0 < q.
Proof.
  rewrite parseFloat_or_0_ofDecimal. unfold ofDecimal.
  assert (Hn : near (4 * roundoff) (shortest (toDouble q)) q).
  { eapply near_trans; [apply near_shortest|apply near_toDouble|..];
      unfold roundoff; closed. }
  eapply near_pos; [|exact Hn]. unfold roundoff. closed.
Qed.

(** [Math.round(X * 10^g) / 10^g] for a number [X] that denotes [x] up to
    eleven roundings. *)
Lemma Math_round_div (X x : Q) (g : Z) :
  (0 <= g <= 4)%Z →
  near (11 * roundoff) (toDouble X) x →
  Qabs x <= 10000000000 →
  rounded_nearly g x
    (div (inject_Z (Math_round (mul X (inject_Z (10 ^ g)))))
         (inject_Z (10 ^ g))).
Proof.
  intros Hg HX Hx.
  pose proof (pow10_pos g ltac:(lia)) as Hp.
  assert (Hp4 : (10 ^ g <= 10000)%Z).
  { change 10000%Z with (10 ^ 4)%Z. apply Z.pow_le_mono_r; lia. }
  pose proof (inject_Z_pos _ Hp) as Hpq.
  assert (Hpq4 : inject_Z (10 ^ g) <= 10000).
  { change 10000 with (inject_Z 10000). by rewrite <- Zle_Qle. }
  assert (Hpq1 : 1 <= inject_Z (10 ^ g)).
  { change 1 with (inject_Z 1). rewrite <- Zle_Qle. lia. }
  set (P := mul X (inject_Z (10 ^ g))).
  set (k := Math_round P).
  assert (HP : near (15 * roundoff) (toDouble P) (x * inject_Z (10 ^ g))).
  { assert (H1 : near (11 * roundoff)
                   (toDouble X * toDouble (inject_Z (10 ^ g)))
                   (x * inject_Z (10 ^ g))).
    { apply (near_mul (11 * roundoff) 0 (11 * roundoff)); [exact HX| |..];
        try (unfold roundoff; closed).
      apply (near_eq 0); [apply Qle_refl|]. apply toDouble_Z.
      change (2 ^ 53)%Z with 9007199254740992%Z. lia. }
    assert (H2 : near (13 * roundoff)
                   (toDouble (toDouble X * toDouble (inject_Z (10 ^ g))))
                   (x * inject_Z (10 ^ g))).
    { apply (near_trans roundoff (11 * roundoff) (13 * roundoff) _ _ _
               (near_toDouble _) H1); unfold roundoff; closed. }
    unfold P, mul.
    apply (near_trans roundoff (13 * roundoff) (15 * roundoff) _ _ _
             (near_printed _) H2); unfold roundoff; closed. }
  apply near_abs in HP. rewrite Qabs_Qmult in HP.
  rewrite (Qabs_pos (inject_Z (10 ^ g))) in HP by lra.
  pose proof (Math_round_spec P) as Hk. fold k in Hk.
  assert (Hdist : Qabs (inject_Z k - x * inject_Z (10 ^ g)) <=
                  (1 # 2) + 15 * roundoff * (Qabs x * inject_Z (10 ^ g))).
  { eapply Qle_trans; [|apply Qplus_le_compat; [exact Hk|exact HP]].
    eapply Qle_trans; [|apply Qabs_triangle].
    apply Qle_lteq. right. apply Qabs_wd. ring. }
  assert (Hxg : Qabs x * inject_Z (10 ^ g) <= 100000000000000).
  { apply Qle_trans with (10000000000 * 10000); [|closed].
    apply Qmult_le_mono; [apply Qabs_nonneg|done|lra|done]. }
  assert (Hkabs : Qabs (inject_Z k) < 1000000000000000).
  { assert (Htri : Qabs (inject_Z k) <=
                   Qabs (inject_Z k - x * inject_Z (10 ^ g)) +
                   Qabs (x * inject_Z (10 ^ g))).
    { eapply Qle_trans; [|apply Qabs_triangle].
      apply Qle_lteq. right. apply Qabs_wd. ring. }
    rewrite Qabs_Qmult, (Qabs_pos (inject_Z (10 ^ g))) in Htri by lra.
    unfold roundoff in Hdist.
    revert Htri Hdist Hxg.
    generalize (Qabs (inject_Z k)) (Qabs x * inject_Z (10 ^ g))
      (Qabs (inject_Z k - x * inject_Z (10 ^ g))).
    intros a b c Htri Hdist Hxg. lra. }
  assert (HkZ : (Z.abs k < 10 ^ 15)%Z).
  { change (10 ^ 15)%Z with 1000000000000000%Z. rewrite Zlt_Qlt.
    assert (Hz : Qabs (inject_Z k) = inject_Z (Z.abs k)) by (by destruct k).
    by rewrite <- Hz. }
  assert (Hkg : Qabs (inject_Z k / inject_Z (10 ^ g)) < 100000000000).
  { unfold Qdiv. rewrite Qabs_Qmult, (Qabs_pos (/ inject_Z (10 ^ g))).
    2: { apply Qlt_le_weak, Qinv_lt_0_compat. done. }
    apply Qlt_shift_div_r; [done|].
    assert (Htri : Qabs (inject_Z k) <=
                   Qabs (inject_Z k - x * inject_Z (10 ^ g)) +
                   Qabs (x * inject_Z (10 ^ g))).
    { eapply Qle_trans; [|apply Qabs_triangle].
      apply Qle_lteq. right. apply Qabs_wd. ring. }
    rewrite Qabs_Qmult, (Qabs_pos (inject_Z (10 ^ g))) in Htri by lra.
    assert (Hxg' : Qabs x * inject_Z (10 ^ g) <=
                   10000000000 * inject_Z (10 ^ g)).
    { apply Qmult_le_compat_r; [done|lra]. }
    unfold roundoff in Hdist.
    revert Htri Hdist Hxg Hxg' Hpq1.
    generalize (Qabs (inject_Z k)) (Qabs x * inject_Z (10 ^ g))
      (Qabs (inject_Z k - x * inject_Z (10 ^ g))) (inject_Z (10 ^ g)).
    intros a b c p Htri Hdist Hxg Hxg' Hp1. lra. }
  pose proof (div_decimal k g Hg HkZ Hkg) as Hres.
  split; [by exists k|].
  rewrite Hres.
  assert (Heq : inject_Z k / inject_Z (10 ^ g) - x ==
                (inject_Z k - x * inject_Z (10 ^ g)) / inject_Z (10 ^ g))
    by (field; lra).
  rewrite Heq. unfold Qdiv at 1.
  rewrite Qabs_Qmult, (Qabs_pos (/ inject_Z (10 ^ g))).
  2: { apply Qlt_le_weak, Qinv_lt_0_compat. done. }
  apply Qle_shift_div_r; [done|].
  eapply Qle_trans; [exact Hdist|].
  assert (Hhalf : 1 / inject_Z (2 * 10 ^ g) * inject_Z (10 ^ g) == 1 # 2).
  { rewrite inject_Z_mult. change (inject_Z 2) with 2. field. lra. }
  rewrite Qmult_plus_distr_l, Hhalf.
  apply Qplus_le_r.
  assert (Hr : Qabs x * (1 # 562949953421312) * inject_Z (10 ^ g) ==
               Qabs x * inject_Z (10 ^ g) * (1 # 562949953421312)) by ring.
  rewrite Hr.
  assert (Hb : 0 <= Qabs x * inject_Z (10 ^ g)).
  { apply Qmult_le_0_compat; [apply Qabs_nonneg|lra]. }
  revert Hb. generalize (Qabs x * inject_Z (10 ^ g)). intros b Hb.
  unfold roundoff. lra.
Qed.

End DisplayRounding.

(** * Properties *)

(** ** Health classifier *)

Section HealthClassifier.
Import AnalyticsService.

Lemma Qle_bool_false (a b : Q) : (b < a)%Q → Qle_bool a b = false.
Proof.
  intros Hlt. destruct (Qle_bool a b) eqn:E; [|reflexivity].
  apply Qle_bool_iff in E. exfalso. exact (Qlt_not_le _ _ Hlt E).
Qed.

Lemma Qle_bool_true (a b : Q) : (a <= b)%Q → Qle_bool a b = true.
Proof. apply Qle_bool_iff. Qed.

Lemma calculateHealthStatus_insufficient (x : Q) (n : Z) :
  n < 10 → calculateHealthStatus x n = "INSUFFICIENT_DATA".
Proof.
  intros Hn. unfold calculateHealthStatus.
  by rewrite (proj2 (Z.ltb_lt n 10) Hn).
Qed.

Lemma calculateHealthStatus_enough (x : Q) (n : Z) :
  10 ≤ n →
  calculateHealthStatus x n =
    if Qle_bool 0.9 x then "EXCELLENT"
    else if Qle_bool 0.85 x then "NORMAL"
    else if Qle_bool 0.75 x then "WARNING"
    else "CRITICAL".
Proof.
  intros Hn. unfold calculateHealthStatus.
  by rewrite (proj2 (Z.ltb_ge n 10) Hn).
Qed.

(** C3. For every efficiency ratio [x] and sample count [n],
    [calculateHealthStatus x n] is INSUFFICIENT_DATA when [n < 10]
    whatever [x] is; otherwise EXCELLENT when [x >= 0.90], NORMAL when
    [0.85 <= x < 0.90], WARNING when [0.75 <= x < 0.85] and CRITICAL when
    [x < 0.75]; the lower bound of each band is inclusive, so
    [classify(0.85, 50) = NORMAL] and [classify(0.90, 50) = EXCELLENT]. *)
Theorem calculateHealthStatus_bands (x : Q) (n : Z) :
  (n < 10 → calculateHealthStatus x n = "INSUFFICIENT_DATA") ∧
  (10 ≤ n → (0.90 <= x)%Q → calculateHealthStatus x n = "EXCELLENT") ∧
  (10 ≤ n → (0.85 <= x)%Q → (x < 0.90)%Q →
     calculateHealthStatus x n = "NORMAL") ∧
  (10 ≤ n → (0.75 <= x)%Q → (x < 0.85)%Q →
     calculateHealthStatus x n = "WARNING") ∧
  (10 ≤ n → (x < 0.75)%Q → calculateHealthStatus x n = "CRITICAL") ∧
  calculateHealthStatus 0.85 50 = "NORMAL" ∧
  calculateHealthStatus 0.90 50 = "EXCELLENT".
Proof.
  split; [apply calculateHealthStatus_insufficient|].
  repeat split; try reflexivity; intros Hn;
    rewrite (calculateHealthStatus_enough x n Hn).
  - intros H1.
    assert (H0 : (0.9 <= x)%Q) by (eapply Qle_trans; [|exact H1]; done).
    by rewrite (Qle_bool_true _ _ H0).
  - intros H1 H2.
    assert (H3 : (x < 0.9)%Q) by (eapply Qlt_le_trans; [exact H2|done]).
    by rewrite (Qle_bool_false _ _ H3), (Qle_bool_true _ _ H1).
  - intros H1 H2.
    assert (H3 : (x < 0.9)%Q) by (eapply Qlt_trans; [exact H2|reflexivity]).
    by rewrite (Qle_bool_false _ _ H3), (Qle_bool_false _ _ H2),
               (Qle_bool_true _ _ H1).
  - intros H1.
    assert (H2 : (x < 0.85)%Q) by (eapply Qlt_trans; [exact H1|reflexivity]).
    assert (H3 : (x < 0.9)%Q) by (eapply Qlt_trans; [exact H2|reflexivity]).
    by rewrite (Qle_bool_false _ _ H3), (Qle_bool_false _ _ H2),
               (Qle_bool_false _ _ H1).
Qed.

End HealthClassifier.

(** ** Window aggregation *)

Section Analytics.
Import AnalyticsService.

Lemma inWindow_true (start end_ : Z) (timestamp : JsDate) :
  inWindow start end_ timestamp = true ↔
  ∃ ts, timestamp = Some ts ∧ start ≤ ts ≤ end_.
Proof.
  unfold inWindow. destruct timestamp as [t|]; split.
  - intros Hb. apply andb_true_iff in Hb as [H1 H2].
    exists t. split; [done|]. lia.
  - intros (ts & [= <-] & H1). apply andb_true_iff. split; lia.
  - done.
  - by intros (ts & ? & _).
Qed.

Lemma elem_of_vehicleRows vehicleId start end_ t h :
  h ∈ vehicleRows vehicleId start end_ t ↔
  h ∈ vehicle_telemetry_history t ∧ vehicleReadingIn vehicleId start end_ h.
Proof.
  unfold vehicleRows, vehicleReadingIn.
  rewrite list_elem_of_filter, inWindow_true. tauto.
Qed.

Lemma elem_of_meterRows meterId start end_ t m :
  m ∈ meterRows meterId start end_ t ↔
  m ∈ meter_telemetry_history t ∧ meterReadingIn meterId start end_ m.
Proof.
  unfold meterRows, meterReadingIn.
  rewrite list_elem_of_filter, inWindow_true. tauto.
Qed.

Lemma nil_iff_no_elem {A} (l : list A) : l = [] ↔ ∀ x, x ∉ l.
Proof.
  split.
  - intros ->. intros x Hx. by apply not_elem_of_nil in Hx.
  - destruct l as [|a l]; [done|]. intros Hno.
    exfalso. apply (Hno a). by left.
Qed.

Lemma length_zero_nil {A} (l : list A) : (length l =? 0)%nat = true ↔ l = [].
Proof.
  rewrite Nat.eqb_eq. split; [apply nil_length_inv | by intros ->].
Qed.

(** The call throws exactly when the vehicle query counts no row, and
    then it throws the not-found exception. *)
Lemma getVehiclePerformance_thrown now vehicleId t :
  vehicleRows vehicleId (now - 86400000) now t = [] →
  getVehiclePerformance now vehicleId t =
    Thrown (NotFoundException (notFoundMessage vehicleId)).
Proof.
  intros Hnil. unfold getVehiclePerformance.
  change (24 * 60 * 60 * 1000) with 86400000.
  unfold vehicleQuery. cbn [count]. by rewrite Hnil.
Qed.

Lemma getVehiclePerformance_returned now vehicleId t :
  vehicleRows vehicleId (now - 86400000) now t ≠ [] →
  ∃ s, getVehiclePerformance now vehicleId t = Returned s ∧
    VehiclePerformanceAnalyticsDto.dataPointsAnalyzed s =
      Z.of_nat (length (vehicleRows vehicleId (now - 86400000) now t)) ∧
    VehiclePerformanceAnalyticsDto.totalEnergyConsumedAc s =
      parseFloat_or_0 (meterQuery vehicleId (now - 86400000) now t).
Proof.
  intros Hne. unfold getVehiclePerformance.
  change (24 * 60 * 60 * 1000) with 86400000.
  unfold vehicleQuery at 1. cbn [count].
  destruct (length _ =? 0)%nat eqn:E.
  - apply length_zero_nil in E. contradiction.
  - eexists. split; [reflexivity|]. split; reflexivity.
Qed.

(** C4. For every device identifier and every store state,
    [getVehiclePerformance] fails with the not-found exception, whose
    message names the device identifier and the last-24-hours window,
    if and only if the vehicle history has no entry for that identifier
    within [[now-24h, now]]; it fails in no other way; and when vehicle
    entries exist in the window but the meter history has none there,
    the call succeeds and reports [totalEnergyConsumedAc = 0]. *)
Theorem getVehiclePerformance_not_found_iff (now : Z) (vehicleId : string)
    (t : Tables) :
  (getVehiclePerformance now vehicleId t =
     Thrown (NotFoundException
               ("No data found for vehicle " +:+ vehicleId
                +:+ " in the last 24 hours")) ↔
   ∀ h, h ∈ vehicle_telemetry_history t →
        ¬ vehicleReadingIn vehicleId (now - 86400000) now h) ∧
  (∀ e, getVehiclePerformance now vehicleId t = Thrown e →
        e = NotFoundException
              ("No data found for vehicle " +:+ vehicleId
               +:+ " in the last 24 hours")) ∧
  ((∃ h, h ∈ vehicle_telemetry_history t ∧
         vehicleReadingIn vehicleId (now - 86400000) now h) →
   (∀ m, m ∈ meter_telemetry_history t →
         ¬ meterReadingIn vehicleId (now - 86400000) now m) →
   ∃ s, getVehiclePerformance now vehicleId t = Returned s ∧
        VehiclePerformanceAnalyticsDto.totalEnergyConsumedAc s = 0%Q).
Proof.
  fold (notFoundMessage vehicleId).
  destruct (decide (vehicleRows vehicleId (now - 86400000) now t = []))
    as [Hnil|Hne].
  - pose proof (getVehiclePerformance_thrown _ _ _ Hnil) as Hthrown.
    split; [|split].
    + split; [|done]. intros _ h Hh Hin.
      apply (proj1 (nil_iff_no_elem _) Hnil h).
      apply elem_of_vehicleRows. done.
    + intros e He. congruence.
    + intros (h & Hh & Hin). exfalso.
      apply (proj1 (nil_iff_no_elem _) Hnil h).
      apply elem_of_vehicleRows. done.
  - destruct (getVehiclePerformance_returned _ _ _ Hne)
      as (s & Hs & _ & Hac).
    split; [|split].
    + split; [congruence|]. intros Hnone. exfalso. apply Hne.
      apply nil_iff_no_elem. intros h Hh.
      apply elem_of_vehicleRows in Hh as [Hh Hin]. by apply (Hnone h).
    + intros e He. congruence.
    + intros _ Hnone. exists s. split; [done|]. rewrite Hac.
      assert (Hm : meterRows vehicleId (now - 86400000) now t = []).
      { apply nil_iff_no_elem. intros m Hm.
        apply elem_of_meterRows in Hm as [Hm Hin]. by apply (Hnone m). }
      unfold meterQuery. by rewrite Hm.
Qed.

End Analytics.

Section WindowCount.
Import AnalyticsService.

Lemma length_filter_all {A} (P : A → Prop) `{!∀ x, Decision (P x)}
    (l : list A) :
  Forall P l → length (filter P l) = length l.
Proof.
  induction 1 as [|x l Hx _ IH]; [done|].
  rewrite filter_cons_True by done. cbn. by rewrite IH.
Qed.

Lemma length_filter_none {A} (P : A → Prop) `{!∀ x, Decision (P x)}
    (l : list A) :
  Forall (fun x => ¬ P x) l → length (filter P l) = 0%nat.
Proof.
  induction 1 as [|x l Hx _ IH]; [done|].
  by rewrite filter_cons_False.
Qed.

Lemma filter_and_implied {A} (P Q : A → Prop) `{!∀ x, Decision (P x)}
    `{!∀ x, Decision (Q x)} (l : list A) :
  (∀ x, x ∈ l → P x → Q x) →
  filter (fun x => P x ∧ Q x) l = filter P l.
Proof.
  induction l as [|a l IH]; [done|]. intros Himp.
  assert (Htail : ∀ x, x ∈ l → P x → Q x).
  { intros x Hx. apply Himp. by right. }
  destruct (decide (P a)) as [Ha|Ha].
  - rewrite (filter_cons_True P) by done.
    rewrite filter_cons_True by (split; [done|apply Himp; [by left|done]]).
    by rewrite IH.
  - rewrite (filter_cons_False P) by done.
    rewrite filter_cons_False by tauto.
    by apply IH.
Qed.

Lemma vehicleRows_length_split now vehicleId t inside outside :
  vehicle_telemetry_history t ≡ₚ inside ++ outside →
  Forall (vehicleReadingIn vehicleId (now - 86400000) now) inside →
  Forall (fun h => ¬ vehicleReadingIn vehicleId (now - 86400000) now h)
         outside →
  length (vehicleRows vehicleId (now - 86400000) now t) = length inside.
Proof.
  intros Hperm Hin Hout. unfold vehicleRows.
  rewrite Hperm, filter_app, length_app.
  rewrite length_filter_all, length_filter_none; [lia| |].
  - eapply Forall_impl; [exact Hout|]. intros h Hh [Hid Hw]. apply Hh.
    split; [done|]. by apply inWindow_true.
  - eapply Forall_impl; [exact Hin|]. intros h [Hid Hw].
    split; [done|]. by apply inWindow_true.
Qed.

(** C6 (amended). For every vehicle whose history splits into N >= 1
    readings with a timestamp in [[now-24h, now]], both ends included,
    and M other readings (outside the window, or of other devices),
    [getVehiclePerformance] at [now] succeeds and reports
    [dataPointsAnalyzed = N], whatever M is; readings timestamped exactly
    [now-24h] or exactly [now] are among the N counted ones. *)
Theorem getVehiclePerformance_window_count (now : Z) (vehicleId : string)
    (t : Tables) (inside outside : list VehicleTelemetryHistory.t) :
  vehicle_telemetry_history t ≡ₚ inside ++ outside →
  Forall (vehicleReadingIn vehicleId (now - 86400000) now) inside →
  Forall (fun h => ¬ vehicleReadingIn vehicleId (now - 86400000) now h)
         outside →
  inside ≠ [] →
  ∃ s, getVehiclePerformance now vehicleId t = Returned s ∧
       VehiclePerformanceAnalyticsDto.dataPointsAnalyzed s =
         Z.of_nat (length inside).
Proof.
  intros Hperm Hin Hout Hne.
  pose proof (vehicleRows_length_split _ _ _ _ _ Hperm Hin Hout) as Hlen.
  destruct (getVehiclePerformance_returned now vehicleId t)
    as (s & Hs & Hcount & _).
  - intros Hnil. rewrite Hnil in Hlen. destruct inside; done.
  - exists s. split; [done|]. by rewrite Hcount, Hlen.
Qed.

End WindowCount.

(** ** The summary: totals, ratio, status *)

Section Summary.
Import Double AnalyticsService.
Local Open Scope Q_scope.

Lemma parseFloat_or_0_proper (q q' : Q) :
  q == q' → parseFloat_or_0 (Some q) = parseFloat_or_0 (Some q').
Proof.
  intros Heq. unfold parseFloat_or_0, ofDecimal.
  by rewrite (toDouble_proper _ _ Heq).
Qed.

Lemma parseFloat_or_0_SUM (values : list Q) :
  parseFloat_or_0 (SUM values) = parseFloat_or_0 (Some (sumQ values)).
Proof. by destruct values. Qed.

Lemma parseFloat_or_0_AVG (values : list Q) :
  values ≠ [] →
  parseFloat_or_0 (AVG values) =
    parseFloat_or_0
      (Some (sumQ values / inject_Z (Z.of_nat (length values)))).
Proof. by destruct values. Qed.

Lemma sumQ_Permutation (l l' : list Q) : l ≡ₚ l' → sumQ l == sumQ l'.
Proof.
  induction 1 as [|x l l' _ IH|x y l|l l' l'' _ IH1 _ IH2]; cbn.
  - reflexivity.
  - by rewrite IH.
  - ring.
  - by rewrite IH1.
Qed.

Lemma filter_all {A} (P : A → Prop) `{!∀ x, Decision (P x)} (l : list A) :
  Forall P l → filter P l = l.
Proof.
  induction 1 as [|x l Hx _ IH]; [done|].
  rewrite filter_cons_True by done. by rewrite IH.
Qed.

Lemma filter_none {A} (P : A → Prop) `{!∀ x, Decision (P x)} (l : list A) :
  Forall (fun x => ¬ P x) l → filter P l = [].
Proof.
  induction 1 as [|x l Hx _ IH]; [done|]. by rewrite filter_cons_False.
Qed.

(** The rows that the two queries read are the readings of the device in
    the window. *)
Lemma vehicleRows_split now vehicleId t inside outside :
  vehicle_telemetry_history t ≡ₚ inside ++ outside →
  Forall (vehicleReadingIn vehicleId (now - 86400000) now) inside →
  Forall (fun h => ¬ vehicleReadingIn vehicleId (now - 86400000) now h)
         outside →
  vehicleRows vehicleId (now - 86400000) now t ≡ₚ inside.
Proof.
  intros Hperm Hin Hout. unfold vehicleRows.
  rewrite Hperm, filter_app, filter_all, filter_none.
  - by rewrite app_nil_r.
  - eapply Forall_impl; [exact Hout|]. intros h Hh [Hid Hw]. apply Hh.
    split; [done|]. by apply inWindow_true.
  - eapply Forall_impl; [exact Hin|]. intros h [Hid Hw].
    split; [done|]. by apply inWindow_true.
Qed.

Lemma meterRows_split now meterId t inside outside :
  meter_telemetry_history t ≡ₚ inside ++ outside →
  Forall (meterReadingIn meterId (now - 86400000) now) inside →
  Forall (fun m => ¬ meterReadingIn meterId (now - 86400000) now m)
         outside →
  meterRows meterId (now - 86400000) now t ≡ₚ inside.
Proof.
  intros Hperm Hin Hout. unfold meterRows.
  rewrite Hperm, filter_app, filter_all, filter_none.
  - by rewrite app_nil_r.
  - eapply Forall_impl; [exact Hout|]. intros h Hh [Hid Hw]. apply Hh.
    split; [done|]. by apply inWindow_true.
  - eapply Forall_impl; [exact Hin|]. intros h [Hid Hw].
    split; [done|]. by apply inWindow_true.
Qed.

(** The fields of a summary, as the method computes them. *)
Lemma getVehiclePerformance_fields now vehicleId t s :
  getVehiclePerformance now vehicleId t = Returned s →
  let rows := vehicleRows vehicleId (now - 86400000) now t in
  let dc :=
    parseFloat_or_0 (SUM (map VehicleTelemetryHistory.kwhDeliveredDc rows)) in
  let ac :=
    parseFloat_or_0
      (SUM (map MeterTelemetryHistory.kwhConsumedAc
              (meterRows vehicleId (now - 86400000) now t))) in
  let temp :=
    parseFloat_or_0 (AVG (map VehicleTelemetryHistory.batteryTemp rows)) in
  let ratio := if Qlt_le_dec 0 ac then div dc ac else 0 in
  rows ≠ [] ∧
  VehiclePerformanceAnalyticsDto.totalEnergyDeliveredDc s = dc ∧
  VehiclePerformanceAnalyticsDto.totalEnergyConsumedAc s = ac ∧
  VehiclePerformanceAnalyticsDto.efficiencyRatio s =
    div (inject_Z (Math_round (mul ratio 10000))) 10000 ∧
  VehiclePerformanceAnalyticsDto.avgBatteryTemp s =
    div (inject_Z (Math_round (mul temp 100))) 100 ∧
  VehiclePerformanceAnalyticsDto.dataPointsAnalyzed s =
    Z.of_nat (length rows) ∧
  VehiclePerformanceAnalyticsDto.healthStatus s =
    calculateHealthStatus ratio (Z.of_nat (length rows)).
Proof.
  unfold getVehiclePerformance.
  change (24 * 60 * 60 * 1000)%Z with 86400000%Z.
  unfold vehicleQuery, meterQuery. cbn [count totalDc avgTemp].
  destruct (length _ =? 0)%nat eqn:E; [done|].
  intros [= <-]. cbv zeta. split; [|by repeat split].
  intros Hnil. by rewrite Hnil in E.
Qed.

(** The quotient of two totals read back from the database. *)
Lemma div_near (tDc tAc dc ac : Q) :
  near (3 * roundoff) (toDouble tDc) dc →
  near (3 * roundoff) (toDouble tAc) ac →
  ¬ ac == 0 →
  near (11 * roundoff) (toDouble (div tDc tAc)) (dc / ac) ∧
  near (12 * roundoff) (div tDc tAc) (dc / ac).
Proof.
  intros Hdc Hac Hnz.
  assert (H1 : near (7 * roundoff) (toDouble tDc / toDouble tAc) (dc / ac)).
  { apply (near_div (3 * roundoff) (3 * roundoff) (7 * roundoff)
             _ _ _ _ Hdc Hac Hnz); unfold roundoff; closed. }
  assert (H2 : near (9 * roundoff)
                 (toDouble (toDouble tDc / toDouble tAc)) (dc / ac)).
  { apply (near_trans roundoff (7 * roundoff) (9 * roundoff) _ _ _
             (near_toDouble _) H1); unfold roundoff; closed. }
  unfold div. split.
  - apply (near_trans roundoff (9 * roundoff) (11 * roundoff) _ _ _
             (near_printed _) H2); unfold roundoff; closed.
  - apply (near_trans (2 * roundoff) (9 * roundoff) (12 * roundoff) _ _ _
             (near_shortest _) H2); unfold roundoff; closed.
Qed.

Lemma display_0 (places : Q) :
  places = 10000 ∨ places = 100 →
  div (inject_Z (Math_round (mul 0 places))) places == 0.
Proof. intros [->| ->]; by vm_compute. Qed.

(** C5 (amended). For every successful [getVehiclePerformance] result,
    the returned [efficiencyRatio] is the sum of [kwhDeliveredDc] over the
    window divided by the sum of [kwhConsumedAc] over the window when the
    AC sum is strictly positive, and 0 otherwise, rounded to 4 decimal
    places as binary64 arithmetic does it: for a quotient of at most
    [10^10] in absolute value, a multiple of [0.0001] whose distance from
    the quotient is at most [0.00005] plus [2^-49] of the quotient.
    Likewise the returned [avgBatteryTemp] is a multiple of [0.01] within
    [0.005] plus [2^-49] of the window average of [batteryTemp].  The
    window is the set of readings of the device whose timestamp lies in
    [[now-24h, now]]. *)
Theorem getVehiclePerformance_ratio_rounding (now : Z) (vehicleId : string)
    (t : Tables) (s : VehiclePerformanceAnalyticsDto.t)
    (vehicleIn vehicleOut : list VehicleTelemetryHistory.t)
    (meterIn meterOut : list MeterTelemetryHistory.t) :
  vehicle_telemetry_history t ≡ₚ vehicleIn ++ vehicleOut →
  Forall (vehicleReadingIn vehicleId (now - 86400000) now) vehicleIn →
  Forall (fun h => ¬ vehicleReadingIn vehicleId (now - 86400000) now h)
         vehicleOut →
  meter_telemetry_history t ≡ₚ meterIn ++ meterOut →
  Forall (meterReadingIn vehicleId (now - 86400000) now) meterIn →
  Forall (fun m => ¬ meterReadingIn vehicleId (now - 86400000) now m)
         meterOut →
  getVehiclePerformance now vehicleId t = Returned s →
  let dc := sumQ (map VehicleTelemetryHistory.kwhDeliveredDc vehicleIn) in
  let ac := sumQ (map MeterTelemetryHistory.kwhConsumedAc meterIn) in
  let avg := sumQ (map VehicleTelemetryHistory.batteryTemp vehicleIn)
             / inject_Z (Z.of_nat (length vehicleIn)) in
  (0 < ac → Qabs (dc / ac) <= 10000000000 →
     rounded_nearly 4 (dc / ac)
       (VehiclePerformanceAnalyticsDto.efficiencyRatio s)) ∧
  (¬ 0 < ac → VehiclePerformanceAnalyticsDto.efficiencyRatio s == 0) ∧
  (Qabs avg <= 10000000000 →
     rounded_nearly 2 avg (VehiclePerformanceAnalyticsDto.avgBatteryTemp s)).
Proof.
  intros Hvp Hvin Hvout Hmp Hmin Hmout Hs dc ac avg.
  pose proof (vehicleRows_split _ _ _ _ _ Hvp Hvin Hvout) as Hvrows.
  pose proof (meterRows_split _ _ _ _ _ Hmp Hmin Hmout) as Hmrows.
  destruct (getVehiclePerformance_fields _ _ _ _ Hs)
    as (Hne & _ & _ & -> & -> & _ & _).
  revert Hne Hvrows Hmrows.
  generalize (vehicleRows vehicleId (now - 86400000) now t).
  generalize (meterRows vehicleId (now - 86400000) now t).
  intros mrows vrows Hne Hvrows Hmrows.
  assert (Hdc : parseFloat_or_0
                  (SUM (map VehicleTelemetryHistory.kwhDeliveredDc vrows)) =
                parseFloat_or_0 (Some dc)).
  { rewrite parseFloat_or_0_SUM. apply parseFloat_or_0_proper.
    apply sumQ_Permutation. by rewrite Hvrows. }
  assert (Hac : parseFloat_or_0
                  (SUM (map MeterTelemetryHistory.kwhConsumedAc mrows)) =
                parseFloat_or_0 (Some ac)).
  { rewrite parseFloat_or_0_SUM. apply parseFloat_or_0_proper.
    apply sumQ_Permutation. by rewrite Hmrows. }
  assert (Havg : parseFloat_or_0
                   (AVG (map VehicleTelemetryHistory.batteryTemp vrows)) =
                 parseFloat_or_0 (Some avg)).
  { rewrite parseFloat_or_0_AVG by (by destruct vrows).
    apply parseFloat_or_0_proper. unfold avg.
    rewrite length_map, (Permutation_length Hvrows).
    apply Qmult_comp; [|reflexivity].
    apply sumQ_Permutation. by rewrite Hvrows. }
  rewrite Hdc, Hac, Havg.
  split; [|split].
  - intros Hpos Hbound.
    destruct (Qlt_le_dec 0 (parseFloat_or_0 (Some ac))) as [_|Hle].
    2: { apply (proj2 (parseFloat_pos _)) in Hpos. lra. }
    change 10000 with (inject_Z (10 ^ 4)).
    apply Math_round_div; [lia| |done].
    apply div_near; [apply near_parseFloat..|lra].
  - intros Hnpos.
    destruct (Qlt_le_dec 0 (parseFloat_or_0 (Some ac))) as [Hlt|_].
    { apply (proj1 (parseFloat_pos _)) in Hlt. contradiction. }
    apply display_0. by left.
  - intros Hbound. change 100 with (inject_Z (10 ^ 2)).
    apply Math_round_div; [lia| |done].
    eapply near_weaken; [|apply near_parseFloat]. unfold roundoff. closed.
Qed.

End Summary.

(** ** The end-to-end scenario, and the summary at the edges *)

Section EndToEnd.
Import Double AnalyticsService.

Lemma scenarioInstants_inWindow (T : Z) (ts : JsDate) :
  ts ∈ scenarioInstants T →
  inWindow (T + 600000 - 86400000) (T + 600000) ts = true.
Proof.
  unfold scenarioInstants. intros Hts.
  apply list_elem_of_fmap in Hts as (i & -> & Hi).
  apply elem_of_seq in Hi. apply inWindow_true. eexists. split; [done|].
  lia.
Qed.

(** C9 (amended). In the end-to-end scenario (10 vehicle records and 10
    meter records for device V-1 at [T, T+1min, ..., T+9min] whose DC
    and AC energies sum to 1052.134 and 1255.432),
    [getVehiclePerformance "V-1"] evaluated at [now = T+10min] returns
    [efficiencyRatio = 0.8381] (the ratio 1052.134/1255.432 rounded to 4
    decimal places), [dataPointsAnalyzed = 10] and
    [healthStatus = WARNING]. *)
Theorem getVehiclePerformance_end_to_end (T : Z) (t : Tables) :
  let vs := filter (fun h => VehicleTelemetryHistory.vehicleId h = "V-1")
                   (vehicle_telemetry_history t) in
  let ms := filter (fun m => MeterTelemetryHistory.meterId m = "V-1")
                   (meter_telemetry_history t) in
  map VehicleTelemetryHistory.timestamp vs = scenarioInstants T →
  map MeterTelemetryHistory.timestamp ms = scenarioInstants T →
  (sumQ (map VehicleTelemetryHistory.kwhDeliveredDc vs) == 1052.134)%Q →
  (sumQ (map MeterTelemetryHistory.kwhConsumedAc ms) == 1255.432)%Q →
  ∃ s, getVehiclePerformance (T + 600000) "V-1" t = Returned s ∧
       (VehiclePerformanceAnalyticsDto.efficiencyRatio s == 0.8381)%Q ∧
       VehiclePerformanceAnalyticsDto.dataPointsAnalyzed s = 10 ∧
       VehiclePerformanceAnalyticsDto.healthStatus s = "WARNING".
Proof.
  intros vs ms Hvt Hmt Hdc Hac.
  assert (Hvrows : vehicleRows "V-1" (T + 600000 - 86400000) (T + 600000) t
                   = vs).
  { unfold vehicleRows. apply filter_and_implied.
    intros h Hh Hid. apply scenarioInstants_inWindow. rewrite <- Hvt.
    apply list_elem_of_fmap. exists h. split; [done|].
    by apply list_elem_of_filter. }
  assert (Hmrows : meterRows "V-1" (T + 600000 - 86400000) (T + 600000) t
                   = ms).
  { unfold meterRows. apply filter_and_implied.
    intros m Hm Hid. apply scenarioInstants_inWindow. rewrite <- Hmt.
    apply list_elem_of_fmap. exists m. split; [done|].
    by apply list_elem_of_filter. }
  assert (Hlen : length vs = 10%nat).
  { by rewrite <- (length_map VehicleTelemetryHistory.timestamp), Hvt. }
  destruct (getVehiclePerformance_returned (T + 600000) "V-1" t)
    as (s & Hs & _).
  { rewrite Hvrows. intros Hnil. by rewrite Hnil in Hlen. }
  destruct (getVehiclePerformance_fields _ _ _ _ Hs)
    as (_ & _ & _ & Heff & _ & Hcount & Hstatus).
  rewrite Hvrows, Hmrows, !parseFloat_or_0_SUM in Heff, Hstatus.
  rewrite (parseFloat_or_0_proper _ _ Hdc),
    (parseFloat_or_0_proper _ _ Hac) in Heff, Hstatus.
  rewrite Hvrows in Hcount. rewrite Hlen in Hcount, Hstatus.
  exists s. split; [done|]. split; [|split; [done|]].
  - rewrite Heff. by vm_compute.
  - rewrite Hstatus. by vm_compute.
Qed.

End EndToEnd.

Section SummaryEdges.
Import Double AnalyticsService.

(** X8. A summary is never built on zero readings, and its status is
    INSUFFICIENT_DATA exactly when it is built on fewer than ten. *)
Theorem insufficient_data_iff (now : Z) (vehicleId : string) (t : Tables)
    (s : VehiclePerformanceAnalyticsDto.t) :
  getVehiclePerformance now vehicleId t = Returned s →
  1 ≤ VehiclePerformanceAnalyticsDto.dataPointsAnalyzed s ∧
  (VehiclePerformanceAnalyticsDto.healthStatus s = "INSUFFICIENT_DATA" ↔
   VehiclePerformanceAnalyticsDto.dataPointsAnalyzed s < 10).
Proof.
  intros Hs.
  destruct (getVehiclePerformance_fields _ _ _ _ Hs)
    as (Hne & _ & _ & _ & _ & -> & ->).
  revert Hne. generalize (vehicleRows vehicleId (now - 86400000) now t).
  intros rows Hne. split; [destruct rows; [done|cbn; lia]|].
  unfold calculateHealthStatus.
  destruct (Z.ltb_spec (Z.of_nat (length rows)) 10) as [Hlt|Hge]; [done|].
  split; [|lia].
  by repeat match goal with |- context [Qle_bool ?a ?b] =>
       destruct (Qle_bool a b) end.
Qed.

(** X9. When the meter readings filed under the vehicle's identifier sum
    to nothing in the window, in particular when there are none, the
    summary reports an efficiency ratio of 0, and its status is CRITICAL
    as soon as ten vehicle readings are analysed. *)
Theorem no_meter_energy_is_critical (now : Z) (vehicleId : string)
    (t : Tables) (s : VehiclePerformanceAnalyticsDto.t) :
  getVehiclePerformance now vehicleId t = Returned s →
  (sumQ (map MeterTelemetryHistory.kwhConsumedAc
           (meterRows vehicleId (now - 86400000) now t)) <= 0)%Q →
  (VehiclePerformanceAnalyticsDto.efficiencyRatio s == 0)%Q ∧
  (10 ≤ VehiclePerformanceAnalyticsDto.dataPointsAnalyzed s →
   VehiclePerformanceAnalyticsDto.healthStatus s = "CRITICAL").
Proof.
  intros Hs Hle.
  destruct (getVehiclePerformance_fields _ _ _ _ Hs)
    as (_ & _ & _ & -> & _ & -> & ->).
  rewrite !(parseFloat_or_0_SUM
              (map MeterTelemetryHistory.kwhConsumedAc _)).
  destruct (Qlt_le_dec 0 _) as [Hpos|_].
  { apply (proj1 (parseFloat_pos _)) in Hpos. lra. }
  split; [apply display_0; by left|]. intros Hn.
  by rewrite (calculateHealthStatus_enough 0 _ Hn).
Qed.

End SummaryEdges.

Section BandEdges.
Import Double AnalyticsService.
Local Open Scope Q_scope.

(** X10. The status is computed from the ratio before it is rounded for
    display: a ratio between four and one hundred-thousandths below a
    band's lower bound is displayed as that bound, with the status of the
    band below. *)
Theorem status_of_unrounded_ratio (now : Z) (vehicleId : string)
    (t : Tables) (bound : Q) (below : string)
    (vehicleIn vehicleOut : list VehicleTelemetryHistory.t)
    (meterIn meterOut : list MeterTelemetryHistory.t) :
  (bound, below) ∈ [(0.9%Q, "NORMAL"); (0.85%Q, "WARNING");
                    (0.75%Q, "CRITICAL")] →
  vehicle_telemetry_history t ≡ₚ vehicleIn ++ vehicleOut →
  Forall (vehicleReadingIn vehicleId (now - 86400000) now) vehicleIn →
  Forall (fun h => ¬ vehicleReadingIn vehicleId (now - 86400000) now h)
         vehicleOut →
  meter_telemetry_history t ≡ₚ meterIn ++ meterOut →
  Forall (meterReadingIn vehicleId (now - 86400000) now) meterIn →
  Forall (fun m => ¬ meterReadingIn vehicleId (now - 86400000) now m)
         meterOut →
  (10 <= length vehicleIn)%nat →
  let dc := sumQ (map VehicleTelemetryHistory.kwhDeliveredDc vehicleIn) in
  let ac := sumQ (map MeterTelemetryHistory.kwhConsumedAc meterIn) in
  (0 < ac)%Q →
  (bound - (4 # 100000) <= dc / ac)%Q →
  (dc / ac <= bound - (1 # 100000))%Q →
  ∃ s, getVehiclePerformance now vehicleId t = Returned s ∧
       (VehiclePerformanceAnalyticsDto.efficiencyRatio s == bound)%Q ∧
       VehiclePerformanceAnalyticsDto.healthStatus s = below.
Proof.
  intros Hband Hvp Hvin Hvout Hmp Hmin Hmout Hcount dc ac Hpos Hlo Hhi.
  pose proof (vehicleRows_split _ _ _ _ _ Hvp Hvin Hvout) as Hvrows.
  pose proof (meterRows_split _ _ _ _ _ Hmp Hmin Hmout) as Hmrows.
  destruct (getVehiclePerformance_returned now vehicleId t)
    as (s & Hs & _).
  { intros Hnil. rewrite Hnil in Hvrows.
    apply Permutation_length in Hvrows. cbn in Hvrows. lia. }
  exists s. split; [done|].
  destruct (getVehiclePerformance_fields _ _ _ _ Hs)
    as (_ & _ & _ & -> & _ & _ & ->).
  rewrite (Permutation_length Hvrows).
  rewrite (calculateHealthStatus_enough _ (Z.of_nat (length vehicleIn)))
    by lia.
  assert (Hdc : parseFloat_or_0
                  (SUM (map VehicleTelemetryHistory.kwhDeliveredDc
                          (vehicleRows vehicleId (now - 86400000) now t))) =
                parseFloat_or_0 (Some dc)).
  { rewrite parseFloat_or_0_SUM. apply parseFloat_or_0_proper.
    apply sumQ_Permutation. by rewrite Hvrows. }
  assert (Hac : parseFloat_or_0
                  (SUM (map MeterTelemetryHistory.kwhConsumedAc
                          (meterRows vehicleId (now - 86400000) now t))) =
                parseFloat_or_0 (Some ac)).
  { rewrite parseFloat_or_0_SUM. apply parseFloat_or_0_proper.
    apply sumQ_Permutation. by rewrite Hmrows. }
  rewrite Hdc, Hac.
  destruct (Qlt_le_dec 0 (parseFloat_or_0 (Some ac))) as [_|Hle].
  2: { apply (proj2 (parseFloat_pos _)) in Hpos. lra. }
  destruct (div_near (parseFloat_or_0 (Some dc)) (parseFloat_or_0 (Some ac))
              dc ac (near_parseFloat _) (near_parseFloat _)) as [Hval Hprint];
    [lra|].
  set (ratio := div (parseFloat_or_0 (Some dc)) (parseFloat_or_0 (Some ac)))
    in *.
  set (r := dc / ac) in *.
  assert (Hr : (7 # 10) <= r ∧ r <= (9 # 10)).
  { clear -Hband Hlo Hhi. rewrite !elem_of_cons, elem_of_nil in Hband.
    destruct Hband as [[= -> ->]|[[= -> ->]|[[= -> ->]|[]]]]; split; lra. }
  assert (Hrabs : Qabs r == r) by (apply Qabs_pos; lra).
  apply near_abs in Hprint. rewrite Hrabs in Hprint.
  apply Qabs_Qle_condition in Hprint as [Hp1 Hp2].
  assert (Hdisplay : rounded_nearly 4 r
            (div (inject_Z (Math_round (mul ratio (inject_Z (10 ^ 4)))))
                 (inject_Z (10 ^ 4)))).
  { apply Math_round_div; [lia|done|]. rewrite Hrabs. lra. }
  change (inject_Z (10 ^ 4)) with 10000 in Hdisplay.
  destruct Hdisplay as [(k & Hk) Hbound].
  revert Hk Hbound.
  generalize (div (inject_Z (Math_round (mul ratio 10000))) 10000).
  intros shown Hk Hbound.
  rewrite Hrabs in Hbound.
  change (1 / inject_Z (2 * 10 ^ 4)) with (1 # 20000) in Hbound.
  change (inject_Z (10 ^ 4)) with 10000 in Hk.
  apply Qabs_Qle_condition in Hbound as [Hb1 Hb2].
  unfold roundoff in *.
  assert (Hshown : ∀ n : Z, bound == inject_Z n / 10000 →
                   shown == bound).
  { intros n Hn. rewrite Hk, Hn.
    assert (Hkn : -1 < inject_Z k - inject_Z n < 1).
    { rewrite Hn in Hlo, Hhi. rewrite Hk in Hb1, Hb2.
      revert Hlo Hhi Hb1 Hb2 Hr.
      generalize (inject_Z k) (inject_Z n). intros a b. intros.
      unfold Qdiv in *. change (/ 10000) with (1 # 10000) in *.
      split; lra. }
    assert (k = n) as ->; [|reflexivity].
    destruct Hkn as [H1 H2].
    assert (H1' : inject_Z (-1 + n) < inject_Z k)
      by (rewrite inject_Z_plus; change (inject_Z (-1)) with (-1); lra).
    assert (H2' : inject_Z k < inject_Z (1 + n))
      by (rewrite inject_Z_plus; change (inject_Z 1) with 1; lra).
    rewrite <- Zlt_Qlt in H1', H2'. lia. }
  clear Hk Hb1 Hb2.
  rewrite !elem_of_cons, elem_of_nil in Hband.
  destruct Hband as [[= -> ->]|[[= -> ->]|[[= -> ->]|[]]]].
  - split; [apply (Hshown 9000%Z); reflexivity|].
    rewrite (Qle_bool_false 0.9 ratio) by lra.
    by rewrite (Qle_bool_true 0.85 ratio) by lra.
  - split; [apply (Hshown 8500%Z); reflexivity|].
    rewrite (Qle_bool_false 0.9 ratio) by lra.
    rewrite (Qle_bool_false 0.85 ratio) by lra.
    by rewrite (Qle_bool_true 0.75 ratio) by lra.
  - split; [apply (Hshown 7500%Z); reflexivity|].
    rewrite (Qle_bool_false 0.9 ratio) by lra.
    rewrite (Qle_bool_false 0.85 ratio) by lra.
    by rewrite (Qle_bool_false 0.75 ratio) by lra.
Qed.

End BandEdges.

(** ** The transaction of a service method *)

Section Transactions.
Context `{Platform}.

Lemma bind_run {A B} (m : Async A) (k : A → Async B) (w : World) :
  (m ≫= k) w =
    match m w with
    | (Returned a, w1) => k a w1
    | (Thrown e, w1) => (Thrown e, w1)
    end.
Proof. reflexivity. Qed.

Lemma statement_runs (c : DriverCall) (effect : Z → World → option World)
    (made : list Write → Prop) :
  (∀ now w p, tx w = Some p →
     ∃ wr w2, effect now w = Some w2 ∧ trace w2 = trace w ∧
              faults w2 = faults w ∧ db w2 = db w ∧
              tx w2 = Some (p ++ [wr]) ∧ made [wr]) →
  runsStatements (QueryRunner.call c effect) [c] made.
Proof.
  intros Heff w p r w' Hrun Htx. revert Hrun. unfold QueryRunner.call.
  destruct (faults w (length (trace w))) eqn:Ef.
  - intros [= <- <-]. split; [done|]. split; [done|].
    exists [c], []. split; [done|]. split; [by rewrite app_nil_r|].
    exists 0%nat, c. by rewrite Nat.add_0_r.
  - destruct (Heff (clock w (length (trace w))) (log_call c w) p Htx)
      as (wr & w2 & -> & Htr & Hf & Hdb & Htx2 & Hmade).
    intros [= <- <-]. split; [done|]. split; [done|].
    exists [c], [wr]. by rewrite Htr.
Qed.

Lemma runsStatements_weaken (m : Async unit) calls
    (made made' : list Write → Prop) :
  runsStatements m calls made → (∀ ws, made ws → made' ws) →
  runsStatements m calls made'.
Proof.
  intros Hm Himp w p r w' Hrun Htx.
  destruct (Hm _ _ _ _ Hrun Htx) as (Hf & Hdb & sent & ws & Htr & Htx' & Hr).
  split; [done|]. split; [done|]. exists sent, ws.
  split; [done|]. split; [done|].
  destruct r; [|done]. destruct Hr as [-> Hmade]. by auto.
Qed.

Lemma runsBody_weaken (m : Async unit) calls
    (made made' : list Write → Prop) :
  runsBody m calls made → (∀ ws, made ws → made' ws) →
  runsBody m calls made'.
Proof.
  intros Hm Himp w p r w' Hrun Htx.
  destruct (Hm _ _ _ _ Hrun Htx) as (Hf & sent & Htr & Hr).
  split; [done|]. exists sent. split; [done|].
  destruct r; [|done]. destruct Hr as (-> & Htx' & ws & Hmade & Hdb).
  split; [done|]. split; [done|]. exists ws. by auto.
Qed.

Lemma upsertMeter_runs v :
  runsStatements (Manager.upsertMeterCurrentStatus v) [UpsertMeterStatus]
    (fun ws => ∃ now, ws = [UpsertMeter v now]).
Proof.
  apply statement_runs. intros now w p Htx.
  exists (UpsertMeter v now). eexists. split; [done|].
  unfold QueryRunner.write. rewrite Htx. cbn. by eauto 10.
Qed.

Lemma upsertVehicle_runs v :
  runsStatements (Manager.upsertVehicleCurrentStatus v) [UpsertVehicleStatus]
    (fun ws => ∃ now, ws = [UpsertVehicle v now]).
Proof.
  apply statement_runs. intros now w p Htx.
  exists (UpsertVehicle v now). eexists. split; [done|].
  unfold QueryRunner.write. rewrite Htx. cbn. by eauto 10.
Qed.

Lemma insertMeter_runs vs :
  runsStatements (Manager.insertMeterTelemetryHistory vs) [InsertMeterHistory]
    (fun ws => ∃ seq now, ws = [AppendMeter (Store.meterHistoryRows vs seq now)]).
Proof.
  apply statement_runs. intros now w p Htx.
  exists (AppendMeter (Store.meterHistoryRows vs (meter_history_id_seq w) now)).
  eexists. split; [done|].
  unfold QueryRunner.write. rewrite Htx. cbn. by eauto 10.
Qed.

Lemma insertVehicle_runs vs :
  runsStatements (Manager.insertVehicleTelemetryHistory vs)
    [InsertVehicleHistory]
    (fun ws => ∃ seq now,
       ws = [AppendVehicle (Store.vehicleHistoryRows vs seq now)]).
Proof.
  apply statement_runs. intros now w p Htx.
  exists (AppendVehicle
            (Store.vehicleHistoryRows vs (vehicle_history_id_seq w) now)).
  eexists. split; [done|].
  unfold QueryRunner.write. rewrite Htx. cbn. by eauto 10.
Qed.

Lemma take_S_app_l {A} (l1 l2 : list A) k x :
  l1 !! k = Some x → take (S k) (l1 ++ l2) = take (S k) l1.
Proof.
  intros Hk. apply lookup_lt_Some in Hk. apply take_app_le. lia.
Qed.

Lemma take_S_app_r {A} (l1 l2 : list A) k :
  take (S (length l1 + k)) (l1 ++ l2) = l1 ++ take (S k) l2.
Proof.
  replace (S (length l1 + k)) with (length l1 + S k)%nat by lia.
  apply take_app_add.
Qed.

Lemma runsStatements_bind (m k : Async unit) calls1 calls2
    (made1 made2 : list Write → Prop) :
  runsStatements m calls1 made1 → runsStatements k calls2 made2 →
  runsStatements (m ;; k) (calls1 ++ calls2)
    (fun ws => ∃ ws1 ws2, ws = ws1 ++ ws2 ∧ made1 ws1 ∧ made2 ws2).
Proof.
  intros Hm Hk w p r w' Hrun Htx. rewrite bind_run in Hrun.
  destruct (m w) as [[[]|e] w1] eqn:Em.
  - destruct (Hm _ _ _ _ Em Htx)
      as (Hf1 & Hdb1 & sent1 & ws1 & Htr1 & Htx1 & -> & Hmade1).
    destruct (Hk _ _ _ _ Hrun Htx1)
      as (Hf2 & Hdb2 & sent2 & ws2 & Htr2 & Htx2 & Hr).
    split; [congruence|]. split; [congruence|].
    exists (calls1 ++ sent2), (ws1 ++ ws2).
    split; [by rewrite Htr2, Htr1, app_assoc|].
    split; [by rewrite Htx2, app_assoc|].
    destruct r as [[]|e2].
    + destruct Hr as [-> Hmade2]. split; [done|]. by exists ws1, ws2.
    + destruct Hr as (k2 & c & -> & Hc & -> & Hfault).
      exists (length calls1 + k2)%nat, c.
      split; [by rewrite take_S_app_r|].
      split; [by rewrite lookup_app_r, Nat.add_comm, Nat.add_sub by lia|].
      split; [done|].
      by rewrite Hf1, Htr1, length_app, <- Nat.add_assoc in Hfault.
  - injection Hrun as <- <-.
    destruct (Hm _ _ _ _ Em Htx)
      as (Hf1 & Hdb1 & sent1 & ws1 & Htr1 & Htx1 & k1 & c & -> & Hc & ->
          & Hfault).
    split; [done|]. split; [done|]. eexists _, ws1.
    split; [done|]. split; [done|].
    exists k1, c. split; [by erewrite take_S_app_l|].
    split; [by apply lookup_app_l_Some|done].
Qed.

Lemma runsBody_bind (m k : Async unit) calls1 calls2
    (made1 made2 : list Write → Prop) :
  runsStatements m calls1 made1 → runsBody k calls2 made2 →
  runsBody (m ;; k) (calls1 ++ calls2)
    (fun ws => ∃ ws1 ws2, ws = ws1 ++ ws2 ∧ made1 ws1 ∧ made2 ws2).
Proof.
  intros Hm Hk w p r w' Hrun Htx. rewrite bind_run in Hrun.
  destruct (m w) as [[[]|e] w1] eqn:Em.
  - destruct (Hm _ _ _ _ Em Htx)
      as (Hf1 & Hdb1 & sent1 & ws1 & Htr1 & Htx1 & -> & Hmade1).
    destruct (Hk _ _ _ _ Hrun Htx1) as (Hf2 & sent2 & Htr2 & Hr).
    split; [congruence|].
    exists (calls1 ++ sent2). split; [by rewrite Htr2, Htr1, app_assoc|].
    destruct r as [[]|e2].
    + destruct Hr as (-> & Htx2 & ws2 & Hmade2 & Hdb2).
      split; [done|]. split; [done|]. exists (ws1 ++ ws2).
      split; [by exists ws1, ws2|]. by rewrite Hdb2, Hdb1, app_assoc.
    + destruct Hr as (Hdb2 & (ws2 & Htx2) & k2 & c & -> & Hc & -> & Hfault).
      split; [congruence|].
      split; [exists (ws1 ++ ws2); by rewrite Htx2, app_assoc|].
      exists (length calls1 + k2)%nat, c.
      split; [by rewrite take_S_app_r|].
      split; [by rewrite lookup_app_r, Nat.add_comm, Nat.add_sub by lia|].
      split; [done|].
      by rewrite Hf1, Htr1, length_app, <- Nat.add_assoc in Hfault.
  - injection Hrun as <- <-.
    destruct (Hm _ _ _ _ Em Htx)
      as (Hf1 & Hdb1 & sent1 & ws1 & Htr1 & Htx1 & k1 & c & -> & Hc & ->
          & Hfault).
    split; [done|]. eexists. split; [done|]. split; [done|].
    split; [by exists ws1|].
    exists k1, c. split; [by erewrite take_S_app_l|].
    split; [by apply lookup_app_l_Some|done].
Qed.

Lemma forOf_upsertMeter_runs (data : list MeterTelemetryDto.t) :
  runsStatements
    (forOf data (fun item =>
       Manager.upsertMeterCurrentStatus
         (IngestionService.meterStatusValues item)))
    (replicate (length data) UpsertMeterStatus)
    (fun ws => ∃ items, map fst items = data ∧
       ws = map (fun item =>
                   UpsertMeter (IngestionService.meterStatusValues item.1)
                               item.2) items).
Proof.
  induction data as [|d rest IH]; cbn [forOf].
  - intros w p r w' [= <- <-] Htx. split; [done|]. split; [done|].
    exists [], []. split; [by rewrite app_nil_r|].
    split; [by rewrite app_nil_r|]. split; [done|]. by exists [].
  - eapply runsStatements_weaken.
    + apply (runsStatements_bind _ _ [UpsertMeterStatus] _ _ _
               (upsertMeter_runs _) IH).
    + intros ws (ws1 & ws2 & -> & [now ->] & items & <- & ->).
      by exists ((d, now) :: items).
Qed.

Lemma forOf_upsertVehicle_runs (data : list VehicleTelemetryDto.t) :
  runsStatements
    (forOf data (fun item =>
       Manager.upsertVehicleCurrentStatus
         (IngestionService.vehicleStatusValues item)))
    (replicate (length data) UpsertVehicleStatus)
    (fun ws => ∃ items, map fst items = data ∧
       ws = map (fun item =>
                   UpsertVehicle (IngestionService.vehicleStatusValues item.1)
                                 item.2) items).
Proof.
  induction data as [|d rest IH]; cbn [forOf].
  - intros w p r w' [= <- <-] Htx. split; [done|]. split; [done|].
    exists [], []. split; [by rewrite app_nil_r|].
    split; [by rewrite app_nil_r|]. split; [done|]. by exists [].
  - eapply runsStatements_weaken.
    + apply (runsStatements_bind _ _ [UpsertVehicleStatus] _ _ _
               (upsertVehicle_runs _) IH).
    + intros ws (ws1 & ws2 & -> & [now ->] & items & <- & ->).
      by exists ((d, now) :: items).
Qed.

Lemma commit_runs :
  runsBody QueryRunner.commitTransaction [CommitTransaction]
           (fun ws => ws = []).
Proof.
  intros w p r w' Hrun Htx. revert Hrun.
  unfold QueryRunner.commitTransaction, QueryRunner.call.
  destruct (faults w (length (trace w))) eqn:Ef.
  - intros [= <- <-]. split; [done|]. exists [CommitTransaction].
    split; [done|]. split; [done|].
    split; [exists []; by rewrite app_nil_r|].
    exists 0%nat, CommitTransaction. by rewrite Nat.add_0_r.
  - cbn. rewrite Htx. intros [= <- <-]. split; [done|].
    exists [CommitTransaction]. split; [done|]. split; [done|].
    split; [done|]. exists []. by rewrite app_nil_r.
Qed.

Lemma map_imap_id {A B C} (f : nat → A → B) (g : B → C) (h : A → C)
    (l : list A) :
  (∀ i x, g (f i x) = h x) → map g (imap f l) = map h l.
Proof.
  revert f. induction l as [|x l IH]; intros f Hfg; [done|].
  cbn. rewrite Hfg. f_equal. apply IH. intros i y. apply Hfg.
Qed.

Lemma meterEntryValues_rows vs seq now :
  map meterEntryValues (Store.meterHistoryRows vs seq now) =
    map Store.meterHistoryColumns vs.
Proof.
  unfold Store.meterHistoryRows. apply map_imap_id. by intros i [].
Qed.

Lemma vehicleEntryValues_rows vs seq now :
  map vehicleEntryValues (Store.vehicleHistoryRows vs seq now) =
    map Store.vehicleHistoryColumns vs.
Proof.
  unfold Store.vehicleHistoryRows. apply map_imap_id. by intros i [].
Qed.

(** The bodies of the four methods. *)
Lemma meterBody_runs (data : list MeterTelemetryDto.t) :
  runsBody
    (forOf data (fun item =>
       Manager.upsertMeterCurrentStatus
         (IngestionService.meterStatusValues item)) ;;
     Manager.insertMeterTelemetryHistory
       (map IngestionService.meterHistoryValues data) ;;
     QueryRunner.commitTransaction)
    ((replicate (length data) UpsertMeterStatus ++ [InsertMeterHistory]) ++
     [CommitTransaction])
    (meterWrites data).
Proof.
  rewrite <- app_assoc. eapply runsBody_weaken.
  - apply runsBody_bind; [apply forOf_upsertMeter_runs|].
    apply (runsBody_bind _ _ [InsertMeterHistory]);
      [apply insertMeter_runs|apply commit_runs].
  - intros ws (ws1 & ws2 & -> & (items & Hitems & ->)
               & ws3 & ws4 & -> & (seq & now & ->) & ->).
    exists items, (Store.meterHistoryRows
                     (map IngestionService.meterHistoryValues data) seq now).
    split; [done|]. split; [by rewrite app_nil_r|].
    rewrite meterEntryValues_rows. unfold storedMeter.
    by rewrite map_map.
Qed.

Lemma vehicleBody_runs (data : list VehicleTelemetryDto.t) :
  runsBody
    (forOf data (fun item =>
       Manager.upsertVehicleCurrentStatus
         (IngestionService.vehicleStatusValues item)) ;;
     Manager.insertVehicleTelemetryHistory
       (map IngestionService.vehicleHistoryValues data) ;;
     QueryRunner.commitTransaction)
    ((replicate (length data) UpsertVehicleStatus ++
      [InsertVehicleHistory]) ++ [CommitTransaction])
    (vehicleWrites data).
Proof.
  rewrite <- app_assoc. eapply runsBody_weaken.
  - apply runsBody_bind; [apply forOf_upsertVehicle_runs|].
    apply (runsBody_bind _ _ [InsertVehicleHistory]);
      [apply insertVehicle_runs|apply commit_runs].
  - intros ws (ws1 & ws2 & -> & (items & Hitems & ->)
               & ws3 & ws4 & -> & (seq & now & ->) & ->).
    exists items, (Store.vehicleHistoryRows
                     (map IngestionService.vehicleHistoryValues data) seq now).
    split; [done|]. split; [by rewrite app_nil_r|].
    rewrite vehicleEntryValues_rows. unfold storedVehicle.
    by rewrite map_map.
Qed.

Lemma meterSingle_runs (data : MeterTelemetryDto.t) :
  runsBody
    (Manager.upsertMeterCurrentStatus
       (IngestionService.meterStatusValues data) ;;
     Manager.insertMeterTelemetryHistory
       [IngestionService.meterHistoryValues data] ;;
     QueryRunner.commitTransaction)
    ([UpsertMeterStatus; InsertMeterHistory] ++ [CommitTransaction])
    (meterWrites [data]).
Proof.
  eapply runsBody_weaken.
  - apply (runsBody_bind _ _ [UpsertMeterStatus]); [apply upsertMeter_runs|].
    apply (runsBody_bind _ _ [InsertMeterHistory]);
      [apply insertMeter_runs|apply commit_runs].
  - intros ws (ws1 & ws2 & -> & (now1 & ->)
               & ws3 & ws4 & -> & (seq & now & ->) & ->).
    exists [(data, now1)],
           (Store.meterHistoryRows
              [IngestionService.meterHistoryValues data] seq now).
    split; [done|]. split; [done|]. by rewrite meterEntryValues_rows.
Qed.

Lemma vehicleSingle_runs (data : VehicleTelemetryDto.t) :
  runsBody
    (Manager.upsertVehicleCurrentStatus
       (IngestionService.vehicleStatusValues data) ;;
     Manager.insertVehicleTelemetryHistory
       [IngestionService.vehicleHistoryValues data] ;;
     QueryRunner.commitTransaction)
    ([UpsertVehicleStatus; InsertVehicleHistory] ++ [CommitTransaction])
    (vehicleWrites [data]).
Proof.
  eapply runsBody_weaken.
  - apply (runsBody_bind _ _ [UpsertVehicleStatus]);
      [apply upsertVehicle_runs|].
    apply (runsBody_bind _ _ [InsertVehicleHistory]);
      [apply insertVehicle_runs|apply commit_runs].
  - intros ws (ws1 & ws2 & -> & (now1 & ->)
               & ws3 & ws4 & -> & (seq & now & ->) & ->).
    exists [(data, now1)],
           (Store.vehicleHistoryRows
              [IngestionService.vehicleHistoryValues data] seq now).
    split; [done|]. split; [done|]. by rewrite vehicleEntryValues_rows.
Qed.

(** A whole transaction, by outcome. *)
Lemma transaction_runs (body : Async unit) (calls : list DriverCall)
    (made : list Write → Prop) :
  runsBody body calls made →
  ∀ w r w', transaction body w = (r, w') →
    faults w' = faults w ∧
    ∃ sent, trace w' = trace w ++ sent ∧
      match r with
      | Returned _ =>
          sent = [Connect; StartTransaction] ++ calls ++ [Release] ∧
          tx w' = None ∧
          ∃ writes, made writes ∧
            db w' = Store.applyAll (pending w ++ writes) (db w)
      | Thrown e =>
          db w' = db w ∧
          ((e = PersistenceError Connect ∧ sent = [Connect] ∧
            faults w (length (trace w)) = true ∧ tx w' = tx w) ∨
           (e = PersistenceError StartTransaction ∧
            sent = [Connect; StartTransaction] ∧
            faults w (length (trace w) + 1) = true ∧ tx w' = tx w) ∨
           (∃ k c, calls !! k = Some c ∧
              sent = [Connect; StartTransaction] ++ take (S k) calls ++
                     [RollbackTransaction; Release] ∧
              faults w (length (trace w) + 2 + k) = true ∧
              if faults w (length (trace w) + 2 + S k)
              then e = PersistenceError RollbackTransaction ∧
                   ∃ writes, tx w' = Some (pending w ++ writes)
              else e = PersistenceError c ∧ tx w' = None))
      end.
Proof.
  intros Hbody w r w'. unfold transaction.
  rewrite bind_run. unfold QueryRunner.connect at 1, QueryRunner.call at 1.
  destruct (faults w (length (trace w))) eqn:Ef0.
  { intros [= <- <-]. split; [done|]. exists [Connect].
    split; [done|]. split; [done|]. by left. }
  rewrite bind_run.
  unfold QueryRunner.startTransaction at 1, QueryRunner.call at 1.
  destruct (faults (log_call Connect w) _) eqn:Ef1.
  { intros [= <- <-]. split; [done|]. exists [Connect; StartTransaction].
    split; [cbn; by rewrite <- app_assoc|]. split; [done|]. right. left.
    split; [done|]. split; [done|]. split; [|done].
    cbn [log_call faults trace] in Ef1. by rewrite length_app in Ef1. }
  set (started := match tx (log_call StartTransaction (log_call Connect w))
                  with Some _ => _ | None => _ end).
  assert (∃ w2, started = Some w2 ∧
            trace w2 = trace w ++ [Connect; StartTransaction] ∧
            faults w2 = faults w ∧ db w2 = db w ∧
            tx w2 = Some (pending w)) as (w2 & -> & Htr2 & Hf2 & Hdb2 & Htx2).
  { unfold started, pending. cbn [tx log_call].
    destruct (tx w) as [p|] eqn:Htx; eexists; (split; [done|]); cbn;
      rewrite <- ?app_assoc, ?Htx; done. }
  assert (Hlen2 : length (trace w2) = (length (trace w) + 2)%nat)
    by (by rewrite Htr2, length_app).
  unfold tryCatchFinally.
  destruct (body w2) as [[[]|e3] w3] eqn:Ebody.
  - destruct (Hbody _ _ _ _ Ebody Htx2)
      as (Hf3 & sent3 & Htr3 & -> & Htx3 & ws & Hmade & Hdb3).
    unfold QueryRunner.release. intros [= <- <-].
    split; [cbn; congruence|].
    eexists. split; [|split; [reflexivity|]].
    + cbn [trace log_call]. rewrite Htr3, Htr2. by rewrite <- !app_assoc.
    + split; [done|]. exists ws. split; [done|]. cbn. by rewrite Hdb3, Hdb2.
  - destruct (Hbody _ _ _ _ Ebody Htx2)
      as (Hf3 & sent3 & Htr3 & Hdb3 & (ws & Htx3) & k & c & -> & Hc & ->
          & Hfault).
    rewrite Hf2, Hlen2 in Hfault.
    rewrite bind_run.
    unfold QueryRunner.rollbackTransaction, QueryRunner.call.
    assert (Hidx : length (trace w3) = (length (trace w) + 2 + S k)%nat).
    { rewrite Htr3, Htr2, !length_app, length_take.
      apply lookup_lt_Some in Hc. cbn [length]. lia. }
    rewrite Hidx, Hf3, Hf2.
    destruct (faults w (length (trace w) + 2 + S k)) eqn:Ef.
    + unfold QueryRunner.release. intros [= <- <-].
      split; [cbn; congruence|].
      eexists. split; [|split; [cbn; congruence|]].
      * cbn [trace log_call]. rewrite Htr3, Htr2. by rewrite <- !app_assoc.
      * right. right. exists k, c. split; [done|]. split; [reflexivity|].
        split; [done|]. rewrite Ef. split; [done|]. by exists ws.
    + cbn. rewrite Htx3. unfold throw, QueryRunner.release.
      intros [= <- <-].
      split; [cbn; congruence|].
      eexists. split; [|split; [cbn; congruence|]].
      * cbn [trace log_call set_tx]. rewrite Htr3, Htr2.
        by rewrite <- !app_assoc.
      * right. right. exists k, c. split; [done|]. split; [reflexivity|].
        split; [done|]. by rewrite Ef.
Qed.

(** The four methods, by outcome. *)
Lemma callService_runs request w r w' :
  opensTransaction request = true →
  callService request w = (r, w') →
  faults w' = faults w ∧
  ∃ sent, trace w' = trace w ++ sent ∧
    match r with
    | Returned _ =>
        sent = [Connect; StartTransaction] ++
               (statementsOf request ++ [CommitTransaction]) ++ [Release] ∧
        tx w' = None ∧
        ∃ writes, writesOf request writes ∧
          db w' = Store.applyAll (pending w ++ writes) (db w)
    | Thrown e =>
        db w' = db w ∧
        ((e = PersistenceError Connect ∧ sent = [Connect] ∧
          faults w (length (trace w)) = true ∧ tx w' = tx w) ∨
         (e = PersistenceError StartTransaction ∧
          sent = [Connect; StartTransaction] ∧
          faults w (length (trace w) + 1) = true ∧ tx w' = tx w) ∨
         (∃ k c, (statementsOf request ++ [CommitTransaction]) !! k = Some c ∧
            sent = [Connect; StartTransaction] ++
                   take (S k) (statementsOf request ++ [CommitTransaction]) ++
                   [RollbackTransaction; Release] ∧
            faults w (length (trace w) + 2 + k) = true ∧
            if faults w (length (trace w) + 2 + S k)
            then e = PersistenceError RollbackTransaction ∧
                 ∃ writes, tx w' = Some (pending w ++ writes)
            else e = PersistenceError c ∧ tx w' = None))
    end.
Proof.
  intros Hopen.
  destruct request as [data|data|data|data];
    cbn [callService statementsOf writesOf].
  - apply transaction_runs, meterSingle_runs.
  - apply transaction_runs, vehicleSingle_runs.
  - unfold IngestionService.ingestMeterBatch.
    destruct data as [|d rest]; [done|]. cbn [length Nat.eqb].
    apply transaction_runs, (meterBody_runs (d :: rest)).
  - unfold IngestionService.ingestVehicleBatch.
    destruct data as [|d rest]; [done|]. cbn [length Nat.eqb].
    apply transaction_runs, (vehicleBody_runs (d :: rest)).
Qed.

(** An empty batch does nothing at all. *)
Lemma callService_empty request w :
  opensTransaction request = false →
  callService request w = (Returned tt, w).
Proof. by destruct request as [?|?|[|??]|[|??]]. Qed.

Lemma callService_thrown_db request w e w' :
  callService request w = (Thrown e, w') → db w' = db w.
Proof.
  intros Hrun. destruct (opensTransaction request) eqn:Hopen.
  - by destruct (callService_runs _ _ _ _ Hopen Hrun) as (_ & _ & _ & ? & _).
  - by rewrite (callService_empty _ _ Hopen) in Hrun.
Qed.

End Transactions.

(** ** What the writes of a transaction leave in the tables *)

Section Effects.
Context `{Platform}.

Lemma committedBy_refl (t : Tables) : committedBy [] [] t t.
Proof.
  split; [by exists []|]. split; [by exists []|].
  split; exists []; by rewrite app_nil_r.
Qed.

Lemma upsertMeterMap_app items1 items2 m :
  upsertMeterMap (items1 ++ items2) m =
    upsertMeterMap items2 (upsertMeterMap items1 m).
Proof. apply foldl_app. Qed.

Lemma upsertVehicleMap_app items1 items2 m :
  upsertVehicleMap (items1 ++ items2) m =
    upsertVehicleMap items2 (upsertVehicleMap items1 m).
Proof. apply foldl_app. Qed.

Lemma committedBy_trans meters1 vehicles1 meters2 vehicles2 t1 t2 t3 :
  committedBy meters1 vehicles1 t1 t2 →
  committedBy meters2 vehicles2 t2 t3 →
  committedBy (meters1 ++ meters2) (vehicles1 ++ vehicles2) t1 t3.
Proof.
  intros ((i1 & Hi1 & Hm1) & (j1 & Hj1 & Hv1) & (e1 & He1 & Hf1)
          & (g1 & Hg1 & Hh1))
         ((i2 & Hi2 & Hm2) & (j2 & Hj2 & Hv2) & (e2 & He2 & Hf2)
          & (g2 & Hg2 & Hh2)).
  split; [|split; [|split]].
  - exists (i1 ++ i2). rewrite map_app, Hi1, Hi2. split; [done|].
    by rewrite upsertMeterMap_app, <- Hm1.
  - exists (j1 ++ j2). rewrite map_app, Hj1, Hj2. split; [done|].
    by rewrite upsertVehicleMap_app, <- Hv1.
  - exists (e1 ++ e2). rewrite map_app, Hf1, Hf2, map_app.
    split; [|done]. by rewrite He2, He1, app_assoc.
  - exists (g1 ++ g2). rewrite map_app, Hh1, Hh2, map_app.
    split; [|done]. by rewrite Hg2, Hg1, app_assoc.
Qed.

Lemma upsertMeterMap_cons d now items m :
  upsertMeterMap ((d, now) :: items) m =
    upsertMeterMap items
      (<[MeterTelemetryDto.meterId d :=
           meterRowOf d
             match m !! MeterTelemetryDto.meterId d with
             | Some old => MeterCurrentStatus.createdAt old
             | None => now
             end]> m).
Proof. reflexivity. Qed.

Lemma upsertVehicleMap_cons d now items m :
  upsertVehicleMap ((d, now) :: items) m =
    upsertVehicleMap items
      (<[VehicleTelemetryDto.vehicleId d :=
           vehicleRowOf d
             match m !! VehicleTelemetryDto.vehicleId d with
             | Some old => VehicleCurrentStatus.createdAt old
             | None => now
             end]> m).
Proof. reflexivity. Qed.

Lemma upsertMeterMap_frame items m device :
  Forall (fun x => MeterTelemetryDto.meterId x ≠ device) (map fst items) →
  upsertMeterMap items m !! device = m !! device.
Proof.
  revert m. induction items as [|[d now] items IH]; intros m; [done|].
  cbn [map fst]. intros Hall. apply Forall_cons in Hall as [Hd Hall].
  rewrite upsertMeterMap_cons, (IH _ Hall). by rewrite lookup_insert_ne.
Qed.

Lemma upsertVehicleMap_frame items m device :
  Forall (fun x => VehicleTelemetryDto.vehicleId x ≠ device) (map fst items) →
  upsertVehicleMap items m !! device = m !! device.
Proof.
  revert m. induction items as [|[d now] items IH]; intros m; [done|].
  cbn [map fst]. intros Hall. apply Forall_cons in Hall as [Hd Hall].
  rewrite upsertVehicleMap_cons, (IH _ Hall). by rewrite lookup_insert_ne.
Qed.

Lemma upsertMeterMap_last items m pre r suf :
  map fst items = pre ++ r :: suf →
  Forall (fun x => MeterTelemetryDto.meterId x ≠ MeterTelemetryDto.meterId r)
         suf →
  ∃ created,
    upsertMeterMap items m !! MeterTelemetryDto.meterId r =
      Some (meterRowOf r created).
Proof.
  intros Hitems Hsuf.
  apply fmap_app_inv in Hitems as (ipre & irest & -> & Hrest & ->).
  symmetry in Hrest.
  apply fmap_cons_inv in Hrest as ([r' now] & isuf & Hr & -> & ->).
  cbn in Hr. subst r'.
  rewrite upsertMeterMap_app.
  rewrite upsertMeterMap_cons, (upsertMeterMap_frame _ _ _ Hsuf).
  rewrite lookup_insert_eq. by eexists.
Qed.

Lemma upsertVehicleMap_last items m pre r suf :
  map fst items = pre ++ r :: suf →
  Forall (fun x => VehicleTelemetryDto.vehicleId x ≠
                   VehicleTelemetryDto.vehicleId r) suf →
  ∃ created,
    upsertVehicleMap items m !! VehicleTelemetryDto.vehicleId r =
      Some (vehicleRowOf r created).
Proof.
  intros Hitems Hsuf.
  apply fmap_app_inv in Hitems as (ipre & irest & -> & Hrest & ->).
  symmetry in Hrest.
  apply fmap_cons_inv in Hrest as ([r' now] & isuf & Hr & -> & ->).
  cbn in Hr. subst r'.
  rewrite upsertVehicleMap_app.
  rewrite upsertVehicleMap_cons, (upsertVehicleMap_frame _ _ _ Hsuf).
  rewrite lookup_insert_eq. by eexists.
Qed.

Lemma upsertMeterMap_created items m device old :
  m !! device = Some old →
  ∃ row, upsertMeterMap items m !! device = Some row ∧
         MeterCurrentStatus.createdAt row = MeterCurrentStatus.createdAt old.
Proof.
  revert m old. induction items as [|[d now] items IH]; intros m old Hold.
  - by exists old.
  - rewrite upsertMeterMap_cons.
    destruct (decide (MeterTelemetryDto.meterId d = device)) as [Heq|Hne];
      [subst device|].
    + rewrite Hold.
      destruct (IH (<[MeterTelemetryDto.meterId d :=
                       meterRowOf d (MeterCurrentStatus.createdAt old)]> m)
                   (meterRowOf d (MeterCurrentStatus.createdAt old)))
        as (row & Hrow & Hc); [by rewrite lookup_insert_eq|].
      by exists row.
    + destruct (IH (<[MeterTelemetryDto.meterId d :=
                       meterRowOf d
                         match m !! MeterTelemetryDto.meterId d with
                         | Some o => MeterCurrentStatus.createdAt o
                         | None => now
                         end]> m) old)
        as (row & Hrow & Hc); [by rewrite lookup_insert_ne|].
      by exists row.
Qed.

Lemma upsertVehicleMap_created items m device old :
  m !! device = Some old →
  ∃ row, upsertVehicleMap items m !! device = Some row ∧
         VehicleCurrentStatus.createdAt row =
           VehicleCurrentStatus.createdAt old.
Proof.
  revert m old. induction items as [|[d now] items IH]; intros m old Hold.
  - by exists old.
  - rewrite upsertVehicleMap_cons.
    destruct (decide (VehicleTelemetryDto.vehicleId d = device)) as [Heq|Hne];
      [subst device|].
    + rewrite Hold.
      destruct (IH (<[VehicleTelemetryDto.vehicleId d :=
                       vehicleRowOf d (VehicleCurrentStatus.createdAt old)]> m)
                   (vehicleRowOf d (VehicleCurrentStatus.createdAt old)))
        as (row & Hrow & Hc); [by rewrite lookup_insert_eq|].
      by exists row.
    + destruct (IH (<[VehicleTelemetryDto.vehicleId d :=
                       vehicleRowOf d
                         match m !! VehicleTelemetryDto.vehicleId d with
                         | Some o => VehicleCurrentStatus.createdAt o
                         | None => now
                         end]> m) old)
        as (row & Hrow & Hc); [by rewrite lookup_insert_ne|].
      by exists row.
Qed.

Lemma length_filter_map {A B} (f : A → B) (P : B → Prop) (Q : A → Prop)
    `{!∀ y, Decision (P y)} `{!∀ x, Decision (Q x)} (l : list A) :
  (∀ x, Q x ↔ P (f x)) →
  length (filter P (map f l)) = length (filter Q l).
Proof.
  intros HPQ. induction l as [|x l IH]; [done|]. cbn [map].
  destruct (decide (Q x)) as [Hx|Hx].
  - rewrite (filter_cons_True P) by (by apply HPQ).
    rewrite (filter_cons_True Q) by done. cbn. by rewrite IH.
  - rewrite (filter_cons_False P) by (by rewrite <- HPQ).
    by rewrite (filter_cons_False Q).
Qed.

Lemma meterEntries_count entries (records : list MeterTelemetryDto.t) device :
  map meterEntryValues entries =
    map storedMeter records →
  length (filter (fun h => MeterTelemetryHistory.meterId h = device) entries) =
  length (filter (fun r => MeterTelemetryDto.meterId r = device) records).
Proof.
  intros Hmap.
  rewrite <- (length_filter_map meterEntryValues
                (fun v => MeterHistoryValues.meterId v = device)
                (fun h => MeterTelemetryHistory.meterId h = device)) by done.
  rewrite Hmap. by apply length_filter_map.
Qed.

Lemma vehicleEntries_count entries (records : list VehicleTelemetryDto.t)
    device :
  map vehicleEntryValues entries =
    map storedVehicle records →
  length (filter (fun h => VehicleTelemetryHistory.vehicleId h = device)
                 entries) =
  length (filter (fun r => VehicleTelemetryDto.vehicleId r = device) records).
Proof.
  intros Hmap.
  rewrite <- (length_filter_map vehicleEntryValues
                (fun v => VehicleHistoryValues.vehicleId v = device)
                (fun h => VehicleTelemetryHistory.vehicleId h = device))
    by done.
  rewrite Hmap. by apply length_filter_map.
Qed.

Lemma applyAll_app ws1 ws2 t :
  Store.applyAll (ws1 ++ ws2) t = Store.applyAll ws2 (Store.applyAll ws1 t).
Proof. apply foldl_app. Qed.

Lemma applyAll_cons write ws t :
  Store.applyAll (write :: ws) t = Store.applyAll ws (Store.applyWrite write t).
Proof. reflexivity. Qed.

Lemma applyAll_meterUpserts (items : list (MeterTelemetryDto.t * Z)) t :
  Store.applyAll
    (map (fun item =>
            UpsertMeter (IngestionService.meterStatusValues item.1) item.2)
         items) t =
  mkTables (upsertMeterMap items (meter_current_status t))
           (vehicle_current_status t) (meter_telemetry_history t)
           (vehicle_telemetry_history t).
Proof.
  revert t. induction items as [|[d now] items IH]; intros t.
  - by destruct t.
  - cbn [map]. rewrite applyAll_cons, IH. reflexivity.
Qed.

Lemma applyAll_vehicleUpserts (items : list (VehicleTelemetryDto.t * Z)) t :
  Store.applyAll
    (map (fun item =>
            UpsertVehicle (IngestionService.vehicleStatusValues item.1)
                          item.2)
         items) t =
  mkTables (meter_current_status t)
           (upsertVehicleMap items (vehicle_current_status t))
           (meter_telemetry_history t) (vehicle_telemetry_history t).
Proof.
  revert t. induction items as [|[d now] items IH]; intros t.
  - by destruct t.
  - cbn [map]. rewrite applyAll_cons, IH. reflexivity.
Qed.

Lemma meterWrites_committed records writes t :
  meterWrites records writes →
  committedBy records [] t (Store.applyAll writes t).
Proof.
  intros (items & rows & Hitems & -> & Hrows).
  rewrite applyAll_app, applyAll_meterUpserts. cbn.
  split; [by exists items|]. split; [by exists []|]. split.
  - by exists rows.
  - exists []. by rewrite app_nil_r.
Qed.

Lemma vehicleWrites_committed records writes t :
  vehicleWrites records writes →
  committedBy [] records t (Store.applyAll writes t).
Proof.
  intros (items & rows & Hitems & -> & Hrows).
  rewrite applyAll_app, applyAll_vehicleUpserts. cbn.
  split; [by exists []|]. split; [by exists items|]. split.
  - exists []. by rewrite app_nil_r.
  - by exists rows.
Qed.

Lemma writesOf_committed request writes t :
  writesOf request writes →
  committedBy (meterRecords request) (vehicleRecords request) t
              (Store.applyAll writes t).
Proof.
  destruct request; cbn [writesOf meterRecords vehicleRecords].
  - apply meterWrites_committed.
  - apply vehicleWrites_committed.
  - apply meterWrites_committed.
  - apply vehicleWrites_committed.
Qed.

(** No write deletes a Current-State row or changes its creation time. *)
Lemma applyAll_created writes t :
  (∀ device old, meter_current_status t !! device = Some old →
     ∃ row, meter_current_status (Store.applyAll writes t) !! device
              = Some row ∧
            MeterCurrentStatus.createdAt row =
              MeterCurrentStatus.createdAt old) ∧
  (∀ device old, vehicle_current_status t !! device = Some old →
     ∃ row, vehicle_current_status (Store.applyAll writes t) !! device
              = Some row ∧
            VehicleCurrentStatus.createdAt row =
              VehicleCurrentStatus.createdAt old).
Proof.
  revert t. induction writes as [|write writes IH]; intros t.
  { split; intros device old Hold; by exists old. }
  rewrite applyAll_cons.
  destruct (IH (Store.applyWrite write t)) as [IHm IHv].
  split; intros device old Hold.
  - assert (∃ mid, meter_current_status (Store.applyWrite write t) !! device
                     = Some mid ∧
                   MeterCurrentStatus.createdAt mid =
                     MeterCurrentStatus.createdAt old) as (mid & Hmid & Hc).
    { destruct write as [v now|v now|rows|rows]; cbn; try by exists old.
      destruct (decide (MeterStatusValues.meterId v = device)) as [->|Hne].
      - rewrite lookup_insert_eq, Hold. by eexists.
      - rewrite lookup_insert_ne by done. by exists old. }
    destruct (IHm _ _ Hmid) as (row & Hrow & Hc'). exists row.
    split; [done|]. by rewrite Hc'.
  - assert (∃ mid, vehicle_current_status (Store.applyWrite write t) !! device
                     = Some mid ∧
                   VehicleCurrentStatus.createdAt mid =
                     VehicleCurrentStatus.createdAt old) as (mid & Hmid & Hc).
    { destruct write as [v now|v now|rows|rows]; cbn; try by exists old.
      destruct (decide (VehicleStatusValues.vehicleId v = device)) as [->|Hne].
      - rewrite lookup_insert_eq, Hold. by eexists.
      - rewrite lookup_insert_ne by done. by exists old. }
    destruct (IHv _ _ Hmid) as (row & Hrow & Hc'). exists row.
    split; [done|]. by rewrite Hc'.
Qed.

(** ** The committed state after a call and after a sequence of calls *)

(** Whatever its outcome, a call changes the committed state by applying
    writes to it. *)
Lemma callService_writes request w r w' :
  callService request w = (r, w') →
  ∃ writes, db w' = Store.applyAll writes (db w).
Proof.
  intros Hrun. destruct (opensTransaction request) eqn:Hopen.
  - destruct (callService_runs _ _ _ _ Hopen Hrun) as (_ & sent & _ & Hr).
    destruct r as [[]|e].
    + destruct Hr as (_ & _ & writes & _ & ->). by eexists.
    + destruct Hr as (-> & _). by exists [].
  - rewrite (callService_empty _ _ Hopen) in Hrun.
    injection Hrun as _ <-. by exists [].
Qed.

Lemma callEach_writes requests :
  ∀ w accepted w',
    callEach requests w = (accepted, w') →
    ∃ writes, db w' = Store.applyAll writes (db w).
Proof.
  induction requests as [|request rest IH]; intros w accepted w';
    cbn [callEach].
  - intros [= <- <-]. by exists [].
  - destruct (callService request w) as [r w1] eqn:Ecall.
    apply callService_writes in Ecall as (ws1 & E1).
    intros Hrun.
    assert (∃ acc, callEach rest w1 = (acc, w')) as (acc & Hrest).
    { destruct r as [[]|e]; [|by eexists].
      destruct (callEach rest w1) as [acc w2]. injection Hrun as _ <-.
      by eexists. } apply IH in Hrest as (ws2 & E2).
    exists (ws1 ++ ws2). by rewrite applyAll_app, <- E1.
Qed.

(** With no transaction left open on the connection, a call that returns
    commits its own records and nothing else, and closes its
    transaction. *)
Lemma callService_committed request w w' :
  tx w = None →
  callService request w = (Returned tt, w') →
  committedBy (meterRecords request) (vehicleRecords request) (db w) (db w') ∧
  tx w' = None.
Proof.
  intros Htx Hrun. destruct (opensTransaction request) eqn:Hopen.
  - destruct (callService_runs _ _ _ _ Hopen Hrun)
      as (_ & sent & _ & _ & Htx' & writes & Hwrites & ->).
    split; [|done]. unfold pending. rewrite Htx. cbn [default app].
    by apply writesOf_committed.
  - rewrite (callService_empty _ _ Hopen) in Hrun.
    injection Hrun as <-. split; [|done].
    destruct request as [?|?|[|??]|[|??]]; try done; apply committedBy_refl.
Qed.

Lemma callService_frame request w r w' :
  callService request w = (r, w') →
  faults w' = faults w ∧ ∃ sent, trace w' = trace w ++ sent.
Proof.
  intros Hrun. destruct (opensTransaction request) eqn:Hopen.
  - destruct (callService_runs _ _ _ _ Hopen Hrun) as (? & sent & ? & _).
    split; [done|]. by exists sent.
  - rewrite (callService_empty _ _ Hopen) in Hrun.
    injection Hrun as _ <-. split; [done|]. exists []. by rewrite app_nil_r.
Qed.

Lemma callEach_frame requests :
  ∀ w accepted w',
    callEach requests w = (accepted, w') →
    faults w' = faults w ∧ ∃ sent, trace w' = trace w ++ sent.
Proof.
  induction requests as [|request rest IH]; intros w accepted w';
    cbn [callEach].
  - intros [= <- <-]. split; [done|]. exists []. by rewrite app_nil_r.
  - destruct (callService request w) as [r w1] eqn:Ecall.
    apply callService_frame in Ecall as (Hf1 & s1 & Ht1).
    intros Hrun.
    assert (∃ acc, callEach rest w1 = (acc, w')) as (acc & Hrest).
    { destruct r as [[]|e]; [|by eexists].
      destruct (callEach rest w1) as [acc w2]. injection Hrun as _ <-.
      by eexists. } apply IH in Hrest as (Hf2 & s2 & Ht2).
    split; [congruence|]. exists (s1 ++ s2).
    by rewrite Ht2, Ht1, app_assoc.
Qed.

Lemma lookup_rollback {A} (pre : list A) a b l k x y :
  (k < length l)%nat →
  (pre ++ [a; b] ++ take (S k) l ++ [x; y]) !! (length pre + 2 + S k)%nat
    = Some x.
Proof.
  intros Hk.
  replace (pre ++ [a; b] ++ take (S k) l ++ [x; y])
    with ((pre ++ [a; b] ++ take (S k) l) ++ x :: [y])
    by (by rewrite <- !app_assoc).
  apply list_lookup_middle. rewrite !length_app, length_take.
  cbn [length]. lia.
Qed.

(** A failed call whose rollback went through leaves no transaction
    open. *)
Lemma callService_thrown_closed request w e w' :
  tx w = None → rollbacksSucceed w w' →
  callService request w = (Thrown e, w') →
  db w' = db w ∧ tx w' = None.
Proof.
  intros Htx Hroll Hrun. destruct (opensTransaction request) eqn:Hopen.
  2: { by rewrite (callService_empty _ _ Hopen) in Hrun. }
  destruct (callService_runs _ _ _ _ Hopen Hrun)
    as (_ & sent & Htr & Hdb & Hcase).
  split; [done|].
  destruct Hcase as [(_ & _ & _ & ->)|[(_ & _ & _ & ->)|Hcase]]; try done.
  destruct Hcase as (k & c & Hc & -> & _ & Hif).
  rewrite Hroll in Hif; [by destruct Hif|lia|].
  rewrite Htr. apply lookup_lt_Some in Hc. by apply lookup_rollback.
Qed.

Lemma rollbacksSucceed_first w w1 w' :
  (∃ sent, trace w' = trace w1 ++ sent) →
  rollbacksSucceed w w' → rollbacksSucceed w w1.
Proof.
  intros (sent & Htr) Hroll n Hn Hlook. apply Hroll; [done|].
  rewrite Htr. by apply lookup_app_l_Some.
Qed.

Lemma rollbacksSucceed_rest w w1 w' :
  faults w1 = faults w → (∃ sent, trace w1 = trace w ++ sent) →
  rollbacksSucceed w w' → rollbacksSucceed w1 w'.
Proof.
  intros Hf (sent & Htr) Hroll n Hn Hlook. rewrite Hf. apply Hroll; [|done].
  rewrite Htr, length_app in Hn. lia.
Qed.

(** With no transaction left open at the start and no rollback refused on
    the way, a sequence of calls commits the records of the calls that
    returned, in order, and nothing else. *)
Lemma callEach_committed requests :
  ∀ w accepted w',
    tx w = None → rollbacksSucceed w w' →
    callEach requests w = (accepted, w') →
    committedBy (flat_map meterRecords accepted)
                (flat_map vehicleRecords accepted) (db w) (db w') ∧
    tx w' = None.
Proof.
  induction requests as [|request rest IH]; intros w accepted w' Htx Hroll;
    cbn [callEach].
  - intros [= <- <-]. split; [apply committedBy_refl|done].
  - destruct (callService request w) as [r w1] eqn:Ecall.
    pose proof (callService_frame _ _ _ _ Ecall) as (Hf1 & Ht1).
    intros Hrun.
    assert (∃ acc, callEach rest w1 = (acc, w') ∧
                   accepted = match r with
                              | Returned _ => request :: acc
                              | Thrown _ => acc
                              end) as (acc & Hrest & Hacc).
    { destruct r as [[]|e]; [|by eexists].
      destruct (callEach rest w1) as [acc w2]. injection Hrun as <- <-.
      by eexists. }
    pose proof (callEach_frame _ _ _ _ Hrest) as (_ & Ht2).
    pose proof (rollbacksSucceed_first _ _ _ Ht2 Hroll) as Hroll1.
    pose proof (rollbacksSucceed_rest _ _ _ Hf1 Ht1 Hroll) as Hroll2.
    destruct r as [[]|e]; subst accepted.
    + apply callService_committed in Ecall as (Hc1 & Htx1); [|done].
      destruct (IH _ _ _ Htx1 Hroll2 Hrest) as (Hc2 & Htx2).
      split; [|done]. cbn [flat_map]. by eapply committedBy_trans.
    + apply callService_thrown_closed in Ecall as (Hdb1 & Htx1);
        [|done|done].
      destruct (IH _ _ _ Htx1 Hroll2 Hrest) as (Hc2 & Htx2).
      split; [|done]. by rewrite <- Hdb1.
Qed.

End Effects.

(** ** The four ingest operations: failure, success, repetition *)

Section Ingestion.
Context `{Platform}.

Lemma validationPipe_run {A} (validate : A → list string) (body : A) w :
  validationPipe validate body w =
    match validate body with
    | [] => (Returned body, w)
    | properties => (Thrown (ValidationError properties), w)
    end.
Proof. unfold validationPipe. by destruct (validate body). Qed.

(** After validation the outcome of a request is decided by the service
    method behind it. *)
Lemma then_respond_thrown (m : Async unit) (response : IngestResponse)
    w e w' :
  (m ;; ret response) w = (Thrown e, w') → m w = (Thrown e, w').
Proof.
  rewrite bind_run. destruct (m w) as [[[]|e1] w1]; [done|].
  by intros [= <- <-].
Qed.

Lemma then_respond_returned (m : Async unit) (response r : IngestResponse)
    w w' :
  (m ;; ret response) w = (Returned r, w') → m w = (Returned tt, w').
Proof.
  rewrite bind_run. destruct (m w) as [[[]|e1] w1]; [|done].
  by intros [= _ <-].
Qed.

Lemma ingest_thrown_db request w e w' :
  ingest request w = (Thrown e, w') → db w' = db w.
Proof.
  destruct request as [body|body|body|body]; cbn [ingest].
  - rewrite bind_run, validationPipe_run.
    destruct (Validators.validateMeterTelemetryDto body);
      [|by intros [= _ <-]].
    intros Hrun. apply then_respond_thrown in Hrun.
    by apply (callService_thrown_db (PostMeter body)) in Hrun.
  - rewrite bind_run, validationPipe_run.
    destruct (Validators.validateVehicleTelemetryDto body);
      [|by intros [= _ <-]].
    intros Hrun. apply then_respond_thrown in Hrun.
    by apply (callService_thrown_db (PostVehicle body)) in Hrun.
  - intros Hrun. apply then_respond_thrown in Hrun.
    by apply (callService_thrown_db (PostMeterBatch body)) in Hrun.
  - intros Hrun. apply then_respond_thrown in Hrun.
    by apply (callService_thrown_db (PostVehicleBatch body)) in Hrun.
Qed.

Lemma ingest_PostMeter_returned body w r w' :
  ingest (PostMeter body) w = (Returned r, w') →
  IngestionService.ingestMeterTelemetry body w = (Returned tt, w').
Proof.
  cbn [ingest]. rewrite bind_run, validationPipe_run.
  destruct (Validators.validateMeterTelemetryDto body); [|done].
  apply then_respond_returned.
Qed.

Lemma ingest_PostVehicle_returned body w r w' :
  ingest (PostVehicle body) w = (Returned r, w') →
  IngestionService.ingestVehicleTelemetry body w = (Returned tt, w').
Proof.
  cbn [ingest]. rewrite bind_run, validationPipe_run.
  destruct (Validators.validateVehicleTelemetryDto body); [|done].
  apply then_respond_returned.
Qed.

Lemma ingestSucceeds_callService request w w' :
  ingestSucceeds request w w' → callService request w = (Returned tt, w').
Proof.
  intros [[response Hrun]|Hrun]; [|done].
  destruct request; cbn [callService].
  - by eapply ingest_PostMeter_returned.
  - by eapply ingest_PostVehicle_returned.
  - by eapply then_respond_returned.
  - by eapply then_respond_returned.
Qed.

Ltac run_transaction :=
  unfold tryCatchFinally, QueryRunner.connect,
    QueryRunner.startTransaction, QueryRunner.commitTransaction,
    QueryRunner.rollbackTransaction, QueryRunner.release,
    Manager.upsertMeterCurrentStatus, Manager.upsertVehicleCurrentStatus,
    Manager.insertMeterTelemetryHistory,
    Manager.insertVehicleTelemetryHistory, QueryRunner.call,
    QueryRunner.write, mbind, Async_bind, bind, throw;
  cbn;
  repeat match goal with
         | Htx : tx _ = _ |- _ => rewrite Htx; cbn
         end;
  repeat (match goal with
          | |- context [faults ?w ?n] => destruct (faults w n)
          end; cbn;
          repeat match goal with
                 | Htx : tx _ = _ |- _ => rewrite Htx; cbn
                 end;
          try discriminate).

(** What a successful single ingest commits: its two writes, after those
    of a transaction left open on the connection, if any. *)
Lemma ingestMeterTelemetry_returned data w w' :
  IngestionService.ingestMeterTelemetry data w = (Returned tt, w') →
  ∃ now1 now2,
    db w' =
      Store.appendMeterHistory
        (Store.meterHistoryRows
           [IngestionService.meterHistoryValues data]
           (meter_history_id_seq w) now2)
        (Store.upsertMeterRow
           (IngestionService.meterStatusValues data) now1
           (Store.applyAll (pending w) (db w))) ∧
    meter_history_id_seq w' = meter_history_id_seq w + 1 ∧
    tx w' = None.
Proof.
  unfold IngestionService.ingestMeterTelemetry, QueryRunner.connect,
    QueryRunner.startTransaction, QueryRunner.call, mbind, Async_bind, bind,
    pending.
  cbn. destruct (faults w _); [done|]. cbn.
  destruct (faults w _); [done|]. cbn.
  destruct (tx w) as [writes|] eqn:Htx; run_transaction;
    intros [= <-]; cbn; eexists _, _.
  - rewrite !applyAll_app. by cbn.
  - done.
Qed.

Lemma ingestVehicleTelemetry_returned data w w' :
  IngestionService.ingestVehicleTelemetry data w = (Returned tt, w') →
  ∃ now1 now2,
    db w' =
      Store.appendVehicleHistory
        (Store.vehicleHistoryRows
           [IngestionService.vehicleHistoryValues data]
           (vehicle_history_id_seq w) now2)
        (Store.upsertVehicleRow
           (IngestionService.vehicleStatusValues data) now1
           (Store.applyAll (pending w) (db w))) ∧
    vehicle_history_id_seq w' = vehicle_history_id_seq w + 1 ∧
    tx w' = None.
Proof.
  unfold IngestionService.ingestVehicleTelemetry, QueryRunner.connect,
    QueryRunner.startTransaction, QueryRunner.call, mbind, Async_bind, bind,
    pending.
  cbn. destruct (faults w _); [done|]. cbn.
  destruct (faults w _); [done|]. cbn.
  destruct (tx w) as [writes|] eqn:Htx; run_transaction;
    intros [= <-]; cbn; eexists _, _.
  - rewrite !applyAll_app. by cbn.
  - done.
Qed.

(** The row that a successful call leaves for the last record that names a
    device, whatever was pending on the connection. *)
Lemma callService_last_meter request w w' pre data suf :
  opensTransaction request = true →
  callService request w = (Returned tt, w') →
  meterRecords request = pre ++ data :: suf →
  Forall (fun x => MeterTelemetryDto.meterId x ≠
                   MeterTelemetryDto.meterId data) suf →
  ∃ created,
    meterCurrentState w' (MeterTelemetryDto.meterId data) =
      Some (meterRowOf data created).
Proof.
  intros Hopen Hrun Hdec Hsuf.
  destruct (callService_runs _ _ _ _ Hopen Hrun)
    as (_ & sent & _ & _ & _ & writes & Hwrites & Hdb).
  rewrite applyAll_app in Hdb.
  apply (writesOf_committed _ _ (Store.applyAll (pending w) (db w)))
    in Hwrites as ((items & Hitems & Hm) & _).
  rewrite <- Hdb in Hm. rewrite Hdec in Hitems.
  unfold meterCurrentState. rewrite Hm.
  by eapply upsertMeterMap_last.
Qed.

Lemma callService_last_vehicle request w w' pre data suf :
  opensTransaction request = true →
  callService request w = (Returned tt, w') →
  vehicleRecords request = pre ++ data :: suf →
  Forall (fun x => VehicleTelemetryDto.vehicleId x ≠
                   VehicleTelemetryDto.vehicleId data) suf →
  ∃ created,
    vehicleCurrentState w' (VehicleTelemetryDto.vehicleId data) =
      Some (vehicleRowOf data created).
Proof.
  intros Hopen Hrun Hdec Hsuf.
  destruct (callService_runs _ _ _ _ Hopen Hrun)
    as (_ & sent & _ & _ & _ & writes & Hwrites & Hdb).
  rewrite applyAll_app in Hdb.
  apply (writesOf_committed _ _ (Store.applyAll (pending w) (db w)))
    in Hwrites as (_ & (items & Hitems & Hm) & _).
  rewrite <- Hdb in Hm. rewrite Hdec in Hitems.
  unfold vehicleCurrentState. rewrite Hm.
  by eapply upsertVehicleMap_last.
Qed.

(** C1. For every ingest operation ([ingestMeterTelemetry],
    [ingestVehicleTelemetry], [ingestMeterBatch], [ingestVehicleBatch],
    called directly or through their routes) and every starting store
    state, if the operation fails, by validation or by persistence, then
    for every device the Current-State row and the number of History
    entries are what they were before the call; in particular a batch with
    one failing record applies none of its records. *)
Theorem ingest_atomic (request : IngestRequest) (w w' : World)
    (e : Exception) :
  ingestFails request w e w' →
  ∀ device : string,
    meterCurrentState w' device = meterCurrentState w device ∧
    vehicleCurrentState w' device = vehicleCurrentState w device ∧
    meterHistoryCount w' device = meterHistoryCount w device ∧
    vehicleHistoryCount w' device = vehicleHistoryCount w device.
Proof.
  intros Hrun device.
  assert (Hdb : db w' = db w).
  { destruct Hrun as [Hrun|Hrun];
      [by eapply ingest_thrown_db | by eapply callService_thrown_db]. }
  unfold meterCurrentState, vehicleCurrentState, meterHistoryCount,
    vehicleHistoryCount.
  by rewrite Hdb.
Qed.

(** C10. [ingestMeterBatch] and [ingestVehicleBatch] called with an
    empty sequence return successfully without raising, and leave the
    whole world as it was: both stores are unchanged and no driver call
    is made, so no transaction is opened; this holds whatever the fault
    schedule is, and the routes in front of them answer with success and
    a count of zero. *)
Theorem ingest_empty_batch (w : World) :
  IngestionService.ingestMeterBatch [] w = (Returned tt, w) ∧
  IngestionService.ingestVehicleBatch [] w = (Returned tt, w) ∧
  ingest (PostMeterBatch []) w =
    (Returned (mkIngestResponse true
                 "Meter telemetry batch ingested successfully" (Some 0%nat)),
     w) ∧
  ingest (PostVehicleBatch []) w =
    (Returned (mkIngestResponse true
                 "Vehicle telemetry batch ingested successfully"
                 (Some 0%nat)),
     w).
Proof. repeat split. Qed.

(** C2 (amended). For every device identifier D and every record for D
    ingested successfully, right after the ingest the Current-State row
    keyed by D stores the record: its identifier, its numbers as the
    columns keep them (rounded to two decimal places for [voltage], [soc]
    and [batteryTemp], to four for the energies), and as [lastUpdated] the
    record's own observation timestamp, not the time of the database
    write.  In a batch the records are applied in order, so the row read
    after the batch is the one of the last record of the batch for D. *)
Theorem ingest_current_state_fresh (w w' : World) :
  (∀ data : MeterTelemetryDto.t,
     ingestSucceeds (PostMeter data) w w' →
     ∃ row,
       meterCurrentState w' (MeterTelemetryDto.meterId data) = Some row ∧
       meterRowStores data row) ∧
  (∀ data : VehicleTelemetryDto.t,
     ingestSucceeds (PostVehicle data) w w' →
     ∃ row,
       vehicleCurrentState w' (VehicleTelemetryDto.vehicleId data)
         = Some row ∧
       vehicleRowStores data row) ∧
  (∀ (earlier later : list MeterTelemetryDto.t) (data : MeterTelemetryDto.t),
     ingestSucceeds (PostMeterBatch (earlier ++ data :: later)) w w' →
     Forall (fun x => MeterTelemetryDto.meterId x ≠
                      MeterTelemetryDto.meterId data) later →
     ∃ row,
       meterCurrentState w' (MeterTelemetryDto.meterId data) = Some row ∧
       meterRowStores data row) ∧
  (∀ (earlier later : list VehicleTelemetryDto.t)
     (data : VehicleTelemetryDto.t),
     ingestSucceeds (PostVehicleBatch (earlier ++ data :: later)) w w' →
     Forall (fun x => VehicleTelemetryDto.vehicleId x ≠
                      VehicleTelemetryDto.vehicleId data) later →
     ∃ row,
       vehicleCurrentState w' (VehicleTelemetryDto.vehicleId data)
         = Some row ∧
       vehicleRowStores data row).
Proof.
  split; [|split; [|split]].
  - intros data Hrun. apply ingestSucceeds_callService in Hrun.
    destruct (callService_last_meter (PostMeter data) _ _ [] data []
                eq_refl Hrun eq_refl)
      as (created & Hrow); [done|].
    exists (meterRowOf data created). split; [done|]. by repeat split.
  - intros data Hrun. apply ingestSucceeds_callService in Hrun.
    destruct (callService_last_vehicle (PostVehicle data) _ _ [] data []
                eq_refl Hrun eq_refl)
      as (created & Hrow); [done|].
    exists (vehicleRowOf data created). split; [done|]. by repeat split.
  - intros earlier later data Hrun Hlater.
    apply ingestSucceeds_callService in Hrun.
    destruct (callService_last_meter
                (PostMeterBatch (earlier ++ data :: later)) _ _
                earlier data later ltac:(by destruct earlier) Hrun eq_refl
                Hlater)
      as (created & Hrow).
    exists (meterRowOf data created). split; [done|]. by repeat split.
  - intros earlier later data Hrun Hlater.
    apply ingestSucceeds_callService in Hrun.
    destruct (callService_last_vehicle
                (PostVehicleBatch (earlier ++ data :: later)) _ _
                earlier data later ltac:(by destruct earlier) Hrun eq_refl
                Hlater)
      as (created & Hrow).
    exists (vehicleRowOf data created). split; [done|]. by repeat split.
Qed.

Lemma ingestMeterTelemetry_twice data w w1 w2 :
  IngestionService.ingestMeterTelemetry data w = (Returned tt, w1) →
  IngestionService.ingestMeterTelemetry data w1 = (Returned tt, w2) →
  let device := MeterTelemetryDto.meterId data in
  is_Some (meterCurrentState w1 device) ∧
  meterCurrentState w2 device = meterCurrentState w1 device ∧
  meterHistoryCount w2 device = S (meterHistoryCount w1 device) ∧
  (tx w = None →
   meterHistoryCount w2 device = S (S (meterHistoryCount w device)) ∧
   ∃ h1 h2,
     meter_telemetry_history (db w2) =
       meter_telemetry_history (db w) ++ [h1; h2] ∧
     duplicateMeterEntries h1 h2).
Proof.
  intros Hrun1 Hrun2 device.
  apply ingestMeterTelemetry_returned in Hrun1
    as (now1 & now2 & Hdb1 & Hseq1 & Htx1).
  apply ingestMeterTelemetry_returned in Hrun2
    as (now3 & now4 & Hdb2 & Hseq2 & _).
  unfold pending in Hdb2. rewrite Htx1 in Hdb2. cbn in Hdb2.
  unfold meterCurrentState, meterHistoryCount.
  rewrite Hdb2, Hdb1. cbn. rewrite !lookup_insert_eq. cbn.
  rewrite !filter_app, !length_app.
  rewrite !filter_cons_True by done. cbn.
  split; [by eexists|]. split; [done|]. split; [lia|].
  intros Htx. unfold pending. rewrite Htx. cbn. split; [lia|].
  eexists _, _. rewrite <- app_assoc. split; [reflexivity|].
  repeat split. cbn. lia.
Qed.

Lemma ingestVehicleTelemetry_twice data w w1 w2 :
  IngestionService.ingestVehicleTelemetry data w = (Returned tt, w1) →
  IngestionService.ingestVehicleTelemetry data w1 = (Returned tt, w2) →
  let device := VehicleTelemetryDto.vehicleId data in
  is_Some (vehicleCurrentState w1 device) ∧
  vehicleCurrentState w2 device = vehicleCurrentState w1 device ∧
  vehicleHistoryCount w2 device = S (vehicleHistoryCount w1 device) ∧
  (tx w = None →
   vehicleHistoryCount w2 device = S (S (vehicleHistoryCount w device)) ∧
   ∃ h1 h2,
     vehicle_telemetry_history (db w2) =
       vehicle_telemetry_history (db w) ++ [h1; h2] ∧
     duplicateVehicleEntries h1 h2).
Proof.
  intros Hrun1 Hrun2 device.
  apply ingestVehicleTelemetry_returned in Hrun1
    as (now1 & now2 & Hdb1 & Hseq1 & Htx1).
  apply ingestVehicleTelemetry_returned in Hrun2
    as (now3 & now4 & Hdb2 & Hseq2 & _).
  unfold pending in Hdb2. rewrite Htx1 in Hdb2. cbn in Hdb2.
  unfold vehicleCurrentState, vehicleHistoryCount.
  rewrite Hdb2, Hdb1. cbn. rewrite !lookup_insert_eq. cbn.
  rewrite !filter_app, !length_app.
  rewrite !filter_cons_True by done. cbn.
  split; [by eexists|]. split; [done|]. split; [lia|].
  intros Htx. unfold pending. rewrite Htx. cbn. split; [lia|].
  eexists _, _. rewrite <- app_assoc. split; [reflexivity|].
  repeat split. cbn. lia.
Qed.


End Ingestion.

(** ** Validation *)

Section Validation.
Context `{Platform}.
Import Validators.

Lemma property_reported name decorators value :
  forallb (fun d => d value) decorators = false →
  property name decorators value = [name].
Proof. unfold property. by intros ->. Qed.

Lemma meterViolation_reported data field :
  meterViolation data field → field ∈ validateMeterTelemetryDto data.
Proof.
  unfold validateMeterTelemetryDto.
  intros [[-> Hv]|[[-> Hv]|[-> Hv]]].
  - rewrite (property_reported "kwhConsumedAc");
      [set_solver|]. cbn. by rewrite (Qle_bool_false _ _ Hv).
  - rewrite (property_reported "voltage");
      [set_solver|]. cbn. by rewrite (Qle_bool_false _ _ Hv).
  - rewrite (property_reported "timestamp");
      [set_solver|]. cbn. by rewrite Hv.
Qed.

Lemma vehicleViolation_reported data field :
  vehicleViolation data field → field ∈ validateVehicleTelemetryDto data.
Proof.
  unfold validateVehicleTelemetryDto.
  intros [[-> [Hv|Hv]]|[[-> Hv]|[-> Hv]]].
  - rewrite (property_reported "soc");
      [set_solver|]. cbn. by rewrite (Qle_bool_false _ _ Hv).
  - rewrite (property_reported "soc");
      [set_solver|]. cbn. rewrite (Qle_bool_false _ _ Hv).
      by rewrite andb_false_r.
  - rewrite (property_reported "kwhDeliveredDc");
      [set_solver|]. cbn. by rewrite (Qle_bool_false _ _ Hv).
  - rewrite (property_reported "timestamp");
      [set_solver|]. cbn. by rewrite Hv.
Qed.

(** The identifier plays no part: a meter record passes validation
    exactly when its two quantities are non-negative and its timestamp is
    an ISO 8601 date string. *)
Lemma validateMeterTelemetryDto_nil data :
  validateMeterTelemetryDto data = [] ↔
  (0 <= MeterTelemetryDto.kwhConsumedAc data)%Q ∧
  (0 <= MeterTelemetryDto.voltage data)%Q ∧
  isISO8601 (MeterTelemetryDto.timestamp data) = true.
Proof.
  unfold validateMeterTelemetryDto, property. cbn.
  rewrite !andb_true_r.
  destruct (Qle_bool 0 (MeterTelemetryDto.kwhConsumedAc data)) eqn:E1;
  destruct (Qle_bool 0 (MeterTelemetryDto.voltage data)) eqn:E2;
  destruct (isISO8601 (MeterTelemetryDto.timestamp data)) eqn:E3; cbn;
    rewrite <- !Qle_bool_iff, ?E1, ?E2; split; try done;
    intros (? & ? & ?); done.
Qed.

Lemma validateVehicleTelemetryDto_nil data :
  validateVehicleTelemetryDto data = [] ↔
  (0 <= VehicleTelemetryDto.soc data)%Q ∧
  (VehicleTelemetryDto.soc data <= 100)%Q ∧
  (0 <= VehicleTelemetryDto.kwhDeliveredDc data)%Q ∧
  isISO8601 (VehicleTelemetryDto.timestamp data) = true.
Proof.
  unfold validateVehicleTelemetryDto, property. cbn.
  rewrite !andb_true_r.
  destruct (Qle_bool 0 (VehicleTelemetryDto.soc data)) eqn:E1;
  destruct (Qle_bool (VehicleTelemetryDto.soc data) 100) eqn:E2;
  destruct (Qle_bool 0 (VehicleTelemetryDto.kwhDeliveredDc data)) eqn:E3;
  destruct (isISO8601 (VehicleTelemetryDto.timestamp data)) eqn:E4; cbn;
    rewrite <- !Qle_bool_iff, ?E1, ?E2, ?E3; split; try done;
    intros (? & ? & ? & ?); done.
Qed.

Lemma no_meterViolation_valid data :
  (∀ field, ¬ meterViolation data field) →
  validateMeterTelemetryDto data = [].
Proof.
  intros Hno. apply validateMeterTelemetryDto_nil.
  split; [|split].
  - apply Qnot_lt_le. intros Hlt. apply (Hno "kwhConsumedAc"). by left.
  - apply Qnot_lt_le. intros Hlt. apply (Hno "voltage"). right. by left.
  - destruct (isISO8601 _) eqn:E; [done|].
    exfalso. apply (Hno "timestamp"). right. by right.
Qed.

Lemma no_vehicleViolation_valid data :
  (∀ field, ¬ vehicleViolation data field) →
  validateVehicleTelemetryDto data = [].
Proof.
  intros Hno. apply validateVehicleTelemetryDto_nil.
  split; [|split; [|split]].
  - apply Qnot_lt_le. intros Hlt. apply (Hno "soc"). left. split; auto.
  - apply Qnot_lt_le. intros Hlt. apply (Hno "soc"). left. split; auto.
  - apply Qnot_lt_le. intros Hlt. apply (Hno "kwhDeliveredDc").
    right. by left.
  - destruct (isISO8601 _) eqn:E; [done|].
    exfalso. apply (Hno "timestamp"). right. by right.
Qed.

Lemma validationPipe_invalid {A} (validate : A → list string) body w :
  validate body ≠ [] →
  validationPipe validate body w =
    (Thrown (ValidationError (validate body)), w).
Proof. rewrite validationPipe_run. by destruct (validate body). Qed.

Lemma elem_of_not_nil {A} (x : A) (l : list A) : x ∈ l → l ≠ [].
Proof. intros Hx ->. by apply not_elem_of_nil in Hx. Qed.

(** C7 (amended). For every input record sent to a single-record route,
    ingestion fails with a [ValidationError] naming the offending field,
    and performs no write, whenever [kwhConsumedAc < 0], [voltage < 0],
    [soc] is outside [[0,100]], [kwhDeliveredDc < 0], or the timestamp is
    not an ISO 8601 date string.  The device identifier is only required
    to be a string: a record with none of the violations above reaches
    the service whatever its identifier, the empty one included. *)
Theorem ingest_rejects_violations (w : World) :
  (∀ data field, meterViolation data field →
     ∃ properties, field ∈ properties ∧
       ingest (PostMeter data) w =
         (Thrown (ValidationError properties), w)) ∧
  (∀ data field, vehicleViolation data field →
     ∃ properties, field ∈ properties ∧
       ingest (PostVehicle data) w =
         (Thrown (ValidationError properties), w)) ∧
  (∀ data, (∀ field, ¬ meterViolation data field) →
     ingest (PostMeter data) w = IngestionController.ingestMeter data w) ∧
  (∀ data, (∀ field, ¬ vehicleViolation data field) →
     ingest (PostVehicle data) w =
       IngestionController.ingestVehicle data w).
Proof.
  split; [|split; [|split]].
  - intros data field Hv. apply meterViolation_reported in Hv.
    exists (validateMeterTelemetryDto data). split; [done|].
    cbn [ingest]. rewrite bind_run, validationPipe_invalid; [done|].
    by eapply elem_of_not_nil.
  - intros data field Hv. apply vehicleViolation_reported in Hv.
    exists (validateVehicleTelemetryDto data). split; [done|].
    cbn [ingest]. rewrite bind_run, validationPipe_invalid; [done|].
    by eapply elem_of_not_nil.
  - intros data Hno. cbn [ingest].
    by rewrite bind_run, validationPipe_run, no_meterViolation_valid.
  - intros data Hno. cbn [ingest].
    by rewrite bind_run, validationPipe_run, no_vehicleViolation_valid.
Qed.

End Validation.

(** ** Sequences of operations *)

Section Sequences.
Context `{Platform}.

(** X1. After any sequence of service calls that starts with no
    transaction left open on the connection and in which no rollback is
    refused, whatever else fails in between, the two history tables are
    the tables before followed by one entry per record of the calls that
    returned, in call order and batch order, each carrying the record's
    fields as the columns keep them, with nothing dropped, merged or
    reordered; so the number of entries of a device grows by the number of
    records accepted for it. *)
Theorem history_is_accepted_records (requests accepted : list IngestRequest)
    (w w' : World) :
  tx w = None → rollbacksSucceed w w' →
  callEach requests w = (accepted, w') →
  (∃ entries,
     meter_telemetry_history (db w') =
       meter_telemetry_history (db w) ++ entries ∧
     map meterEntryValues entries =
       map storedMeter (flat_map meterRecords accepted)) ∧
  (∃ entries,
     vehicle_telemetry_history (db w') =
       vehicle_telemetry_history (db w) ++ entries ∧
     map vehicleEntryValues entries =
       map storedVehicle (flat_map vehicleRecords accepted)) ∧
  (∀ device,
     meterHistoryCount w' device =
       (meterHistoryCount w device +
        length (filter (fun r => MeterTelemetryDto.meterId r = device)
                       (flat_map meterRecords accepted)))%nat) ∧
  (∀ device,
     vehicleHistoryCount w' device =
       (vehicleHistoryCount w device +
        length (filter (fun r => VehicleTelemetryDto.vehicleId r = device)
                       (flat_map vehicleRecords accepted)))%nat).
Proof.
  intros Htx Hroll Hrun.
  apply callEach_committed in Hrun
    as ((_ & _ & (ms & Hms & Hmv) & (vs & Hvs & Hvv)) & _); [|done|done].
  split; [by exists ms|]. split; [by exists vs|]. split; intros device.
  - unfold meterHistoryCount. rewrite Hms, filter_app, length_app.
    by rewrite (meterEntries_count _ _ _ Hmv).
  - unfold vehicleHistoryCount. rewrite Hvs, filter_app, length_app.
    by rewrite (vehicleEntries_count _ _ _ Hvv).
Qed.

(** X2. After any such sequence of service calls, the Current-State row of
    a device stores the last record accepted for it, by arrival order: the
    order of the calls that returned and, inside a batch, the order of the
    batch.  The record's own timestamp plays no part in the choice. *)
Theorem current_state_is_last_accepted (requests accepted : list IngestRequest)
    (w w' : World) :
  tx w = None → rollbacksSucceed w w' →
  callEach requests w = (accepted, w') →
  (∀ earlier later (data : MeterTelemetryDto.t),
     flat_map meterRecords accepted = earlier ++ data :: later →
     Forall (fun x => MeterTelemetryDto.meterId x ≠
                      MeterTelemetryDto.meterId data) later →
     ∃ row, meterCurrentState w' (MeterTelemetryDto.meterId data) = Some row ∧
            meterRowStores data row) ∧
  (∀ earlier later (data : VehicleTelemetryDto.t),
     flat_map vehicleRecords accepted = earlier ++ data :: later →
     Forall (fun x => VehicleTelemetryDto.vehicleId x ≠
                      VehicleTelemetryDto.vehicleId data) later →
     ∃ row, vehicleCurrentState w' (VehicleTelemetryDto.vehicleId data)
              = Some row ∧
            vehicleRowStores data row).
Proof.
  intros Htx Hroll Hrun.
  apply callEach_committed in Hrun
    as (((mi & Hmi & Hm) & (vi & Hvi & Hv) & _ & _) & _); [|done|done].
  split; intros earlier later data Hdec Hlater.
  - rewrite <- Hmi in Hdec.
    destruct (upsertMeterMap_last mi (meter_current_status (db w))
                _ _ _ Hdec Hlater) as (created & Hrow).
    unfold meterCurrentState. rewrite Hm, Hrow. eexists. split; [done|].
    by repeat split.
  - rewrite <- Hvi in Hdec.
    destruct (upsertVehicleMap_last vi (vehicle_current_status (db w))
                _ _ _ Hdec Hlater) as (created & Hrow).
    unfold vehicleCurrentState. rewrite Hv, Hrow. eexists. split; [done|].
    by repeat split.
Qed.

(** X3. Such a sequence of service calls touches only the devices named by
    the records of the calls that returned, each in its own device class:
    every other device, the devices named by failed calls included, keeps
    its Current-State row and its number of History entries. *)
Theorem unnamed_devices_untouched (requests accepted : list IngestRequest)
    (w w' : World) (device : string) :
  tx w = None → rollbacksSucceed w w' →
  callEach requests w = (accepted, w') →
  (Forall (fun x => MeterTelemetryDto.meterId x ≠ device)
          (flat_map meterRecords accepted) →
   meterCurrentState w' device = meterCurrentState w device ∧
   meterHistoryCount w' device = meterHistoryCount w device) ∧
  (Forall (fun x => VehicleTelemetryDto.vehicleId x ≠ device)
          (flat_map vehicleRecords accepted) →
   vehicleCurrentState w' device = vehicleCurrentState w device ∧
   vehicleHistoryCount w' device = vehicleHistoryCount w device).
Proof.
  intros Htx Hroll Hrun.
  apply callEach_committed in Hrun
    as (((mi & Hmi & Hm) & (vi & Hvi & Hv) & (ms & Hms & Hmv)
         & (vs & Hvs & Hvv)) & _); [|done|done].
  split; intros Hall.
  - split.
    + unfold meterCurrentState. rewrite Hm.
      apply upsertMeterMap_frame. by rewrite Hmi.
    + unfold meterHistoryCount. rewrite Hms, filter_app, length_app.
      rewrite (meterEntries_count _ _ _ Hmv).
      rewrite (length_filter_none _ _ Hall). lia.
  - split.
    + unfold vehicleCurrentState. rewrite Hv.
      apply upsertVehicleMap_frame. by rewrite Hvi.
    + unfold vehicleHistoryCount. rewrite Hvs, filter_app, length_app.
      rewrite (vehicleEntries_count _ _ _ Hvv).
      rewrite (length_filter_none _ _ Hall). lia.
Qed.

(** X4. Once a device has a Current-State row, no sequence of service calls
    deletes it or changes its creation time. *)
Theorem created_at_is_kept (requests accepted : list IngestRequest)
    (w w' : World) (device : string) :
  callEach requests w = (accepted, w') →
  (∀ old, meterCurrentState w device = Some old →
     ∃ row, meterCurrentState w' device = Some row ∧
            MeterCurrentStatus.createdAt row =
              MeterCurrentStatus.createdAt old) ∧
  (∀ old, vehicleCurrentState w device = Some old →
     ∃ row, vehicleCurrentState w' device = Some row ∧
            VehicleCurrentStatus.createdAt row =
              VehicleCurrentStatus.createdAt old).
Proof.
  intros Hrun. apply callEach_writes in Hrun as (writes & Hdb).
  unfold meterCurrentState, vehicleCurrentState. rewrite Hdb.
  destruct (applyAll_created writes (db w)) as [Hm Hv].
  split; intros old Hold; [by apply Hm|by apply Hv].
Qed.

End Sequences.

(** ** The driver calls of a service method *)

Section TraceProperties.
Context `{Platform}.

Lemma statementsOf_no_release request :
  Release ∉ (statementsOf request ++ [CommitTransaction]).
Proof.
  destruct request; cbn [statementsOf];
    rewrite ?elem_of_app, ?elem_of_replicate, ?elem_of_cons, ?elem_of_nil;
    intuition discriminate.
Qed.

Lemma statementsOf_no_rollback request :
  RollbackTransaction ∉ (statementsOf request ++ [CommitTransaction]).
Proof.
  destruct request; cbn [statementsOf];
    rewrite ?elem_of_app, ?elem_of_replicate, ?elem_of_cons, ?elem_of_nil;
    intuition discriminate.
Qed.

Lemma not_elem_of_take {A} (x : A) (l : list A) n : x ∉ l → x ∉ take n l.
Proof.
  intros Hl Hin. apply Hl. apply elem_of_take in Hin as (i & Hi & _).
  apply list_elem_of_lookup. by exists i.
Qed.

(** X5. A service call that returns has sent, in this order: connect,
    start of transaction, one upsert per record, one insert for all
    history rows, commit and release; it has sent no rollback and leaves
    no transaction open. *)
Theorem successful_ingest_calls (request : IngestRequest) (w w' : World) :
  opensTransaction request = true →
  callService request w = (Returned tt, w') →
  trace w' =
    trace w ++ [Connect; StartTransaction] ++ statementsOf request ++
    [CommitTransaction; Release] ∧
  (RollbackTransaction ∉ statementsOf request) ∧
  tx w' = None.
Proof.
  intros Hopen Hrun.
  destruct (callService_runs _ _ _ _ Hopen Hrun)
    as (_ & sent & Htr & -> & Htx & _).
  split; [by rewrite Htr, <- !app_assoc|]. split; [|done].
  destruct request; cbn [statementsOf];
    rewrite ?elem_of_app, ?elem_of_replicate, ?elem_of_cons, ?elem_of_nil;
    intuition discriminate.
Qed.

(** X6. The connection is released exactly once, as the last call, on
    every path that reaches the try block, whether the block returns or
    throws; but when [connect] or [startTransaction] throws, the method
    stops there: neither rollback nor release is sent.  The release
    closes nothing: the transaction is closed by the commit or by the
    rollback, and when the rollback itself is refused the connection goes
    back to the pool with the transaction still open. *)
Theorem release_once_started (request : IngestRequest) (w w' : World)
    (r : Outcome unit) :
  opensTransaction request = true →
  callService request w = (r, w') →
  ∃ sent, trace w' = trace w ++ sent ∧
    ((r = Thrown (PersistenceError Connect) ∧ sent = [Connect]) ∨
     (r = Thrown (PersistenceError StartTransaction) ∧
      sent = [Connect; StartTransaction]) ∨
     (∃ inside, sent = [Connect; StartTransaction] ++ inside ++ [Release] ∧
                (Release ∉ inside) ∧
                (tx w' = None ↔
                 r ≠ Thrown (PersistenceError RollbackTransaction)))).
Proof.
  intros Hopen Hrun.
  destruct (callService_runs _ _ _ _ Hopen Hrun) as (_ & sent & Htr & Hr).
  exists sent. split; [done|].
  pose proof (statementsOf_no_release request) as Hno.
  destruct r as [[]|e].
  - destruct Hr as (-> & Htx & _). right. right.
    exists (statementsOf request ++ [CommitTransaction]).
    split; [done|]. split; [done|]. by split.
  - destruct Hr as (_ & [(-> & -> & _)|[(-> & -> & _)|
                           (k & c & Hc & -> & _ & Hif)]]);
      [by left|right; by left|].
    right. right.
    exists (take (S k) (statementsOf request ++ [CommitTransaction]) ++
            [RollbackTransaction]).
    split; [by rewrite <- !app_assoc|]. split.
    + rewrite elem_of_app, list_elem_of_singleton.
      intros [Hin|?]; [|done]. by apply not_elem_of_take in Hin.
    + destruct (faults w _).
      * destruct Hif as (-> & writes & ->). by split.
      * destruct Hif as (-> & ->). split; [|done]. intros _ [= ->].
        apply list_elem_of_lookup_2 in Hc.
        revert Hc. apply statementsOf_no_rollback.
Qed.

(** X7. When a statement or the commit fails, the method stops at that
    call, which is one that the driver refused, sends exactly one rollback
    and then the release, and rethrows the error of the failing call,
    the transaction being closed by the rollback; if the rollback fails
    too, it is the error of the rollback that reaches the caller, the
    connection is still released, and the transaction stays open on it
    with the writes of the statements that ran. *)
Theorem failed_ingest_calls (request : IngestRequest) (w w' : World)
    (e : Exception) :
  opensTransaction request = true →
  callService request w = (Thrown e, w') →
  e ≠ PersistenceError Connect →
  e ≠ PersistenceError StartTransaction →
  ∃ k c,
    (statementsOf request ++ [CommitTransaction]) !! k = Some c ∧
    trace w' =
      trace w ++ [Connect; StartTransaction] ++
      take (S k) (statementsOf request ++ [CommitTransaction]) ++
      [RollbackTransaction; Release] ∧
    db w' = db w ∧
    faults w (length (trace w) + 2 + k) = true ∧
    if faults w (length (trace w) + 2 + S k)
    then e = PersistenceError RollbackTransaction ∧
         ∃ writes, tx w' = Some (pending w ++ writes)
    else e = PersistenceError c ∧ tx w' = None.
Proof.
  intros Hopen Hrun Hc Hs.
  destruct (callService_runs _ _ _ _ Hopen Hrun)
    as (_ & sent & Htr & Hdb &
        [[-> _]|[[-> _]|(k & c & Hk & -> & Hf & He)]]);
    [done|done|].
  exists k, c. by rewrite Htr.
Qed.

(** X15. The service methods have no failure of their own: a call that
    throws has had one of its own driver calls refused, at [connect], at
    [startTransaction], at a statement or at the commit; so a call none
    of whose driver calls is refused returns. *)
Theorem ingest_fails_only_with_driver (request : IngestRequest)
    (w w' : World) (r : Outcome unit) :
  callService request w = (r, w') →
  (∀ e, r = Thrown e →
     ∃ n, (length (trace w) ≤ n < length (trace w'))%nat ∧
          faults w n = true) ∧
  ((∀ n, (length (trace w) ≤ n)%nat → faults w n = false) →
   r = Returned tt).
Proof.
  intros Hrun.
  assert (Hthrown : ∀ e, r = Thrown e →
            ∃ n, (length (trace w) ≤ n < length (trace w'))%nat ∧
                 faults w n = true).
  { intros e ->.
    destruct (opensTransaction request) eqn:Hopen.
    - destruct (callService_runs _ _ _ _ Hopen Hrun)
        as (_ & sent & Htr & _ & [(_ & -> & Hf & _)|[(_ & -> & Hf & _)|
                                  (k & c & Hk & -> & Hf & _)]]);
        rewrite Htr, ?length_app; cbn [length].
      + exists (length (trace w)). split; [lia|done].
      + exists (length (trace w) + 1)%nat. split; [lia|done].
      + exists (length (trace w) + 2 + k)%nat. split; [|done].
        rewrite length_take. apply lookup_lt_Some in Hk. lia.
    - by destruct request as [?|?|[|??]|[|??]]. }
  split; [done|]. intros Hnone.
  destruct r as [[]|e]; [done|].
  destruct (Hthrown e eq_refl) as (n & [Hn _] & Hf).
  by rewrite (Hnone n Hn) in Hf.
Qed.

(** X14. A batch route that answers reports success and a count equal to
    the number of records it was given; from a store state with no
    transaction left open, that count is the number of rows the history
    table of its device class has grown by, and the other history table
    is as before. *)
Theorem batch_response_counts_rows :
  (∀ data w r w',
     IngestionController.ingestMeterBatch data w = (Returned r, w') →
     success r = true ∧ count r = Some (length data) ∧
     (tx w = None →
      length (meter_telemetry_history (db w')) =
        (length (meter_telemetry_history (db w)) + length data)%nat ∧
      vehicle_telemetry_history (db w') =
        vehicle_telemetry_history (db w))) ∧
  (∀ data w r w',
     IngestionController.ingestVehicleBatch data w = (Returned r, w') →
     success r = true ∧ count r = Some (length data) ∧
     (tx w = None →
      length (vehicle_telemetry_history (db w')) =
        (length (vehicle_telemetry_history (db w)) + length data)%nat ∧
      meter_telemetry_history (db w') = meter_telemetry_history (db w))).
Proof.
  split; intros data w r w' Hrun.
  - unfold IngestionController.ingestMeterBatch in Hrun.
    rewrite bind_run in Hrun.
    destruct (IngestionService.ingestMeterBatch data w) as [[[]|e] w1] eqn:E;
      [|done].
    injection Hrun as <- <-. split; [done|]. split; [done|]. intros Htx.
    destruct (callService_committed (PostMeterBatch data) _ _ Htx E)
      as ((_ & _ & (ms & Hms & Hmap) & (vs & Hvs & Hvmap)) & _).
    cbn [meterRecords vehicleRecords map] in Hmap, Hvmap.
    apply (f_equal length) in Hmap. rewrite !length_map in Hmap.
    apply map_eq_nil in Hvmap. subst vs.
    rewrite Hms, Hvs, length_app, app_nil_r. by rewrite Hmap.
  - unfold IngestionController.ingestVehicleBatch in Hrun.
    rewrite bind_run in Hrun.
    destruct (IngestionService.ingestVehicleBatch data w) as [[[]|e] w1] eqn:E;
      [|done].
    injection Hrun as <- <-. split; [done|]. split; [done|]. intros Htx.
    destruct (callService_committed (PostVehicleBatch data) _ _ Htx E)
      as ((_ & _ & (ms & Hms & Hmap) & (vs & Hvs & Hvmap)) & _).
    cbn [meterRecords vehicleRecords map] in Hmap, Hvmap.
    apply (f_equal length) in Hvmap. rewrite !length_map in Hvmap.
    apply map_eq_nil in Hmap. subst ms.
    rewrite Hms, Hvs, length_app, app_nil_r. by rewrite Hvmap.
Qed.

End TraceProperties.

(** ** From ingestion to the summary *)

Section IngestThenSummarise.
Context `{Platform}.
Import AnalyticsService.

Lemma inWindow_instantWithin start end_ date :
  inWindow start end_ date = true ↔ instantWithin start end_ date.
Proof.
  rewrite inWindow_true. destruct date as [ts|]; cbn.
  - split; [by intros (? & [= <-] & ?)|]. intros Hts. by exists ts.
  - split; [by intros (? & ? & _)|done].
Qed.

Lemma vehicleReadingIn_inWindow vehicleId start end_ h :
  vehicleReadingIn vehicleId start end_ h ↔
  VehicleTelemetryHistory.vehicleId h = vehicleId ∧
  inWindow start end_ (VehicleTelemetryHistory.timestamp h) = true.
Proof. unfold vehicleReadingIn. by rewrite inWindow_true. Qed.

Lemma vehicleRows_readings vehicleId start end_ t :
  vehicleRows vehicleId start end_ t =
    filter (vehicleReadingIn vehicleId start end_)
           (vehicle_telemetry_history t).
Proof.
  unfold vehicleRows. apply list_filter_iff. intros h.
  by rewrite vehicleReadingIn_inWindow.
Qed.

Lemma vehicleEntries_inWindow entries (records : list VehicleTelemetryDto.t)
    now vehicleId :
  map vehicleEntryValues entries = map storedVehicle records →
  length (filter (fun v =>
                    VehicleTelemetryHistory.vehicleId v = vehicleId ∧
                    inWindow (now - 86400000) now
                      (VehicleTelemetryHistory.timestamp v) = true) entries) =
  length (acceptedInWindow now vehicleId records).
Proof.
  intros Hmap. unfold acceptedInWindow.
  rewrite <- (length_filter_map vehicleEntryValues
                (fun v => VehicleHistoryValues.vehicleId v = vehicleId ∧
                          inWindow (now - 86400000) now
                            (VehicleHistoryValues.timestamp v) = true)
                (fun v => VehicleTelemetryHistory.vehicleId v = vehicleId ∧
                          inWindow (now - 86400000) now
                            (VehicleTelemetryHistory.timestamp v) = true))
    by done.
  rewrite Hmap.
  apply (length_filter_map storedVehicle).
  intros d. cbn. by rewrite inWindow_instantWithin.
Qed.

Lemma vehicleEntries_other entries (records : list VehicleTelemetryDto.t)
    device :
  map vehicleEntryValues entries =
    map storedVehicle records →
  Forall (fun d => VehicleTelemetryDto.vehicleId d ≠ device) records →
  Forall (fun h => VehicleTelemetryHistory.vehicleId h ≠ device) entries.
Proof.
  revert records. induction entries as [|h entries IH];
    intros [|d records] Hmap Hall; try done.
  injection Hmap as Hid _ _ _ _ Hmap.
  apply Forall_cons in Hall as [Hd Hall].
  constructor; [by rewrite Hid|by eapply IH].
Qed.

Lemma meterEntries_other entries (records : list MeterTelemetryDto.t)
    device :
  map meterEntryValues entries =
    map storedMeter records →
  Forall (fun d => MeterTelemetryDto.meterId d ≠ device) records →
  Forall (fun h => MeterTelemetryHistory.meterId h ≠ device) entries.
Proof.
  revert records. induction entries as [|h entries IH];
    intros [|d records] Hmap Hall; try done.
  injection Hmap as Hid _ _ _ Hmap.
  apply Forall_cons in Hall as [Hd Hall].
  constructor; [by rewrite Hid|by eapply IH].
Qed.

Lemma filter_nil_Forall {A} (P : A → Prop) `{!∀ x, Decision (P x)}
    (l : list A) :
  Forall (fun x => ¬ P x) l → filter P l = [].
Proof.
  induction 1 as [|x l Hx _ IH]; [done|]. by rewrite filter_cons_False.
Qed.

(** The summary reads the two history tables through the rows of its
    window only. *)
Lemma getVehiclePerformance_rows now vehicleId t t' :
  vehicleRows vehicleId (now - 86400000) now t' =
    vehicleRows vehicleId (now - 86400000) now t →
  meterRows vehicleId (now - 86400000) now t' =
    meterRows vehicleId (now - 86400000) now t →
  getVehiclePerformance now vehicleId t' =
    getVehiclePerformance now vehicleId t.
Proof.
  intros Hv Hm. unfold getVehiclePerformance, vehicleQuery, meterQuery.
  change (24 * 60 * 60 * 1000) with 86400000. by rewrite Hv, Hm.
Qed.

(** X11. Telemetry accepted for other identifiers never changes a
    vehicle's summary: after calls that start with no transaction left
    open and in which no rollback is refused, if no accepted record, meter
    or vehicle, carries the identifier, the summary for it is the same
    before and after the calls, at any instant. *)
Theorem other_devices_leave_summary (requests accepted : list IngestRequest)
    (w w' : World) (now : Z) (vehicleId : string) :
  tx w = None → rollbacksSucceed w w' →
  callEach requests w = (accepted, w') →
  Forall (fun d => VehicleTelemetryDto.vehicleId d ≠ vehicleId)
         (flat_map vehicleRecords accepted) →
  Forall (fun d => MeterTelemetryDto.meterId d ≠ vehicleId)
         (flat_map meterRecords accepted) →
  getVehiclePerformance now vehicleId (db w') =
    getVehiclePerformance now vehicleId (db w).
Proof.
  intros Htx Hroll Hrun Hv Hm.
  destruct (callEach_committed _ _ _ _ Htx Hroll Hrun)
    as ((_ & _ & (ms & Hms & Hmmap) & (vs & Hvs & Hvmap)) & _).
  apply getVehiclePerformance_rows.
  - unfold vehicleRows. rewrite Hvs, filter_app.
    rewrite (filter_nil_Forall _ vs); [by rewrite app_nil_r|].
    eapply Forall_impl; [exact (vehicleEntries_other _ _ _ Hvmap Hv)|].
    intros h Hh [Hid _]. done.
  - unfold meterRows. rewrite Hms, filter_app.
    rewrite (filter_nil_Forall _ ms); [by rewrite app_nil_r|].
    eapply Forall_impl; [exact (meterEntries_other _ _ _ Hmmap Hm)|].
    intros h Hh [Hid _]. done.
Qed.

(** X12. After such a sequence of service calls, the summary of a
    vehicle counts the readings of the vehicle that had a timestamp in
    the window before, plus the accepted vehicle records of that
    identifier whose timestamp is an instant of the window, counted as
    often as they were accepted; it fails, with the not-found error,
    exactly when both are none. *)
Theorem summary_counts_accepted_readings
    (requests accepted : list IngestRequest) (w w' : World) (now : Z)
    (vehicleId : string) :
  tx w = None → rollbacksSucceed w w' →
  callEach requests w = (accepted, w') →
  let before :=
    filter (vehicleReadingIn vehicleId (now - 86400000) now)
           (vehicle_telemetry_history (db w)) in
  match getVehiclePerformance now vehicleId (db w') with
  | Returned s =>
      VehiclePerformanceAnalyticsDto.dataPointsAnalyzed s =
        Z.of_nat
          (length before +
           length (acceptedInWindow now vehicleId
                     (flat_map vehicleRecords accepted)))
  | Thrown e =>
      e = NotFoundException (notFoundMessage vehicleId) ∧
      before = [] ∧
      acceptedInWindow now vehicleId (flat_map vehicleRecords accepted) = []
  end.
Proof.
  intros Htx Hroll Hrun before.
  destruct (callEach_committed _ _ _ _ Htx Hroll Hrun)
    as ((_ & _ & _ & (vs & Hvs & Hvmap)) & _).
  assert (Hlen : length (vehicleRows vehicleId (now - 86400000) now (db w')) =
                 (length before +
                  length (acceptedInWindow now vehicleId
                            (flat_map vehicleRecords accepted)))%nat).
  { unfold before. rewrite <- vehicleRows_readings.
    unfold vehicleRows. rewrite Hvs, filter_app, length_app.
    by rewrite (vehicleEntries_inWindow _ _ _ _ Hvmap). }
  destruct (decide (vehicleRows vehicleId (now - 86400000) now (db w') = []))
    as [Hnil|Hne].
  - rewrite (getVehiclePerformance_thrown _ _ _ Hnil). split; [done|].
    rewrite Hnil in Hlen. cbn in Hlen.
    split; apply length_zero_iff_nil; lia.
  - destruct (getVehiclePerformance_returned _ _ _ Hne) as (s & -> & -> & _).
    by rewrite Hlen.
Qed.

End IngestThenSummarise.

(** ** Calls and batches *)

Section SameRecords.
Context `{Platform}.
Import AnalyticsService.

Lemma upsertMeterMap_values items1 :
  ∀ items2 m1 m2,
    map fst items1 = map fst items2 →
    (∀ k, meterStatusOf <$> m1 !! k = meterStatusOf <$> m2 !! k) →
    ∀ k, meterStatusOf <$> upsertMeterMap items1 m1 !! k =
         meterStatusOf <$> upsertMeterMap items2 m2 !! k.
Proof.
  induction items1 as [|[d1 now1] items1 IH];
    intros [|[d2 now2] items2] m1 m2 Hfst Hm; try done.
  cbn [map fst] in Hfst. injection Hfst as <- Hfst.
  rewrite !upsertMeterMap_cons. apply IH; [done|]. intros k.
  destruct (decide (MeterTelemetryDto.meterId d1 = k)) as [<-|Hne].
  - by rewrite !lookup_insert_eq.
  - by rewrite !lookup_insert_ne.
Qed.

Lemma upsertVehicleMap_values items1 :
  ∀ items2 m1 m2,
    map fst items1 = map fst items2 →
    (∀ k, vehicleStatusOf <$> m1 !! k = vehicleStatusOf <$> m2 !! k) →
    ∀ k, vehicleStatusOf <$> upsertVehicleMap items1 m1 !! k =
         vehicleStatusOf <$> upsertVehicleMap items2 m2 !! k.
Proof.
  induction items1 as [|[d1 now1] items1 IH];
    intros [|[d2 now2] items2] m1 m2 Hfst Hm; try done.
  cbn [map fst] in Hfst. injection Hfst as <- Hfst.
  rewrite !upsertVehicleMap_cons. apply IH; [done|]. intros k.
  destruct (decide (VehicleTelemetryDto.vehicleId d1 = k)) as [<-|Hne].
  - by rewrite !lookup_insert_eq.
  - by rewrite !lookup_insert_ne.
Qed.

Lemma map_filter_via {A B C} (f : A → B) (g : B → C) (P : B → Prop)
    (Q : A → Prop) `{!∀ y, Decision (P y)} `{!∀ x, Decision (Q x)}
    (l : list A) :
  (∀ x, Q x ↔ P (f x)) →
  map (fun x => g (f x)) (filter Q l) = map g (filter P (map f l)).
Proof.
  intros HPQ. induction l as [|x l IH]; [done|]. cbn [map].
  destruct (decide (Q x)) as [Hx|Hx].
  - rewrite (filter_cons_True Q) by done.
    rewrite (filter_cons_True P) by (by apply HPQ). cbn. by rewrite IH.
  - rewrite (filter_cons_False Q) by done.
    by rewrite (filter_cons_False P) by (by rewrite <- HPQ).
Qed.

(** The summary is a function of the records that the history entries
    carry. *)
Lemma getVehiclePerformance_values now vehicleId t t' :
  map vehicleEntryValues (vehicle_telemetry_history t') =
    map vehicleEntryValues (vehicle_telemetry_history t) →
  map meterEntryValues (meter_telemetry_history t') =
    map meterEntryValues (meter_telemetry_history t) →
  getVehiclePerformance now vehicleId t' =
    getVehiclePerformance now vehicleId t.
Proof.
  intros Hv Hm.
  assert (Hdc : ∀ t0,
    map VehicleTelemetryHistory.kwhDeliveredDc
        (vehicleRows vehicleId (now - 24 * 60 * 60 * 1000) now t0) =
    map VehicleHistoryValues.kwhDeliveredDc
        (filter (fun v => VehicleHistoryValues.vehicleId v = vehicleId ∧
                          inWindow (now - 24 * 60 * 60 * 1000) now
                            (VehicleHistoryValues.timestamp v) = true)
                (map vehicleEntryValues (vehicle_telemetry_history t0)))).
  { intros t0. unfold vehicleRows.
    by rewrite <- (map_filter_via vehicleEntryValues
                     VehicleHistoryValues.kwhDeliveredDc _
                     (fun v => VehicleTelemetryHistory.vehicleId v = vehicleId ∧
                               inWindow (now - 24 * 60 * 60 * 1000) now
                                 (VehicleTelemetryHistory.timestamp v) = true)). }
  assert (Htemp : ∀ t0,
    map VehicleTelemetryHistory.batteryTemp
        (vehicleRows vehicleId (now - 24 * 60 * 60 * 1000) now t0) =
    map VehicleHistoryValues.batteryTemp
        (filter (fun v => VehicleHistoryValues.vehicleId v = vehicleId ∧
                          inWindow (now - 24 * 60 * 60 * 1000) now
                            (VehicleHistoryValues.timestamp v) = true)
                (map vehicleEntryValues (vehicle_telemetry_history t0)))).
  { intros t0. unfold vehicleRows.
    by rewrite <- (map_filter_via vehicleEntryValues
                     VehicleHistoryValues.batteryTemp _
                     (fun v => VehicleTelemetryHistory.vehicleId v = vehicleId ∧
                               inWindow (now - 24 * 60 * 60 * 1000) now
                                 (VehicleTelemetryHistory.timestamp v) = true)). }
  assert (Hac : ∀ t0,
    map MeterTelemetryHistory.kwhConsumedAc
        (meterRows vehicleId (now - 24 * 60 * 60 * 1000) now t0) =
    map MeterHistoryValues.kwhConsumedAc
        (filter (fun v => MeterHistoryValues.meterId v = vehicleId ∧
                          inWindow (now - 24 * 60 * 60 * 1000) now
                            (MeterHistoryValues.timestamp v) = true)
                (map meterEntryValues (meter_telemetry_history t0)))).
  { intros t0. unfold meterRows.
    by rewrite <- (map_filter_via meterEntryValues
                     MeterHistoryValues.kwhConsumedAc _
                     (fun v => MeterTelemetryHistory.meterId v = vehicleId ∧
                               inWindow (now - 24 * 60 * 60 * 1000) now
                                 (MeterTelemetryHistory.timestamp v) = true)). }
  assert (Hlen : ∀ t0,
    length (vehicleRows vehicleId (now - 24 * 60 * 60 * 1000) now t0) =
    length (map VehicleTelemetryHistory.kwhDeliveredDc
              (vehicleRows vehicleId (now - 24 * 60 * 60 * 1000) now t0)))
    by (intros; by rewrite length_map).
  unfold getVehiclePerformance, vehicleQuery, meterQuery.
  cbn [count totalDc avgTemp].
  by rewrite !Hlen, !Hdc, !Htemp, !Hac, Hv, Hm.
Qed.

(** X16. How the work is cut into calls and batches does not matter to
    what is stored, only which records are accepted and in which order:
    two runs from the same state, with no transaction left open at the
    start and no rollback refused, that accept the same records in the
    same order, for instance one batch and the same records sent one by
    one, end with the same Current-State rows up to their creation time
    and the same history up to surrogate identifiers and ingestion times,
    and so with the same summaries. *)
Theorem same_records_same_state
    (requests1 requests2 accepted1 accepted2 : list IngestRequest)
    (w w1 w2 : World) :
  tx w = None → rollbacksSucceed w w1 → rollbacksSucceed w w2 →
  callEach requests1 w = (accepted1, w1) →
  callEach requests2 w = (accepted2, w2) →
  flat_map meterRecords accepted1 = flat_map meterRecords accepted2 →
  flat_map vehicleRecords accepted1 = flat_map vehicleRecords accepted2 →
  (∀ device, meterStatusOf <$> meterCurrentState w1 device =
             meterStatusOf <$> meterCurrentState w2 device) ∧
  (∀ device, vehicleStatusOf <$> vehicleCurrentState w1 device =
             vehicleStatusOf <$> vehicleCurrentState w2 device) ∧
  map meterEntryValues (meter_telemetry_history (db w1)) =
    map meterEntryValues (meter_telemetry_history (db w2)) ∧
  map vehicleEntryValues (vehicle_telemetry_history (db w1)) =
    map vehicleEntryValues (vehicle_telemetry_history (db w2)) ∧
  (∀ now vehicleId,
     getVehiclePerformance now vehicleId (db w1) =
       getVehiclePerformance now vehicleId (db w2)).
Proof.
  intros Htx Hroll1 Hroll2 Hrun1 Hrun2 Hmeters Hvehicles.
  destruct (callEach_committed _ _ _ _ Htx Hroll1 Hrun1)
    as (((mi1 & Hmi1 & Hm1) & (vi1 & Hvi1 & Hv1) & (ms1 & Hms1 & Hmv1)
         & (vs1 & Hvs1 & Hvv1)) & _).
  destruct (callEach_committed _ _ _ _ Htx Hroll2 Hrun2)
    as (((mi2 & Hmi2 & Hm2) & (vi2 & Hvi2 & Hv2) & (ms2 & Hms2 & Hmv2)
         & (vs2 & Hvs2 & Hvv2)) & _).
  assert (Hmh : map meterEntryValues (meter_telemetry_history (db w1)) =
                map meterEntryValues (meter_telemetry_history (db w2))).
  { by rewrite Hms1, Hms2, !map_app, Hmv1, Hmv2, Hmeters. }
  assert (Hvh : map vehicleEntryValues (vehicle_telemetry_history (db w1)) =
                map vehicleEntryValues (vehicle_telemetry_history (db w2))).
  { by rewrite Hvs1, Hvs2, !map_app, Hvv1, Hvv2, Hvehicles. }
  split; [|split; [|split; [done|split; [done|]]]].
  - unfold meterCurrentState. rewrite Hm1, Hm2.
    apply upsertMeterMap_values; [congruence|done].
  - unfold vehicleCurrentState. rewrite Hv1, Hv2.
    apply upsertVehicleMap_values; [congruence|done].
  - intros now vehicleId. by apply getVehiclePerformance_values.
Qed.

End SameRecords.

(** ** What the decorators report *)

Section Reports.
Context `{Platform}.
Import Validators.

Lemma elem_of_property field name decorators value :
  field ∈ property name decorators value ↔
  field = name ∧ forallb (fun d => d value) decorators = false.
Proof.
  unfold property. destruct (forallb _ decorators).
  - rewrite elem_of_nil. by intuition.
  - rewrite list_elem_of_singleton. by intuition.
Qed.

Lemma property_nil name decorators value :
  property name decorators value = [] ↔
  forallb (fun d => d value) decorators = true.
Proof. unfold property. by destruct (forallb _ decorators). Qed.

Lemma Min_false (min q : Q) : Min min (JsNumber q) = false ↔ (q < min)%Q.
Proof.
  cbn. split.
  - intros Hf. apply Qnot_le_lt. intros Hle.
    by rewrite (Qle_bool_true _ _ Hle) in Hf.
  - apply Qle_bool_false.
Qed.

Lemma Max_false (max q : Q) : Max max (JsNumber q) = false ↔ (max < q)%Q.
Proof.
  cbn. split.
  - intros Hf. apply Qnot_le_lt. intros Hle.
    by rewrite (Qle_bool_true _ _ Hle) in Hf.
  - apply Qle_bool_false.
Qed.

(** X13. What the decorators of the two DTO classes accept, for any
    value that a request body can carry: an identifier passes exactly when
    it is a string; a quantity under [IsNumber, Min(0)] exactly when it is
    a finite number at least 0, [soc] exactly when it is a finite number
    between 0 and 100 (both bounds pass), [batteryTemp] exactly when it is
    a finite number ([NaN] and the infinities are refused by [IsNumber]);
    a timestamp exactly when it is an ISO 8601 date string.  So, for a
    record whose fields have their declared types, with finite numbers, a
    property is reported exactly when its constraint is broken. *)
Theorem decorators_report_exactly (name : string) :
  (∀ value, property name [IsString] value = [] ↔
            ∃ s, value = JsString s) ∧
  (∀ value, property name [IsNumber; Min 0] value = [] ↔
            ∃ q, value = JsNumber q ∧ (0 <= q)%Q) ∧
  (∀ value, property name [IsNumber; Min 0; Max 100] value = [] ↔
            ∃ q, value = JsNumber q ∧ (0 <= q)%Q ∧ (q <= 100)%Q) ∧
  (∀ value, property name [IsNumber] value = [] ↔
            ∃ q, value = JsNumber q) ∧
  (∀ value, property name [IsDateString] value = [] ↔
            ∃ s, value = JsString s ∧ isISO8601 s = true) ∧
  (∀ data : MeterTelemetryDto.t,
     name ∈ validateMeterTelemetryDto data ↔ meterViolation data name) ∧
  (∀ data : VehicleTelemetryDto.t,
     name ∈ validateVehicleTelemetryDto data ↔ vehicleViolation data name).
Proof.
  split; [|split; [|split; [|split; [|split; [|split]]]]].
  - intros value. rewrite property_nil. destruct value; cbn;
      split; try done; try (by intros (? & [=])). by eexists.
  - intros value. rewrite property_nil. destruct value as [| | |q| | |];
      cbn; split; try done; try (by intros (? & [=] & _)).
    + rewrite andb_true_r. intros Hq. exists q. split; [done|].
      by apply Qle_bool_iff.
    + intros (q' & [= <-] & Hq). rewrite andb_true_r. by apply Qle_bool_iff.
  - intros value. rewrite property_nil. destruct value as [| | |q| | |];
      cbn; split; try done; try (by intros (? & [=] & _)).
    + rewrite andb_true_r. intros Hq. apply andb_true_iff in Hq as [H0 H1].
      exists q. split; [done|]. split; by apply Qle_bool_iff.
    + intros (q' & [= <-] & H0 & H1). rewrite andb_true_r.
      apply andb_true_iff. split; by apply Qle_bool_iff.
  - intros value. rewrite property_nil. destruct value; cbn;
      split; try done; try (by intros (? & [=])). by eexists.
  - intros value. rewrite property_nil. destruct value as [| | | | | |s];
      cbn; split; try done; try (by intros (? & [=] & _)).
    + rewrite andb_true_r. intros Hs. by exists s.
    + intros (s' & [= <-] & Hs). by rewrite andb_true_r.
  - intros data. unfold validateMeterTelemetryDto, meterViolation.
    rewrite !elem_of_app, !elem_of_property.
    cbn [forallb IsString IsNumber IsDateString andb].
    rewrite !andb_true_r, !Min_false. intuition congruence.
  - intros data. unfold validateVehicleTelemetryDto, vehicleViolation.
    rewrite !elem_of_app, !elem_of_property.
    cbn [forallb IsString IsNumber IsDateString andb].
    rewrite !andb_true_r, andb_false_iff, !Min_false, Max_false.
    intuition congruence.
Qed.

End Reports.

(** ** A transaction left open *)

Section LeftOpen.
Context `{Platform}.

Lemma rollbacksSucceedb_true (w w' : World) :
  rollbacksSucceedb w w' = true → rollbacksSucceed w w'.
Proof.
  unfold rollbacksSucceedb. rewrite forallb_forall.
  intros Hall n _ Hlook. specialize (Hall n).
  rewrite Hlook in Hall. apply negb_true_iff, Hall.
  apply in_seq. apply lookup_lt_Some in Hlook. lia.
Qed.

(** X17. A transaction that a refused rollback leaves open is committed
    by the next call on the connection: when a call fails with the error
    of its rollback, nothing is stored then, but the writes of its
    statements stay pending, and the next call that returns stores them
    together with its own. *)
Theorem refused_rollback_leaks (request1 request2 : IngestRequest)
    (w w1 w2 : World) :
  tx w = None → opensTransaction request2 = true →
  callService request1 w =
    (Thrown (PersistenceError RollbackTransaction), w1) →
  callService request2 w1 = (Returned tt, w2) →
  db w1 = db w ∧
  ∃ leaked writes,
    tx w1 = Some leaked ∧ writesOf request2 writes ∧
    db w2 = Store.applyAll (leaked ++ writes) (db w) ∧ tx w2 = None.
Proof.
  intros Htx Hopen2 Hrun1 Hrun2.
  assert (Hopen1 : opensTransaction request1 = true).
  { destruct (opensTransaction request1) eqn:E; [done|].
    by rewrite (callService_empty _ _ E) in Hrun1. }
  destruct (callService_runs _ _ _ _ Hopen1 Hrun1)
    as (_ & sent & _ & Hdb1 & Hcase).
  split; [done|].
  destruct Hcase as [([=] & _)|[([=] & _)|(k & c & Hc & _ & _ & Hif)]].
  destruct (faults w _).
  2: { destruct Hif as ([= <-] & _).
       apply list_elem_of_lookup_2 in Hc.
       by apply statementsOf_no_rollback in Hc. }
  destruct Hif as (_ & leaked & Hleak).
  unfold pending in Hleak. rewrite Htx in Hleak. cbn in Hleak.
  destruct (callService_runs _ _ _ _ Hopen2 Hrun2)
    as (_ & sent2 & _ & _ & Htx2 & writes & Hwrites & Hdb2).
  exists leaked, writes. split; [done|]. split; [done|]. split; [|done].
  unfold pending in Hdb2. rewrite Hleak in Hdb2. cbn in Hdb2.
  by rewrite Hdb2, Hdb1.
Qed.

End LeftOpen.

(** * Witnesses and counterexamples on the fixtures *)

(** A decidable proposition about the fixtures, settled by evaluation. *)
Ltac decided :=
  match goal with
  | |- ?P => apply (bool_decide_unpack P); vm_compute; exact I
  end.

(** One point in each band, and nine samples with an excellent ratio. *)
Lemma calculateHealthStatus_bands_witness :
  AnalyticsService.calculateHealthStatus 0.95 9 = "INSUFFICIENT_DATA" ∧
  AnalyticsService.calculateHealthStatus 0.95 10 = "EXCELLENT" ∧
  AnalyticsService.calculateHealthStatus 0.8999 50 = "NORMAL" ∧
  AnalyticsService.calculateHealthStatus 0.75 50 = "WARNING" ∧
  AnalyticsService.calculateHealthStatus 0.7499 50 = "CRITICAL".
Proof.
  split; [|split; [|split; [|split]]].
  - apply (proj1 (calculateHealthStatus_bands 0.95 9)). lia.
  - apply (proj1 (proj2 (calculateHealthStatus_bands 0.95 10)));
      [lia | by vm_compute].
  - apply (proj1 (proj2 (proj2 (calculateHealthStatus_bands 0.8999 50))));
      [lia | by vm_compute | by vm_compute].
  - apply (proj1 (proj2 (proj2 (proj2
             (calculateHealthStatus_bands 0.75 50)))));
      [lia | by vm_compute | by vm_compute].
  - apply (proj1 (proj2 (proj2 (proj2 (proj2
             (calculateHealthStatus_bands 0.7499 50))))));
      [lia | by vm_compute].
Defined.

(** The batch [[record 1; record 2]] sent to a world that already holds a
    row for V-1 and whose second upsert fails: nothing of it is applied. *)
Lemma ingest_atomic_witness :
  meterCurrentState afterFaultyBatch "V-1" =
    meterCurrentState faultyWorld "V-1" ∧
  vehicleCurrentState afterFaultyBatch "V-1" =
    vehicleCurrentState faultyWorld "V-1" ∧
  meterHistoryCount afterFaultyBatch "V-1" =
    meterHistoryCount faultyWorld "V-1" ∧
  vehicleHistoryCount afterFaultyBatch "V-1" =
    vehicleHistoryCount faultyWorld "V-1".
Proof.
  apply (@ingest_atomic fixturePlatform faultyBatch faultyWorld
           afterFaultyBatch (PersistenceError UpsertMeterStatus)).
  left. vm_compute. reflexivity.
Defined.

(** A meter record and a vehicle record ingested alone, the vehicle
    record with a state of charge of 50.005 that the column keeps as
    50.01; a batch of two meter records and a batch of two vehicle
    records for the same device: the row stores the second. *)
Lemma ingest_current_state_fresh_witness :
  (∃ row, meterCurrentState oneMeterWorld "V-1" = Some row ∧
          @meterRowStores fixturePlatform (meterRecord 0) row) ∧
  (∃ row, vehicleCurrentState roundedSocWorld "V-9" = Some row ∧
          @vehicleRowStores fixturePlatform roundedSocVehicle row ∧
          (VehicleCurrentStatus.soc row == 50.01)%Q) ∧
  (∃ row, meterCurrentState batchMeterWorld "V-1" = Some row ∧
          @meterRowStores fixturePlatform (meterRecord 2) row ∧
          MeterCurrentStatus.lastUpdated row = Some (scenarioT + 120000)) ∧
  (∃ row, vehicleCurrentState batchVehicleWorld "V-1" = Some row ∧
          @vehicleRowStores fixturePlatform (vehicleRecord 2) row ∧
          VehicleCurrentStatus.lastUpdated row = Some (scenarioT + 120000)).
Proof.
  split; [|split; [|split]].
  - apply (proj1 (@ingest_current_state_fresh fixturePlatform fixtureWorld
                    oneMeterWorld) (meterRecord 0)).
    left.
    exists (mkIngestResponse true
              "Meter telemetry for V-1 ingested successfully" None).
    vm_compute. reflexivity.
  - destruct (proj1 (proj2 (@ingest_current_state_fresh fixturePlatform
                              fixtureWorld roundedSocWorld))
                roundedSocVehicle) as (row & Hrow & Hstores).
    + left.
      exists (mkIngestResponse true
                "Vehicle telemetry for V-9 ingested successfully" None).
      vm_compute. reflexivity.
    + exists row. split; [done|]. split; [done|].
      destruct Hstores as (_ & -> & _). by vm_compute.
  - destruct (proj1 (proj2 (proj2
               (@ingest_current_state_fresh fixturePlatform fixtureWorld
                  batchMeterWorld)))
               [meterRecord 1] [] (meterRecord 2))
      as (row & Hrow & Hstores).
    + right. vm_compute. reflexivity.
    + constructor.
    + exists row. split; [done|]. split; [done|].
      destruct Hstores as (_ & _ & _ & ->). reflexivity.
  - destruct (proj2 (proj2 (proj2
               (@ingest_current_state_fresh fixturePlatform fixtureWorld
                  batchVehicleWorld)))
               [vehicleRecord 1] [] (vehicleRecord 2))
      as (row & Hrow & Hstores).
    + left.
      exists (mkIngestResponse true
                "Vehicle telemetry batch ingested successfully"
                (Some 2%nat)).
      vm_compute. reflexivity.
    + constructor.
    + exists row. split; [done|]. split; [done|].
      destruct Hstores as (_ & _ & _ & _ & ->). reflexivity.
Defined.


(** One vehicle record in the window and no meter record at all: the call
    succeeds with an AC total of zero. *)
Lemma getVehiclePerformance_not_found_iff_witness :
  ∃ s, AnalyticsService.getVehiclePerformance (scenarioT + 600000) "V-1"
         (db oneVehicleWorld) = Returned s ∧
       VehiclePerformanceAnalyticsDto.totalEnergyConsumedAc s = 0%Q.
Proof.
  apply (proj2 (proj2 (getVehiclePerformance_not_found_iff
                         (scenarioT + 600000) "V-1" (db oneVehicleWorld)))).
  - assert (Hrows : ∃ h, vehicle_telemetry_history (db oneVehicleWorld) = [h] ∧
                         VehicleTelemetryHistory.vehicleId h = "V-1" ∧
                         VehicleTelemetryHistory.timestamp h = Some scenarioT).
    { eexists. split; [vm_compute; reflexivity|]. split; reflexivity. }
    destruct Hrows as (h & Hh & Hid & Hts). exists h. split.
    + rewrite Hh. left.
    + split; [done|]. exists scenarioT. split; [done|].
      unfold scenarioT. lia.
  - replace (meter_telemetry_history (db oneVehicleWorld))
      with (@nil MeterTelemetryHistory.t) by (vm_compute; reflexivity).
    intros m Hm. inversion Hm.
Defined.

(** The readings of the scenario among readings outside the window and
    readings of another device: the ratio and the temperature average are
    those of the scenario, rounded; and with no meter reading at all the
    ratio is 0. *)
Lemma getVehiclePerformance_ratio_rounding_witness :
  (rounded_nearly 4
     (AnalyticsService.sumQ
        (map VehicleTelemetryHistory.kwhDeliveredDc
           (vehicle_telemetry_history (db scenarioWorld))) /
      AnalyticsService.sumQ
        (map MeterTelemetryHistory.kwhConsumedAc
           (meter_telemetry_history (db scenarioWorld))))
     (VehiclePerformanceAnalyticsDto.efficiencyRatio mixedSummary) ∧
   (VehiclePerformanceAnalyticsDto.efficiencyRatio mixedSummary
    == 0.8381)%Q) ∧
  (rounded_nearly 2
     (AnalyticsService.sumQ
        (map VehicleTelemetryHistory.batteryTemp
           (vehicle_telemetry_history (db scenarioWorld))) /
      inject_Z (Z.of_nat
                  (length (vehicle_telemetry_history (db scenarioWorld)))))
     (VehiclePerformanceAnalyticsDto.avgBatteryTemp mixedSummary) ∧
   (VehiclePerformanceAnalyticsDto.avgBatteryTemp mixedSummary == 32.5)%Q) ∧
  (VehiclePerformanceAnalyticsDto.efficiencyRatio tenVehicleSummary == 0)%Q.
Proof.
  destruct (getVehiclePerformance_ratio_rounding (scenarioT + 600000) "V-1"
              mixedTables mixedSummary
              (vehicle_telemetry_history (db scenarioWorld))
              [staleReading; otherVehicleReading]
              (meter_telemetry_history (db scenarioWorld))
              [staleMeterReading; otherMeterReading])
    as (Hratio & _ & Havg).
  - apply (Permutation_app_comm [staleReading; otherVehicleReading]).
  - decided.
  - decided.
  - apply (Permutation_middle _ [otherMeterReading] staleMeterReading).
  - decided.
  - decided.
  - vm_compute. reflexivity.
  - split; [|split].
    + split; [|by vm_compute].
      apply Hratio; [by vm_compute|]. vm_compute. discriminate.
    + split; [|by vm_compute]. apply Havg. vm_compute. discriminate.
    + destruct (getVehiclePerformance_ratio_rounding (scenarioT + 600000)
                  "V-1" (db tenVehicleWorld) tenVehicleSummary
                  (vehicle_telemetry_history (db tenVehicleWorld)) []
                  [] []) as (_ & Hzero & _).
      * by rewrite app_nil_r.
      * decided.
      * constructor.
      * vm_compute. reflexivity.
      * constructor.
      * constructor.
      * vm_compute. reflexivity.
      * apply Hzero. vm_compute. discriminate.
Defined.

(** Two readings of V-1 on the two ends of the window, one reading a
    millisecond too old and one reading of another vehicle: two are
    counted. *)
Lemma getVehiclePerformance_window_count_witness :
  ∃ s, AnalyticsService.getVehiclePerformance scenarioT "V-1" boundaryTables
         = Returned s ∧
       VehiclePerformanceAnalyticsDto.dataPointsAnalyzed s = 2.
Proof.
  apply (getVehiclePerformance_window_count scenarioT "V-1" boundaryTables
           [readingAtStart; readingAtEnd]
           [staleReading; otherVehicleReading]).
  - cbn. apply Permutation_skip. apply Permutation_swap.
  - repeat constructor; eexists; (split; [reflexivity|]);
      unfold scenarioT; lia.
  - repeat constructor.
    + intros [_ (ts & [= <-] & Hlo & _)]. revert Hlo.
      unfold scenarioT. lia.
    + intros [[=] _].
  - discriminate.
Defined.

(** The scenario as ingested record by record into an empty database. *)
Lemma getVehiclePerformance_end_to_end_witness :
  ∃ s, AnalyticsService.getVehiclePerformance (scenarioT + 600000) "V-1"
         (db scenarioWorld) = Returned s ∧
       (VehiclePerformanceAnalyticsDto.efficiencyRatio s == 0.8381)%Q ∧
       VehiclePerformanceAnalyticsDto.dataPointsAnalyzed s = 10 ∧
       VehiclePerformanceAnalyticsDto.healthStatus s = "WARNING".
Proof.
  apply (getVehiclePerformance_end_to_end scenarioT (db scenarioWorld)).
  - vm_compute. reflexivity.
  - vm_compute. reflexivity.
  - vm_compute. reflexivity.
  - vm_compute. reflexivity.
Defined.

(** A meter record with a negative voltage and a vehicle record with a
    state of charge above 100 are refused by their routes, and nothing is
    written; a meter record with an empty identifier reaches the
    service. *)
Lemma ingest_rejects_violations_witness :
  (∃ properties, "voltage" ∈ properties ∧
     @ingest fixturePlatform (PostMeter negativeVoltageMeter) fixtureWorld =
       (Thrown (ValidationError properties), fixtureWorld)) ∧
  (∃ properties, "soc" ∈ properties ∧
     @ingest fixturePlatform (PostVehicle overchargedVehicle) fixtureWorld =
       (Thrown (ValidationError properties), fixtureWorld)) ∧
  @ingest fixturePlatform (PostMeter emptyIdentifierMeter) fixtureWorld =
    @IngestionController.ingestMeter fixturePlatform emptyIdentifierMeter
      fixtureWorld.
Proof.
  split; [|split].
  - apply (proj1 (@ingest_rejects_violations fixturePlatform fixtureWorld)
                 negativeVoltageMeter "voltage").
    right. left. split; [reflexivity|]. by vm_compute.
  - apply (proj1 (proj2 (@ingest_rejects_violations fixturePlatform
                           fixtureWorld))
                 overchargedVehicle "soc").
    left. split; [reflexivity|]. right. by vm_compute.
  - apply (proj1 (proj2 (proj2 (@ingest_rejects_violations fixturePlatform
                                  fixtureWorld)))
                 emptyIdentifierMeter).
    intros field [[_ Hv]|[[_ Hv]|[_ Hv]]]; revert Hv; by vm_compute.
Defined.

(** C2, as stated, at a vehicle record with a state of charge of 50.005:
    the record passes validation and is ingested, and the Current-State
    row holds 50.01, not the record's value. *)
Lemma current_state_rounding_counterexample :
  @ingestSucceeds fixturePlatform (PostVehicle roundedSocVehicle)
    fixtureWorld roundedSocWorld ∧
  ∃ row, vehicleCurrentState roundedSocWorld "V-9" = Some row ∧
         (VehicleCurrentStatus.soc row == 50.01)%Q ∧
         ¬ (VehicleCurrentStatus.soc row ==
            VehicleTelemetryDto.soc roundedSocVehicle)%Q ∧
         ¬ @vehicleRowHolds fixturePlatform roundedSocVehicle row.
Proof.
  split.
  - left.
    exists (mkIngestResponse true
              "Vehicle telemetry for V-9 ingested successfully" None).
    vm_compute. reflexivity.
  - eexists. split; [vm_compute; reflexivity|].
    split; [by vm_compute|]. split; [by vm_compute|].
    intros (_ & Hsoc & _). revert Hsoc. by vm_compute.
Qed.

(** C5, as stated, at readings that deliver 34199768.2599 kWh for
    52732662.4931 kWh drawn: the ratio times 10000 is just below 6485.5,
    the program computes 6485.5 and returns 0.6486, which is farther than
    half a unit of the fourth decimal from the ratio. *)
Lemma ratio_rounding_counterexample :
  AnalyticsService.getVehiclePerformance scenarioT "V-1" roundingTables =
    Returned roundingSummary ∧
  (AnalyticsService.sumQ
     (map VehicleTelemetryHistory.kwhDeliveredDc roundingVehicleReadings)
   == 34199768.2599)%Q ∧
  (AnalyticsService.sumQ
     (map MeterTelemetryHistory.kwhConsumedAc roundingMeterReadings)
   == 52732662.4931)%Q ∧
  (VehiclePerformanceAnalyticsDto.efficiencyRatio roundingSummary
   == 0.6486)%Q ∧
  ¬ rounded_to 4 (34199768.2599 / 52732662.4931)
      (VehiclePerformanceAnalyticsDto.efficiencyRatio roundingSummary).
Proof.
  split; [by vm_compute|]. split; [by vm_compute|]. split; [by vm_compute|].
  split; [by vm_compute|].
  intros [_ Hd]. revert Hd. vm_compute. tauto.
Qed.

(** C6, as stated, at N = 0 and M = 1: the vehicle has one reading, a
    millisecond older than the window, and the call reports no
    [dataPointsAnalyzed = 0]: it throws the not-found exception. *)
Lemma window_count_zero_counterexample :
  AnalyticsService.getVehiclePerformance scenarioT "V-1" staleTables =
    Thrown (NotFoundException
              "No data found for vehicle V-1 in the last 24 hours") ∧
  ¬ ∃ s, AnalyticsService.getVehiclePerformance scenarioT "V-1" staleTables
           = Returned s ∧
         VehiclePerformanceAnalyticsDto.dataPointsAnalyzed s = 0.
Proof.
  split; [by vm_compute|]. intros (s & Hs & _). revert Hs. by vm_compute.
Qed.

(** C7, as stated: a meter record whose identifier is the empty string
    and whose other fields are valid is ingested, and the Current-State
    row and the History entry are written under the empty string; a
    record whose timestamp is an ISO 8601 week date, which is no instant
    for the date parser, passes validation and fails, when the driver
    refuses the upsert, with the error of the driver; and a batch that
    holds a record with a negative voltage is accepted by its route and
    stored. *)
Lemma unvalidated_input_counterexample :
  (MeterTelemetryDto.meterId emptyIdentifierMeter = "" ∧
   (@ingest fixturePlatform (PostMeter emptyIdentifierMeter)
      fixtureWorld).1 =
     Returned (mkIngestResponse true
                 "Meter telemetry for  ingested successfully" None) ∧
   is_Some (meterCurrentState
              (ingestAll [PostMeter emptyIdentifierMeter] fixtureWorld) "") ∧
   meterHistoryCount
     (ingestAll [PostMeter emptyIdentifierMeter] fixtureWorld) "" = 1%nat) ∧
  (@isISO8601 fixturePlatform
     (MeterTelemetryDto.timestamp weekDateMeter) = true ∧
   @Date_parse fixturePlatform
     (MeterTelemetryDto.timestamp weekDateMeter) = None ∧
   @Validators.validateMeterTelemetryDto fixturePlatform weekDateMeter = [] ∧
   (@ingest fixturePlatform (PostMeter weekDateMeter) upsertFailsWorld).1 =
     Thrown (PersistenceError UpsertMeterStatus)) ∧
  ((MeterTelemetryDto.voltage negativeVoltageMeter < 0)%Q ∧
   (@ingest fixturePlatform (PostMeterBatch [negativeVoltageMeter])
      fixtureWorld).1 =
     Returned (mkIngestResponse true
                 "Meter telemetry batch ingested successfully"
                 (Some 1%nat)) ∧
   ∃ row, meterCurrentState negativeVoltageBatchWorld "METER-101"
            = Some row ∧
          (MeterCurrentStatus.voltage row == -1)%Q).
Proof.
  split; [|split].
  - split; [reflexivity|]. split; [by vm_compute|]. split.
    + vm_compute. by eexists.
    + by vm_compute.
  - split; [by vm_compute|]. split; [by vm_compute|].
    split; by vm_compute.
  - split; [by vm_compute|]. split; [by vm_compute|].
    eexists. split; [vm_compute; reflexivity|]. by vm_compute.
Qed.

(** C9, as stated, on the scenario: the ratio returned is 0.8381, not
    0.8383, and 0.8383 is not 1052.134/1255.432 rounded to 4 decimal
    places. *)
Lemma end_to_end_ratio_counterexample :
  AnalyticsService.getVehiclePerformance (scenarioT + 600000) "V-1"
    (db scenarioWorld) = Returned scenarioSummary ∧
  (VehiclePerformanceAnalyticsDto.efficiencyRatio scenarioSummary
   == 0.8381)%Q ∧
  ¬ (VehiclePerformanceAnalyticsDto.efficiencyRatio scenarioSummary
     == 0.8383)%Q ∧
  ¬ rounded_to 4 (1052.134 / 1255.432) 0.8383.
Proof.
  split; [by vm_compute|]. split; [by vm_compute|]. split; [by vm_compute|].
  intros [_ Hd]. revert Hd. vm_compute. tauto.
Qed.

(** ** Witnesses of the further properties *)

(** Of the four calls the first fails, its rollback succeeding: V-1 gains
    the two vehicle records of the calls that returned. *)
Lemma history_is_accepted_records_witness :
  vehicleHistoryCount sequenceEnd "V-1" =
    (vehicleHistoryCount faultyWorld "V-1" +
     length (filter (fun r => VehicleTelemetryDto.vehicleId r = "V-1")
                    (flat_map vehicleRecords sequenceAccepted)))%nat.
Proof.
  refine (proj2 (proj2 (proj2
            (@history_is_accepted_records fixturePlatform sequenceRequests
               sequenceAccepted faultyWorld sequenceEnd eq_refl _ _)))
            "V-1").
  - apply rollbacksSucceedb_true. vm_compute. reflexivity.
  - vm_compute. reflexivity.
Defined.

(** The vehicle row of V-1 stores record 5, the last accepted for it,
    though V-2 follows it in the same batch; the meter row of V-1 stores
    record 4. *)
Lemma current_state_is_last_accepted_witness :
  (∃ row, meterCurrentState sequenceEnd "V-1" = Some row ∧
          @meterRowStores fixturePlatform (meterRecord 4) row) ∧
  (∃ row, vehicleCurrentState sequenceEnd "V-1" = Some row ∧
          @vehicleRowStores fixturePlatform (vehicleRecord 5) row).
Proof.
  destruct (@current_state_is_last_accepted fixturePlatform
              sequenceRequests sequenceAccepted faultyWorld sequenceEnd
              eq_refl) as [Hmeter Hvehicle].
  - apply rollbacksSucceedb_true. vm_compute. reflexivity.
  - vm_compute. reflexivity.
  - split.
    + apply (Hmeter [] [] (meterRecord 4)); [reflexivity|constructor].
    + apply (Hvehicle [vehicleRecord 3] [otherVehicleRecord]
               (vehicleRecord 5)); [reflexivity|].
      repeat constructor. discriminate.
Defined.

(** The meter V-2 is named by the failed batch only. *)
Lemma unnamed_devices_untouched_witness :
  meterCurrentState sequenceEnd "V-2" = meterCurrentState faultyWorld "V-2" ∧
  meterHistoryCount sequenceEnd "V-2" = meterHistoryCount faultyWorld "V-2".
Proof.
  refine (proj1 (@unnamed_devices_untouched fixturePlatform sequenceRequests
                   sequenceAccepted faultyWorld sequenceEnd "V-2"
                   eq_refl _ _) _).
  - apply rollbacksSucceedb_true. vm_compute. reflexivity.
  - vm_compute. reflexivity.
  - repeat constructor. discriminate.
Defined.

(** The meter row of V-1 was created by the ingest before the sequence. *)
Lemma created_at_is_kept_witness :
  is_Some (meterCurrentState faultyWorld "V-1") ∧
  ∀ old, meterCurrentState faultyWorld "V-1" = Some old →
    ∃ row, meterCurrentState sequenceEnd "V-1" = Some row ∧
           MeterCurrentStatus.createdAt row =
             MeterCurrentStatus.createdAt old.
Proof.
  split; [by eexists|].
  refine (proj1 (@created_at_is_kept fixturePlatform sequenceRequests
                   sequenceAccepted faultyWorld sequenceEnd "V-1" _)).
  vm_compute. reflexivity.
Defined.

(** A batch of two meter records on the empty world. *)
Lemma successful_ingest_calls_witness :
  trace batchMeterWorld =
    trace fixtureWorld ++ [Connect; StartTransaction] ++
    statementsOf (PostMeterBatch [meterRecord 1; meterRecord 2]) ++
    [CommitTransaction; Release] ∧
  (RollbackTransaction ∉
     statementsOf (PostMeterBatch [meterRecord 1; meterRecord 2])) ∧
  tx batchMeterWorld = None.
Proof.
  apply (@successful_ingest_calls fixturePlatform
           (PostMeterBatch [meterRecord 1; meterRecord 2]) fixtureWorld
           batchMeterWorld).
  - reflexivity.
  - vm_compute. reflexivity.
Defined.

(** [startTransaction] fails: the connection is not released.  The insert
    fails and then the rollback: the connection is released, with the
    transaction open. *)
Lemma release_once_started_witness :
  (∃ sent, trace afterStartFails = trace startFailsWorld ++ sent ∧
     ((@Thrown unit (PersistenceError StartTransaction) =
         Thrown (PersistenceError Connect) ∧ sent = [Connect]) ∨
      (@Thrown unit (PersistenceError StartTransaction) =
         Thrown (PersistenceError StartTransaction) ∧
       sent = [Connect; StartTransaction]) ∨
      (∃ inside, sent = [Connect; StartTransaction] ++ inside ++ [Release] ∧
                 (Release ∉ inside) ∧
                 (tx afterStartFails = None ↔
                  @Thrown unit (PersistenceError StartTransaction) ≠
                    Thrown (PersistenceError RollbackTransaction))))) ∧
  (∃ sent, trace afterRollbackFails = trace rollbackFailsWorld ++ sent ∧
     ((@Thrown unit (PersistenceError RollbackTransaction) =
         Thrown (PersistenceError Connect) ∧ sent = [Connect]) ∨
      (@Thrown unit (PersistenceError RollbackTransaction) =
         Thrown (PersistenceError StartTransaction) ∧
       sent = [Connect; StartTransaction]) ∨
      (∃ inside, sent = [Connect; StartTransaction] ++ inside ++ [Release] ∧
                 (Release ∉ inside) ∧
                 (tx afterRollbackFails = None ↔
                  @Thrown unit (PersistenceError RollbackTransaction) ≠
                    Thrown (PersistenceError RollbackTransaction))))) ∧
  is_Some (tx afterRollbackFails).
Proof.
  split; [|split].
  - apply (@release_once_started fixturePlatform (PostMeter (meterRecord 0))
             startFailsWorld afterStartFails
             (Thrown (PersistenceError StartTransaction))).
    + reflexivity.
    + vm_compute. reflexivity.
  - apply (@release_once_started fixturePlatform
             (PostVehicle (vehicleRecord 0))
             rollbackFailsWorld afterRollbackFails
             (Thrown (PersistenceError RollbackTransaction))).
    + reflexivity.
    + vm_compute. reflexivity.
  - vm_compute. by eexists.
Defined.

(** The insert of a vehicle record fails and then the rollback: the
    caller gets the error of the rollback, nothing is stored, and the
    transaction stays open with the write of the upsert that ran. *)
Lemma failed_ingest_calls_witness :
  ∃ k c,
    (statementsOf (PostVehicle (vehicleRecord 0)) ++ [CommitTransaction])
      !! k = Some c ∧
    trace afterRollbackFails =
      trace rollbackFailsWorld ++ [Connect; StartTransaction] ++
      take (S k)
        (statementsOf (PostVehicle (vehicleRecord 0)) ++
         [CommitTransaction]) ++
      [RollbackTransaction; Release] ∧
    db afterRollbackFails = db rollbackFailsWorld ∧
    faults rollbackFailsWorld (length (trace rollbackFailsWorld) + 2 + k) =
      true ∧
    if faults rollbackFailsWorld
         (length (trace rollbackFailsWorld) + 2 + S k)
    then PersistenceError RollbackTransaction =
           PersistenceError RollbackTransaction ∧
         ∃ writes, tx afterRollbackFails =
                     Some (pending rollbackFailsWorld ++ writes)
    else PersistenceError RollbackTransaction = PersistenceError c ∧
         tx afterRollbackFails = None.
Proof.
  apply (@failed_ingest_calls fixturePlatform (PostVehicle (vehicleRecord 0))
           rollbackFailsWorld afterRollbackFails
           (PersistenceError RollbackTransaction)).
  - reflexivity.
  - vm_compute. reflexivity.
  - discriminate.
  - discriminate.
Defined.

(** One reading: a summary, with too little data. *)
Lemma insufficient_data_iff_witness :
  1 ≤ VehiclePerformanceAnalyticsDto.dataPointsAnalyzed oneVehicleSummary ∧
  (VehiclePerformanceAnalyticsDto.healthStatus oneVehicleSummary =
     "INSUFFICIENT_DATA" ↔
   VehiclePerformanceAnalyticsDto.dataPointsAnalyzed oneVehicleSummary < 10).
Proof.
  apply (insufficient_data_iff (scenarioT + 600000) "V-1"
           (db oneVehicleWorld) oneVehicleSummary).
  vm_compute. reflexivity.
Defined.

(** Ten vehicle readings and no meter reading under the same identifier:
    a ratio of 0 and a CRITICAL status. *)
Lemma no_meter_energy_is_critical_witness :
  (VehiclePerformanceAnalyticsDto.efficiencyRatio tenVehicleSummary == 0)%Q ∧
  VehiclePerformanceAnalyticsDto.healthStatus tenVehicleSummary = "CRITICAL".
Proof.
  destruct (no_meter_energy_is_critical (scenarioT + 600000) "V-1"
              (db tenVehicleWorld) tenVehicleSummary) as [Hratio Hstatus].
  - vm_compute. reflexivity.
  - vm_compute. discriminate.
  - split; [exact Hratio|]. apply Hstatus. vm_compute. discriminate.
Defined.

(** Ten readings of V-1 that deliver 84.996 kWh for 100 kWh drawn, among
    readings outside the window and of another device: the ratio 0.84996
    is shown as 0.85 and classified WARNING. *)
Lemma status_of_unrounded_ratio_witness :
  ∃ s, AnalyticsService.getVehiclePerformance scenarioT "V-1"
         nearBoundTables = Returned s ∧
       (VehiclePerformanceAnalyticsDto.efficiencyRatio s == 0.85)%Q ∧
       VehiclePerformanceAnalyticsDto.healthStatus s = "WARNING".
Proof.
  apply (status_of_unrounded_ratio scenarioT "V-1" nearBoundTables 0.85%Q
           "WARNING" nearBoundReadings [staleReading; otherVehicleReading]
           [nearBoundMeterReading] [staleMeterReading; otherMeterReading]).
  - apply list_elem_of_further, list_elem_of_here.
  - apply (Permutation_app_comm [staleReading; otherVehicleReading]).
  - decided.
  - decided.
  - apply Permutation_swap.
  - decided.
  - decided.
  - vm_compute. lia.
  - vm_compute. reflexivity.
  - vm_compute. discriminate.
  - vm_compute. discriminate.
Defined.

(** Telemetry for V-2 leaves the summary of V-1 as it was. *)
Lemma other_devices_leave_summary_witness :
  AnalyticsService.getVehiclePerformance (scenarioT + 600000) "V-1"
    (db otherEnd) =
  AnalyticsService.getVehiclePerformance (scenarioT + 600000) "V-1"
    (db oneVehicleWorld).
Proof.
  apply (@other_devices_leave_summary fixturePlatform otherRequests
           otherRequests oneVehicleWorld otherEnd).
  - reflexivity.
  - apply rollbacksSucceedb_true. vm_compute. reflexivity.
  - vm_compute. reflexivity.
  - repeat constructor. discriminate.
  - repeat constructor. discriminate.
Defined.

(** After the four calls the summary of V-1 counts the two accepted
    vehicle records. *)
Lemma summary_counts_accepted_readings_witness :
  match AnalyticsService.getVehiclePerformance (scenarioT + 600000) "V-1"
          (db sequenceEnd) with
  | Returned s =>
      VehiclePerformanceAnalyticsDto.dataPointsAnalyzed s =
        Z.of_nat
          (length (filter (vehicleReadingIn "V-1"
                             (scenarioT + 600000 - 86400000)
                             (scenarioT + 600000))
                     (vehicle_telemetry_history (db faultyWorld))) +
           length (@acceptedInWindow fixturePlatform (scenarioT + 600000)
                     "V-1" (flat_map vehicleRecords sequenceAccepted)))
  | Thrown e =>
      e = NotFoundException (notFoundMessage "V-1") ∧
      filter (vehicleReadingIn "V-1" (scenarioT + 600000 - 86400000)
                (scenarioT + 600000))
        (vehicle_telemetry_history (db faultyWorld)) = [] ∧
      @acceptedInWindow fixturePlatform (scenarioT + 600000) "V-1"
        (flat_map vehicleRecords sequenceAccepted) = []
  end ∧
  ∃ s, AnalyticsService.getVehiclePerformance (scenarioT + 600000) "V-1"
         (db sequenceEnd) = Returned s ∧
       VehiclePerformanceAnalyticsDto.dataPointsAnalyzed s = 2.
Proof.
  split.
  - apply (@summary_counts_accepted_readings fixturePlatform
             sequenceRequests sequenceAccepted faultyWorld sequenceEnd).
    + reflexivity.
    + apply rollbacksSucceedb_true. vm_compute. reflexivity.
    + vm_compute. reflexivity.
  - eexists. split; [vm_compute; reflexivity|]. reflexivity.
Defined.

(** A negative number, a number above 100, [NaN] and an infinity are
    reported; the bounds 0 and 100 pass; and a negative voltage is
    reported under the name of the property. *)
Lemma decorators_report_exactly_witness :
  Validators.property "soc"
    [Validators.IsNumber; Validators.Min 0; Validators.Max 100]
    (JsNumber 100) = [] ∧
  Validators.property "soc"
    [Validators.IsNumber; Validators.Min 0; Validators.Max 100]
    (JsNumber 0) = [] ∧
  Validators.property "soc"
    [Validators.IsNumber; Validators.Min 0; Validators.Max 100]
    (JsNumber 100.5) ≠ [] ∧
  Validators.property "soc"
    [Validators.IsNumber; Validators.Min 0; Validators.Max 100]
    JsNaN ≠ [] ∧
  Validators.property "batteryTemp" [Validators.IsNumber]
    (JsInfinity true) ≠ [] ∧
  Validators.property "batteryTemp" [Validators.IsNumber]
    (JsNumber (-40)) = [] ∧
  "voltage" ∈
    @Validators.validateMeterTelemetryDto fixturePlatform
      negativeVoltageMeter.
Proof.
  split; [|split; [|split; [|split; [|split; [|split]]]]].
  - apply (proj1 (proj2 (proj2
             (@decorators_report_exactly fixturePlatform "soc")))).
    exists 100%Q. split; [reflexivity|]. split; by vm_compute.
  - apply (proj1 (proj2 (proj2
             (@decorators_report_exactly fixturePlatform "soc")))).
    exists 0%Q. split; [reflexivity|]. split; by vm_compute.
  - intros Hnone.
    apply (proj1 (proj2 (proj2
             (@decorators_report_exactly fixturePlatform "soc")))) in Hnone.
    destruct Hnone as (q & [= <-] & _ & Hmax). revert Hmax. by vm_compute.
  - intros Hnone.
    apply (proj1 (proj2 (proj2
             (@decorators_report_exactly fixturePlatform "soc")))) in Hnone.
    by destruct Hnone as (q & [=] & _).
  - intros Hnone.
    apply (proj1 (proj2 (proj2 (proj2
             (@decorators_report_exactly fixturePlatform "batteryTemp")))))
      in Hnone.
    by destruct Hnone as (q & [=]).
  - apply (proj1 (proj2 (proj2 (proj2
             (@decorators_report_exactly fixturePlatform "batteryTemp"))))).
    by eexists.
  - apply (proj1 (proj2 (proj2 (proj2 (proj2 (proj2
             (@decorators_report_exactly fixturePlatform "voltage"))))))
             negativeVoltageMeter).
    right. left. split; [reflexivity|]. by vm_compute.
Defined.

(** The batch of two meter records, and the batch of two vehicle
    records. *)
Lemma batch_response_counts_rows_witness :
  (success (mkIngestResponse true
              "Meter telemetry batch ingested successfully" (Some 2%nat))
     = true ∧
   count (mkIngestResponse true
            "Meter telemetry batch ingested successfully" (Some 2%nat)) =
     Some (length [meterRecord 1; meterRecord 2]) ∧
   length (meter_telemetry_history (db batchMeterWorld)) =
     (length (meter_telemetry_history (db fixtureWorld)) +
      length [meterRecord 1; meterRecord 2])%nat ∧
   vehicle_telemetry_history (db batchMeterWorld) =
     vehicle_telemetry_history (db fixtureWorld)) ∧
  (success (mkIngestResponse true
              "Vehicle telemetry batch ingested successfully" (Some 2%nat))
     = true ∧
   count (mkIngestResponse true
            "Vehicle telemetry batch ingested successfully" (Some 2%nat)) =
     Some (length [vehicleRecord 1; vehicleRecord 2]) ∧
   length (vehicle_telemetry_history (db batchVehicleWorld)) =
     (length (vehicle_telemetry_history (db fixtureWorld)) +
      length [vehicleRecord 1; vehicleRecord 2])%nat ∧
   meter_telemetry_history (db batchVehicleWorld) =
     meter_telemetry_history (db fixtureWorld)).
Proof.
  split.
  - destruct (proj1 (@batch_response_counts_rows fixturePlatform)
                [meterRecord 1; meterRecord 2] fixtureWorld
                (mkIngestResponse true
                   "Meter telemetry batch ingested successfully"
                   (Some 2%nat))
                batchMeterWorld) as (Hsuccess & Hcount & Hrows).
    + vm_compute. reflexivity.
    + split; [exact Hsuccess|]. split; [exact Hcount|].
      apply Hrows. reflexivity.
  - destruct (proj2 (@batch_response_counts_rows fixturePlatform)
                [vehicleRecord 1; vehicleRecord 2] fixtureWorld
                (mkIngestResponse true
                   "Vehicle telemetry batch ingested successfully"
                   (Some 2%nat))
                batchVehicleWorld) as (Hsuccess & Hcount & Hrows).
    + vm_compute. reflexivity.
    + split; [exact Hsuccess|]. split; [exact Hcount|].
      apply Hrows. reflexivity.
Defined.

(** The failed batch of [faultyWorld] was refused by the driver. *)
Lemma ingest_fails_only_with_driver_witness :
  ∃ n, (length (trace faultyWorld) ≤ n < length (trace afterFaultyBatch))%nat ∧
       faults faultyWorld n = true.
Proof.
  refine (proj1 (@ingest_fails_only_with_driver fixturePlatform faultyBatch
                   faultyWorld afterFaultyBatch
                   (Thrown (PersistenceError UpsertMeterStatus)) _)
            (PersistenceError UpsertMeterStatus) eq_refl).
  vm_compute. reflexivity.
Defined.

(** One batch of two records, and the same two records one by one. *)
Lemma same_records_same_state_witness :
  (∀ device, meterStatusOf <$> meterCurrentState batchMeterWorld device =
             meterStatusOf <$> meterCurrentState singlesMeterWorld device) ∧
  (∀ device, vehicleStatusOf <$> vehicleCurrentState batchMeterWorld device =
             vehicleStatusOf <$> vehicleCurrentState singlesMeterWorld device) ∧
  map meterEntryValues (meter_telemetry_history (db batchMeterWorld)) =
    map meterEntryValues (meter_telemetry_history (db singlesMeterWorld)) ∧
  map vehicleEntryValues (vehicle_telemetry_history (db batchMeterWorld)) =
    map vehicleEntryValues (vehicle_telemetry_history (db singlesMeterWorld)) ∧
  (∀ now vehicleId,
     AnalyticsService.getVehiclePerformance now vehicleId
       (db batchMeterWorld) =
     AnalyticsService.getVehiclePerformance now vehicleId
       (db singlesMeterWorld)).
Proof.
  apply (@same_records_same_state fixturePlatform
           [PostMeterBatch [meterRecord 1; meterRecord 2]] singleRequests
           [PostMeterBatch [meterRecord 1; meterRecord 2]] singleRequests
           fixtureWorld batchMeterWorld singlesMeterWorld).
  - reflexivity.
  - apply rollbacksSucceedb_true. vm_compute. reflexivity.
  - apply rollbacksSucceedb_true. vm_compute. reflexivity.
  - vm_compute. reflexivity.
  - vm_compute. reflexivity.
  - reflexivity.
  - reflexivity.
Defined.

(** The insert of a meter record for V-1 fails and then the rollback;
    the vehicle call that follows returns, and the meter row of V-1 is
    stored with it.  The commit of a meter record fails and then the
    rollback; the batch of two records that follows returns, and the
    history has grown by three entries. *)
Lemma refused_rollback_leaks_witness :
  (db leakMiddle = db leakStart ∧
   ∃ leaked writes,
     tx leakMiddle = Some leaked ∧
     @writesOf fixturePlatform (PostVehicle (vehicleRecord 1)) writes ∧
     db leakEnd = Store.applyAll (leaked ++ writes) (db leakStart) ∧
     tx leakEnd = None) ∧
  (meterCurrentState leakMiddle "V-1" = None ∧
   is_Some (meterCurrentState leakEnd "V-1") ∧
   is_Some (vehicleCurrentState leakEnd "V-1")) ∧
  (db lateLeakMiddle = db lateLeakStart ∧
   ∃ leaked writes,
     tx lateLeakMiddle = Some leaked ∧
     @writesOf fixturePlatform
       (PostMeterBatch [meterRecord 1; meterRecord 2]) writes ∧
     db lateLeakEnd = Store.applyAll (leaked ++ writes) (db lateLeakStart) ∧
     tx lateLeakEnd = None) ∧
  (meterHistoryCount lateLeakMiddle "V-1" = 0 ∧
   meterHistoryCount lateLeakEnd "V-1" = 3)%nat.
Proof.
  split; [|split; [|split]].
  - apply (@refused_rollback_leaks fixturePlatform (PostMeter (meterRecord 0))
             (PostVehicle (vehicleRecord 1)) leakStart leakMiddle leakEnd).
    + reflexivity.
    + reflexivity.
    + vm_compute. reflexivity.
    + vm_compute. reflexivity.
  - split; [by vm_compute|]. split; vm_compute; by eexists.
  - apply (@refused_rollback_leaks fixturePlatform (PostMeter (meterRecord 0))
             (PostMeterBatch [meterRecord 1; meterRecord 2])
             lateLeakStart lateLeakMiddle lateLeakEnd).
    + reflexivity.
    + reflexivity.
    + vm_compute. reflexivity.
    + vm_compute. reflexivity.
  - split; by vm_compute.
Defined.

(** A state of charge of 50.005 in a column with two decimal places: a
    tie, kept as 50.01. *)
Lemma column_rounds_witness :
  rounded_to 2 50.005 (Numeric.column 2 50.005) ∧
  ((Qabs (Numeric.column 2 50.005 - 50.005) == 1 / inject_Z (2 * 10 ^ 2))%Q →
   (Qabs 50.005 <= Qabs (Numeric.column 2 50.005))%Q) ∧
  (Numeric.column 2 50.005 == 50.01)%Q ∧
  (Numeric.column 2 (-50.005) == -50.01)%Q ∧
  (Numeric.column 4 1.00004 == 1)%Q.
Proof.
  destruct (column_rounds 2 50.005) as [Hrounded Htie]; [lia|].
  split; [exact Hrounded|]. split; [exact Htie|].
  split; [by vm_compute|]. split; by vm_compute.
Defined.

(** ** The summary on binary64 numbers *)

(** X19. The quotient and the rounding are those of binary64 numbers.  A
    ratio that is exactly a band bound as a fraction can fall in the band
    below: 4.05 kWh for 4.5 kWh is shown as 0.9 and classified NORMAL.
    A value halfway between two displayed values can be rounded down
    rather than up: 2.9 for 3.2 (0.90625) is shown as 0.9062, 18.6989 for
    22 (0.84995) as 0.8499, and an average temperature of 1.005 as 1. *)
Theorem summary_in_binary64 :
  (∃ s, AnalyticsService.getVehiclePerformance scenarioT "V-1"
          (ratioTables 4.05 4.5) = Returned s ∧
        (VehiclePerformanceAnalyticsDto.efficiencyRatio s == 0.9)%Q ∧
        VehiclePerformanceAnalyticsDto.healthStatus s = "NORMAL") ∧
  (∃ s, AnalyticsService.getVehiclePerformance scenarioT "V-1"
          (ratioTables 2.9 3.2) = Returned s ∧
        (VehiclePerformanceAnalyticsDto.efficiencyRatio s == 0.9062)%Q ∧
        VehiclePerformanceAnalyticsDto.healthStatus s = "EXCELLENT") ∧
  (∃ s, AnalyticsService.getVehiclePerformance scenarioT "V-1"
          (ratioTables 18.6989 22) = Returned s ∧
        (VehiclePerformanceAnalyticsDto.efficiencyRatio s == 0.8499)%Q ∧
        VehiclePerformanceAnalyticsDto.healthStatus s = "WARNING") ∧
  (∃ s, AnalyticsService.getVehiclePerformance scenarioT "V-1"
          temperatureTables = Returned s ∧
        (VehiclePerformanceAnalyticsDto.avgBatteryTemp s == 1)%Q).
Proof.
  split; [|split; [|split]]; eexists;
    (split; [vm_compute; reflexivity|]); try split; by vm_compute.
Qed.
